(** * Chat backend: authentication gate, session registry, room groups
      and the message fan-out path.

    A shallow embedding of the TypeScript services
    ([socketService], [messageService], [roomService], the [auth]
    middleware and the request validators) together with the properties
    the specification states about them.

    Conventions of the embedding:
    - a JavaScript [string | undefined] is an [option string]; a test
      [if (x)] on such a value is [truthy];
    - the document store, the Redis clients, the RabbitMQ channel are
      external collaborators: every call to one of them is recorded in
      the log of the world and an oracle [ExtCall -> bool] decides whether
      the call resolves or rejects, so a statement that quantifies over
      the oracle covers every failure of the collaborators (no handler
      issues the same call twice, and every step of the server takes an
      oracle of its own);
    - [await] is sequencing: a handler runs to completion, interleavings
      of concurrent handlers are not modelled;
    - a string holds the UTF-8 encoding of the JavaScript string, as the
      string literals of this file do: the character count and the
      white space of JavaScript are read off that encoding
      ([charCount], [ltrim], [rtrim]); a lone surrogate has no encoding
      and no counterpart here;
    - a document that has been populated is still held with the ids of
      what it refers to; where the code reads a populated document the
      store is asked whether there is one ([populate_room], [sender_id],
      [room_id]);
    - timestamps ([new Date()]) are left out of every payload;
    - socket.io is modelled at its documented contract: [socket.join],
      [socket.leave], [socket.to(room).emit] (every socket of the room
      except the emitting one), [io.to(room).emit] (every socket of the
      room), the room each socket joins under its own id, and the removal
      of a socket from all its rooms when it disconnects. *)

From Stdlib Require Import Ascii.
From stdpp Require Import gmap strings list.

(** ** JavaScript values used by the services *)

Module Js.

(** [if (s)] on a string: the empty string is falsy. *)
Definition truthy (s : string) : bool :=
  match s with
  | EmptyString => false
  | String _ _ => true
  end.

(** [if (x)] on [string | undefined]. *)
Definition truthy_opt (x : option string) : bool :=
  match x with
  | Some s => truthy s
  | None => false
  end.

(** [s.split(sep)] for a one-character separator. *)
Fixpoint split (sep : Ascii.ascii) (s : string) : list string :=
  match s with
  | EmptyString => [EmptyString]
  | String c rest =>
      if Ascii.eqb c sep then EmptyString :: split sep rest
      else match split sep rest with
           | h :: t => String c h :: t
           | [] => [String c EmptyString]
           end
  end.

(** [a || b] on [string | undefined]. *)
Definition or_else (a b : option string) : option string :=
  if truthy_opt a then a else b.

(** [arr.includes(x)]. *)
Definition includes (x : string) (l : list string) : bool :=
  bool_decide (x ∈ l).

(** [x || d] where [d] is a string literal. *)
Definition default_to (x : option string) (d : string) : string :=
  match x with
  | Some s => if truthy s then s else d
  | None => d
  end.

(** The character repeated [n] times ([c.repeat(n)]). *)
Fixpoint repeat (c : Ascii.ascii) (n : nat) : string :=
  match n with
  | O => EmptyString
  | S k => String c (repeat c k)
  end.

End Js.

(** ** Data model ([types/index.ts], the Mongoose schemas) *)

Record AuthPayload := {
  p_userId : string;
  p_username : string;
  p_email : string }.

(** [jwt.verify(token, secret)] either returns the decoded payload or
    throws [JsonWebTokenError] or one of its two subclasses,
    [TokenExpiredError] and [NotBeforeError]. *)
Inductive JwtFailure :=
  | Malformed
  | InvalidSignature
  | TokenExpired
  | NotBefore.

Inductive Verified :=
  | Decoded (p : AuthPayload)
  | Invalid (why : JwtFailure).

(** The environment of the process: [process.env.JWT_SECRET] and the
    [jsonwebtoken] library, which receives the secret as it is passed,
    defined or not. *)
Record Config := {
  JWT_SECRET : option string;
  jwt_verify : string -> option string -> Verified }.

Record IUser := {
  u_id : string;
  u_username : string;
  u_email : string }.

Record IRoom := {
  r_name : string;
  r_isPrivate : bool;
  r_owner : string;
  r_members : list string }.

Record CreateMessageDto := {
  dto_content : string;
  dto_room : string;
  dto_messageType : option string }.

Record IMessage := {
  m_id : nat;
  m_content : string;
  m_sender : string;
  m_room : string;
  m_messageType : string }.

(** The payload of the real-time [send_message] event. *)
Record SendData := {
  sd_roomId : string;
  sd_content : string;
  sd_messageType : option string }.

(** Event payloads and broker messages, one constructor per object
    literal built in the services. *)
Inductive Payload :=
  | PUser (userId username : option string)
      (* user_joined, user_left *)
  | PTyping (userId username : option string) (isTyping : bool)
  | PSocketMessage (roomId content messageType : string)
      (senderId senderName : option string)
      (* new_message built by the send_message handler *)
  | PMessage (m : IMessage)
      (* new_message built by MessageService.sendMessage *)
  | PError (message : string).

Inductive BrokerMsg :=
  | BSocketMessage (roomId content messageType : string)
      (sender : option string)
  | BRedisMessage (type room : string) (data : IMessage)
  | BMessageSent (m : IMessage)
  | BLogMessage (m : IMessage)
  | BStatus (userId : string) (isOnline : bool).

(** Calls to the external collaborators. *)
Inductive ExtCall :=
  | UserFindById (id : string)
  | RoomFindById (id : string)
  | RoomSave (id : string) (r : IRoom)
  | RoomPopulate (id : string) (path : string)
  | MessageSave (m : IMessage)
  | MessagePopulate (m : IMessage) (path : string)
  | RedisSetEx (key : string) (ttl : nat) (value : string)
  | RedisPublish (channel : string) (msg : BrokerMsg)
  | QueuePublish (queue : string) (msg : BrokerMsg).

(** What a handler does that an observer can see. *)
Inductive Effect :=
  | Call (c : ExtCall) (resolved : bool)
  | Emit (recipients : gset string) (event : string) (data : Payload)
  | Refuse (sid : string) (message : string)
  | ConsoleError (what : string).

(** ** The world: persistence, the socket service, the log *)

Record Db := {
  db_users : gmap string IUser;
  db_rooms : gmap string IRoom;
  db_messages : list IMessage }.

(** [AuthenticatedSocket]: the handshake it presented and the identity
    the middleware attached. *)
Record Socket := {
  sock_auth_token : option string;
  sock_authorization : option string;
  sock_userId : option string;
  sock_username : option string }.

Record SocketService := {
  io : bool;
  connectedUsers : gmap string string;
  io_sockets : gmap string Socket;
  io_rooms : gmap string (gset string) }.

Record World := {
  w_db : Db;
  w_svc : SocketService;
  w_log : list Effect }.

Definition set_db (w : World) (d : Db) : World :=
  {| w_db := d; w_svc := w_svc w; w_log := w_log w |}.

Definition set_svc (w : World) (s : SocketService) : World :=
  {| w_db := w_db w; w_svc := s; w_log := w_log w |}.

Definition add_log (w : World) (e : Effect) : World :=
  {| w_db := w_db w; w_svc := w_svc w; w_log := w_log w ++ [e] |}.

(** ** Handlers as computations

    A handler reads the oracle, transforms the world and either returns
    or throws. *)

Inductive Exn :=
  | Error (message : string)
      (* throw new Error(message) *)
  | JsonWebTokenError (why : JwtFailure)
      (* thrown by jwt.verify *)
  | Rejected (c : ExtCall)
      (* the rejection of an awaited collaborator call *)
  | TypeError (message : string)
      (* a property read on null *).

Inductive Res (A : Type) :=
  | Ok (a : A)
  | Throw (e : Exn).
Arguments Ok {A} a.
Arguments Throw {A} e.

Definition Oracle := ExtCall -> bool.

Definition M (A : Type) : Type := Oracle -> World -> Res A * World.

Definition ret {A} (a : A) : M A := fun _ w => (Ok a, w).

Definition bind {A B} (m : M A) (k : A -> M B) : M B :=
  fun ok w =>
    match m ok w with
    | (Ok a, w') => k a ok w'
    | (Throw e, w') => (Throw e, w')
    end.

Definition throw {A} (e : Exn) : M A := fun _ w => (Throw e, w).

(** [try { body } catch (e) { handler(e) }]. *)
Definition try_catch {A} (body : M A) (handler : Exn -> M A) : M A :=
  fun ok w =>
    match body ok w with
    | (Ok a, w') => (Ok a, w')
    | (Throw e, w') => handler e ok w'
    end.

Definition get : M World := fun _ w => (Ok w, w).
Definition put (w : World) : M unit := fun _ _ => (Ok tt, w).
Definition log (e : Effect) : M unit := fun _ w => (Ok tt, add_log w e).

(** An awaited call to a collaborator: logged, and a rejection is
    thrown at the [await]. *)
Definition call (c : ExtCall) : M unit :=
  fun ok w =>
    if ok c then (Ok tt, add_log w (Call c true))
    else (Throw (Rejected c), add_log w (Call c false)).

Declare Scope m_scope.
Delimit Scope m_scope with M.
Notation "x <- m ;; k" := (bind m (fun x => k))
  (at level 100, m at next level, right associativity) : m_scope.
Notation "m ;; k" := (bind m (fun _ => k))
  (at level 100, right associativity) : m_scope.
Local Open Scope m_scope.

(** ** Trimming ([String.prototype.trim], the [trim()] sanitizer)

    Both strip the white space of JavaScript, the class [\s]: U+0009 to
    U+000D, U+0020, U+00A0, U+1680, U+2000 to U+200A, U+2028, U+2029,
    U+202F, U+205F, U+3000 and U+FEFF. *)

(** The white space of the ASCII range. *)
Definition isSpace (c : Ascii.ascii) : bool :=
  let n := Ascii.nat_of_ascii c in
  (((9 <=? n) && (n <=? 13)) || (n =? 32))%nat.

(** U+00A0, encoded C2 A0. *)
Definition isSpace2 (c1 c2 : Ascii.ascii) : bool :=
  let n1 := Ascii.nat_of_ascii c1 in
  let n2 := Ascii.nat_of_ascii c2 in
  ((n1 =? 194) && (n2 =? 160))%nat.

(** U+1680 (E1 9A 80); U+2000 to U+200A, U+2028, U+2029 and U+202F
    (E2 80 and 80 to 8A, A8, A9, AF); U+205F (E2 81 9F); U+3000
    (E3 80 80); U+FEFF (EF BB BF). *)
Definition isSpace3 (c1 c2 c3 : Ascii.ascii) : bool :=
  let n1 := Ascii.nat_of_ascii c1 in
  let n2 := Ascii.nat_of_ascii c2 in
  let n3 := Ascii.nat_of_ascii c3 in
  (((n1 =? 225) && (n2 =? 154) && (n3 =? 128))
   || ((n1 =? 226) && (n2 =? 128)
       && (((128 <=? n3) && (n3 <=? 138)) || (n3 =? 168) || (n3 =? 169)
           || (n3 =? 175)))
   || ((n1 =? 226) && (n2 =? 129) && (n3 =? 159))
   || ((n1 =? 227) && (n2 =? 128) && (n3 =? 128))
   || ((n1 =? 239) && (n2 =? 187) && (n3 =? 191)))%nat.

(** The string without the white space it starts with. *)
Fixpoint ltrim (s : string) : string :=
  match s with
  | String c1 r1 =>
      if isSpace c1 then ltrim r1
      else
        match r1 with
        | String c2 r2 =>
            if isSpace2 c1 c2 then ltrim r2
            else
              match r2 with
              | String c3 r3 => if isSpace3 c1 c2 c3 then ltrim r3 else s
              | EmptyString => s
              end
        | EmptyString => s
        end
  | EmptyString => EmptyString
  end.

(** Nothing but white space. *)
Definition blank (s : string) : bool :=
  match ltrim s with
  | EmptyString => true
  | String _ _ => false
  end.

(** The string without the white space it ends with: cut where the
    rest is blank. *)
Fixpoint rtrim (s : string) : string :=
  match s with
  | String c rest => if blank s then EmptyString else String c (rtrim rest)
  | EmptyString => EmptyString
  end.

Definition trim (s : string) : string := rtrim (ltrim s).

(** ** Persistence collaborator ([User], [Room], [Message] models) *)

Definition User_findById (id : string) : M (option IUser) :=
  call (UserFindById id) ;;
  w <- get ;;
  ret (db_users (w_db w) !! id).

Definition Room_findById (id : string) : M (option IRoom) :=
  call (RoomFindById id) ;;
  w <- get ;;
  ret (db_rooms (w_db w) !! id).

(** [roomSchema.pre('save')]: the owner is always a member. *)
Definition room_pre_save (r : IRoom) : IRoom :=
  if Js.includes (r_owner r) (r_members r) then r
  else {| r_name := r_name r; r_isPrivate := r_isPrivate r;
          r_owner := r_owner r;
          r_members := r_members r ++ [r_owner r] |}.

(** [room.save()] of the document found under [id]. *)
Definition Room_save (id : string) (r : IRoom) : M IRoom :=
  let r' := room_pre_save r in
  call (RoomSave id r') ;;
  w <- get ;;
  put (set_db w {| db_users := db_users (w_db w);
                   db_rooms := <[id := r']> (db_rooms (w_db w));
                   db_messages := db_messages (w_db w) |}) ;;
  ret r'.

(** What [populate] puts in the place of a user id: the selected fields
    of the user document, or nothing when there is no such document. *)
Record UserRef := {
  ur_id : string;
  ur_username : string }.

Definition user_ref (u : IUser) : UserRef :=
  {| ur_id := u_id u; ur_username := u_username u |}.

(** A room after [populate('owner')] and [populate('members')]: the
    owner is null when it has no user document, and the members without
    one are left out of the list. *)
Record PopulatedRoom := {
  pr_name : string;
  pr_isPrivate : bool;
  pr_owner : option UserRef;
  pr_members : list UserRef }.

Definition populate_room (db : Db) (r : IRoom) : PopulatedRoom :=
  {| pr_name := r_name r;
     pr_isPrivate := r_isPrivate r;
     pr_owner := user_ref <$> db_users db !! r_owner r;
     pr_members :=
       omap (fun id => user_ref <$> db_users db !! id) (r_members r) |}.

(** [members.push(userId)]. *)
Definition room_push_member (r : IRoom) (userId : string) : IRoom :=
  {| r_name := r_name r; r_isPrivate := r_isPrivate r;
     r_owner := r_owner r; r_members := r_members r ++ [userId] |}.

(** [new Message({...messageData, sender})]: the store assigns the id,
    the schema trims the content and supplies the default message
    type. *)
Definition new_message (w : World) (messageData : CreateMessageDto)
    (senderId : string) : IMessage :=
  {| m_id := length (db_messages (w_db w));
     m_content := trim (dto_content messageData);
     m_sender := senderId;
     m_room := dto_room messageData;
     m_messageType :=
       match dto_messageType messageData with
       | Some t => t
       | None => "text"
       end |}.

Definition Message_new (messageData : CreateMessageDto) (senderId : string)
    : M IMessage :=
  w <- get ;;
  ret (new_message w messageData senderId).

Definition Message_save (m : IMessage) : M unit :=
  call (MessageSave m) ;;
  w <- get ;;
  put (set_db w {| db_users := db_users (w_db w);
                   db_rooms := db_rooms (w_db w);
                   db_messages := db_messages (w_db w) ++ [m] |}).

(** ** Authentication gate, HTTP side ([middleware/auth.ts]) *)

Record Response := {
  status : nat;
  res_message : string }.

(** An Express middleware either answers or calls [next()]. *)
Inductive Gate (A : Type) :=
  | Next (a : A)
  | Respond (r : Response).
Arguments Next {A} a.
Arguments Respond {A} r.

(** [authHeader && authHeader.split(' ')[1]]. *)
Definition bearer_token (authHeader : option string) : option string :=
  match authHeader with
  | Some h => if Js.truthy h then Js.split " "%char h !! 1 else Some h
  | None => None
  end.

Definition authenticateToken (cfg : Config) (authHeader : option string)
    : M (Gate AuthPayload) :=
  try_catch
    (match bearer_token authHeader with
     | Some token =>
         if Js.truthy token then
           if Js.truthy_opt (JWT_SECRET cfg) then
             match jwt_verify cfg token (JWT_SECRET cfg) with
             | Invalid why => throw (JsonWebTokenError why)
             | Decoded decoded =>
                 user <- User_findById (p_userId decoded) ;;
                 match user with
                 | None => ret (Respond {| status := 401;
                                           res_message := "User not found" |})
                 | Some user =>
                     ret (Next {| p_userId := u_id user;
                                  p_username := u_username user;
                                  p_email := u_email user |})
                 end
             end
           else ret (Respond {| status := 500;
                                res_message := "JWT secret not configured" |})
         else ret (Respond {| status := 401;
                              res_message := "Access token required" |})
     | None => ret (Respond {| status := 401;
                               res_message := "Access token required" |})
     end)
    (fun error =>
       match error with
       | JsonWebTokenError _ =>
           ret (Respond {| status := 401; res_message := "Invalid token" |})
       | _ =>
           ret (Respond {| status := 500;
                           res_message := "Authentication error" |})
       end).

(** ** Request validation ([validators/index.ts], [middleware/validation.ts]) *)

Record FieldError := {
  fe_field : string;
  fe_message : string }.

(** A continuation byte of an encoded character, [10xxxxxx]. *)
Definition isContinuation (c : Ascii.ascii) : bool :=
  let n := Ascii.nat_of_ascii c in
  ((128 <=? n) && (n <=? 191))%nat.

(** The string starts with one of the variation selectors U+FE0E and
    U+FE0F, encoded EF B8 8E and EF B8 8F. *)
Definition isVariationSelector (s : string) : bool :=
  match s with
  | String c1 (String c2 (String c3 _)) =>
      let n1 := Ascii.nat_of_ascii c1 in
      let n2 := Ascii.nat_of_ascii c2 in
      let n3 := Ascii.nat_of_ascii c3 in
      ((n1 =? 239) && (n2 =? 184) && ((n3 =? 142) || (n3 =? 143)))%nat
  | _ => false
  end.

(** What [isLength] of validator.js counts: [str.length] less the
    surrogate pairs and less the variation selectors, which is the
    number of characters that are not variation selectors. Every
    character has one first byte. *)
Fixpoint charCount (s : string) : nat :=
  match s with
  | String c rest =>
      if isContinuation c || isVariationSelector s then charCount rest
      else S (charCount rest)
  | EmptyString => 0
  end.

(** [isLength({min, max})]. *)
Definition isLength (min max : nat) (s : string) : bool :=
  ((min <=? charCount s) && (charCount s <=? max))%nat.

Definition isHexDigit (c : Ascii.ascii) : bool :=
  let n := Ascii.nat_of_ascii c in
  (((48 <=? n) && (n <=? 57)) || ((65 <=? n) && (n <=? 70))
   || ((97 <=? n) && (n <=? 102)))%nat.

(** [isMongoId()]: 24 hexadecimal digits. *)
Definition isMongoId (s : string) : bool :=
  (String.length s =? 24)%nat && forallb isHexDigit (String.list_ascii_of_string s).

Definition isIn (values : list string) (s : string) : bool :=
  bool_decide (s ∈ values).

Definition check (passes : bool) (field message : string)
    : list FieldError :=
  if passes then [] else [{| fe_field := field; fe_message := message |}].

(** The answer of [handleValidationErrors] to a request with errors. *)
Definition validation_failed : Response :=
  {| status := 400; res_message := "Validation failed" |}.

(** [sendMessageValidation]: the errors found, and the body after the
    sanitizers. [optional()] skips the chain of an absent field. *)
Definition sendMessageValidation (body : CreateMessageDto)
    : list FieldError * CreateMessageDto :=
  (check (isLength 1 2000 (dto_content body)) "content"
     "Message content must be between 1 and 2000 characters"
   ++ check (isMongoId (dto_room body)) "room" "Invalid room ID format"
   ++ match dto_messageType body with
      | None => []
      | Some t => check (isIn ["text"; "image"; "file"] t) "messageType"
                    "Message type must be text, image, or file"
      end,
   {| dto_content := trim (dto_content body);
      dto_room := dto_room body;
      dto_messageType := dto_messageType body |}).

Definition roomIdValidation (roomId : string) : list FieldError :=
  check (isMongoId roomId) "roomId" "Invalid room ID format".

Definition handleValidationErrors (errors : list FieldError) : Gate unit :=
  match errors with
  | [] => Next tt
  | _ :: _ => Respond validation_failed
  end.

(** ** Socket service ([socketService.ts]) *)

Definition upd_svc (f : SocketService -> SocketService) : M unit :=
  fun _ w => (Ok tt, set_svc w (f (w_svc w))).

(** The sockets currently in a room of the socket.io adapter. *)
Definition room_sockets (svc : SocketService) (room : string)
    : gset string :=
  default ∅ (io_rooms svc !! room).

(** [socket.join(room)]. *)
Definition socket_join (sid room : string) (svc : SocketService)
    : SocketService :=
  {| io := io svc; connectedUsers := connectedUsers svc;
     io_sockets := io_sockets svc;
     io_rooms := <[room := {[sid]} ∪ room_sockets svc room]> (io_rooms svc) |}.

(** [socket.leave(room)]. *)
Definition socket_leave (sid room : string) (svc : SocketService)
    : SocketService :=
  {| io := io svc; connectedUsers := connectedUsers svc;
     io_sockets := io_sockets svc;
     io_rooms := <[room := room_sockets svc room ∖ {[sid]}]> (io_rooms svc) |}.

(** What socket.io does when a connection closes: the socket leaves
    every room and is forgotten. *)
Definition socket_close (sid : string) (svc : SocketService)
    : SocketService :=
  {| io := io svc; connectedUsers := connectedUsers svc;
     io_sockets := delete sid (io_sockets svc);
     io_rooms := (fun g : gset string => g ∖ {[sid]}) <$> io_rooms svc |}.

(** What socket.io does when the middleware accepts a handshake: the
    socket exists and sits in the room named by its own id. *)
Definition socket_open (sid : string) (sock : Socket) (svc : SocketService)
    : SocketService :=
  socket_join sid sid
    {| io := io svc; connectedUsers := connectedUsers svc;
       io_sockets := <[sid := sock]> (io_sockets svc);
       io_rooms := io_rooms svc |}.

(** [socket.to(room).emit(event, data)]. *)
Definition socket_to_emit (sid room event : string) (data : Payload)
    : M unit :=
  w <- get ;;
  log (Emit (room_sockets (w_svc w) room ∖ {[sid]}) event data).

(** [socket.emit(event, data)]. *)
Definition socket_emit (sid event : string) (data : Payload) : M unit :=
  log (Emit {[sid]} event data).

(** The session registry: [connectedUsers.set], [connectedUsers.delete],
    [connectedUsers.get], [connectedUsers.has] and the key listing. *)
Module Registry.

Definition register (userId sid : string) (svc : SocketService)
    : SocketService :=
  {| io := io svc;
     connectedUsers := <[userId := sid]> (connectedUsers svc);
     io_sockets := io_sockets svc; io_rooms := io_rooms svc |}.

Definition unregister (userId : string) (svc : SocketService)
    : SocketService :=
  {| io := io svc; connectedUsers := delete userId (connectedUsers svc);
     io_sockets := io_sockets svc; io_rooms := io_rooms svc |}.

Definition lookup (svc : SocketService) (userId : string)
    : option string :=
  connectedUsers svc !! userId.

Definition isUserOnline (svc : SocketService) (userId : string) : bool :=
  bool_decide (is_Some (connectedUsers svc !! userId)).

Definition getConnectedUsers (svc : SocketService) : list string :=
  elements (dom (connectedUsers svc)).

End Registry.

(** [token || authorization?.split(' ')[1]] of the handshake. *)
Definition handshake_token (auth_token authorization : option string)
    : option string :=
  Js.or_else auth_token
    (match authorization with
     | Some h => Js.split " "%char h !! 1
     | None => None
     end).

(** The [io.use] middleware: the error handed to [next], or the socket
    with the decoded identity attached. *)
Definition setupMiddleware (cfg : Config)
    (auth_token authorization : option string) : string + Socket :=
  match handshake_token auth_token authorization with
  | Some token =>
      if Js.truthy token then
        match jwt_verify cfg token (JWT_SECRET cfg) with
        | Decoded decoded =>
            inr {| sock_auth_token := auth_token;
                   sock_authorization := authorization;
                   sock_userId := Some (p_userId decoded);
                   sock_username := Some (p_username decoded) |}
        | Invalid _ => inl "Invalid authentication token"
        end
      else inl "Authentication token required"
  | None => inl "Authentication token required"
  end.

Definition updateUserOnlineStatus (userId : string) (isOnline : bool)
    : M unit :=
  try_catch
    (call (RedisSetEx ("user:" +:+ userId +:+ ":online") 300
             (if isOnline then "1" else "0")) ;;
     call (RedisPublish "user_status_change" (BStatus userId isOnline)))
    (fun _ => log (ConsoleError "Error updating user online status:")).

(** [joinUserRooms]: a console line; no room is joined on behalf of the
    user. *)
Definition joinUserRooms (sock : Socket) : M unit := ret tt.

(** The body of [io.on('connection', ...)] up to the registration of the
    per-socket handlers. *)
Definition on_connection (sid : string) (sock : Socket) : M unit :=
  match sock_userId sock with
  | Some userId =>
      if Js.truthy userId then
        upd_svc (Registry.register userId sid) ;;
        updateUserOnlineStatus userId true
      else ret tt
  | None => ret tt
  end ;;
  joinUserRooms sock.

Definition on_join_room (sid : string) (sock : Socket) (roomId : string)
    : M unit :=
  upd_svc (socket_join sid roomId) ;;
  socket_to_emit sid roomId "user_joined"
    (PUser (sock_userId sock) (sock_username sock)).

Definition on_leave_room (sid : string) (sock : Socket) (roomId : string)
    : M unit :=
  upd_svc (socket_leave sid roomId) ;;
  socket_to_emit sid roomId "user_left"
    (PUser (sock_userId sock) (sock_username sock)).

Definition on_send_message (sid : string) (sock : Socket) (data : SendData)
    : M unit :=
  try_catch
    (call (QueuePublish "message_processing"
             (BSocketMessage (sd_roomId data) (sd_content data)
                (Js.default_to (sd_messageType data) "text")
                (sock_userId sock))) ;;
     socket_to_emit sid (sd_roomId data) "new_message"
       (PSocketMessage (sd_roomId data) (sd_content data)
          (Js.default_to (sd_messageType data) "text")
          (sock_userId sock) (sock_username sock)))
    (fun _ =>
       log (ConsoleError "Error handling send_message:") ;;
       socket_emit sid "error" (PError "Failed to send message")).

Definition on_typing (sid : string) (sock : Socket) (roomId : string)
    (isTyping : bool) : M unit :=
  socket_to_emit sid roomId "user_typing"
    (PTyping (sock_userId sock) (sock_username sock) isTyping).

Definition on_disconnect (sock : Socket) : M unit :=
  match sock_userId sock with
  | Some userId =>
      if Js.truthy userId then
        upd_svc (Registry.unregister userId) ;;
        updateUserOnlineStatus userId false
      else ret tt
  | None => ret tt
  end.

(** [emitToRoom]: [io.to(roomId).emit], when the server exists. *)
Definition emitToRoom (roomId event : string) (data : Payload) : M unit :=
  w <- get ;;
  if io (w_svc w) then log (Emit (room_sockets (w_svc w) roomId) event data)
  else ret tt.

(** [emitToUser]: [io.to(socketId).emit] for the registered socket. *)
Definition emitToUser (userId event : string) (data : Payload) : M unit :=
  w <- get ;;
  match Registry.lookup (w_svc w) userId with
  | Some socketId =>
      if Js.truthy socketId && io (w_svc w)
      then log (Emit (room_sockets (w_svc w) socketId) event data)
      else ret tt
  | None => ret tt
  end.

(** ** Room service ([roomService.ts]) *)

(** [joinRoom] returns the saved document after the two populates. *)
Definition joinRoom (roomId userId : string) : M PopulatedRoom :=
  room <- Room_findById roomId ;;
  match room with
  | None => throw (Error "Room not found")
  | Some room =>
      if Js.includes userId (r_members room)
      then throw (Error "User is already a member of this room")
      else
        room <- Room_save roomId (room_push_member room userId) ;;
        call (RoomPopulate roomId "owner") ;;
        call (RoomPopulate roomId "members") ;;
        w <- get ;;
        ret (populate_room (w_db w) room)
  end.

(** ** Message service ([messageService.ts]) *)

(** [message.sender._id] and [message.room._id] of a populated message:
    the populate left null where the store has no document of that id,
    and the read of [_id] on null throws. *)
Definition null_id : Exn :=
  TypeError "Cannot read properties of null (reading '_id')".

Definition sender_id (message : IMessage) : M string :=
  w <- get ;;
  match db_users (w_db w) !! m_sender message with
  | Some _ => ret (m_sender message)
  | None => throw null_id
  end.

Definition room_id (message : IMessage) : M string :=
  w <- get ;;
  match db_rooms (w_db w) !! m_room message with
  | Some _ => ret (m_room message)
  | None => throw null_id
  end.

Definition publishMessageToRedis (message : IMessage) : M unit :=
  try_catch
    (room <- room_id message ;;
     call (RedisPublish ("room:" +:+ room)
             (BRedisMessage "new_message" room message)))
    (fun _ => log (ConsoleError "Error publishing message to Redis:")).

Definition publishMessageToRabbitMQ (message : IMessage) : M unit :=
  try_catch
    (sender_id message ;;
     room_id message ;;
     call (QueuePublish "message_processing" (BMessageSent message)) ;;
     call (QueuePublish "message_logging" (BLogMessage message)))
    (fun _ => log (ConsoleError "Error publishing message to RabbitMQ:")).

Definition sendMessage (messageData : CreateMessageDto) (senderId : string)
    : M IMessage :=
  room <- Room_findById (dto_room messageData) ;;
  match room with
  | None => throw (Error "Room not found")
  | Some room =>
      if negb (Js.includes senderId (r_members room))
      then throw (Error "User is not a member of this room")
      else
        message <- Message_new messageData senderId ;;
        Message_save message ;;
        call (MessagePopulate message "sender") ;;
        call (MessagePopulate message "room") ;;
        emitToRoom (dto_room messageData) "new_message" (PMessage message) ;;
        publishMessageToRedis message ;;
        publishMessageToRabbitMQ message ;;
        ret message
  end.

(** ** Controllers and routes *)

(** How a request ends: an answer, or an error handed to [next] for
    the error handler. *)
Inductive Outcome :=
  | Replied (r : Response)
  | NextError (e : Exn).

Definition MessageController_sendMessage (user : AuthPayload)
    (body : CreateMessageDto) : M Outcome :=
  try_catch
    (sendMessage body (p_userId user) ;;
     ret (Replied {| status := 201;
                     res_message := "Message sent successfully" |}))
    (fun error => ret (NextError error)).

Definition RoomController_joinRoom (user : AuthPayload) (roomId : string)
    : M Outcome :=
  try_catch
    (joinRoom roomId (p_userId user) ;;
     ret (Replied {| status := 200;
                     res_message := "Joined room successfully" |}))
    (fun error => ret (NextError error)).

(** [router.post('/', authenticateToken, sendMessageValidation,
    handleValidationErrors, messageController.sendMessage)]. *)
Definition post_messages (cfg : Config) (authHeader : option string)
    (body : CreateMessageDto) : M Outcome :=
  g <- authenticateToken cfg authHeader ;;
  match g with
  | Respond r => ret (Replied r)
  | Next user =>
      match handleValidationErrors (fst (sendMessageValidation body)) with
      | Respond r => ret (Replied r)
      | Next _ =>
          MessageController_sendMessage user
            (snd (sendMessageValidation body))
      end
  end.

(** [router.post('/:roomId/join', authenticateToken, roomIdValidation,
    handleValidationErrors, roomController.joinRoom)]. *)
Definition post_rooms_join (cfg : Config) (authHeader : option string)
    (roomId : string) : M Outcome :=
  g <- authenticateToken cfg authHeader ;;
  match g with
  | Respond r => ret (Replied r)
  | Next user =>
      match handleValidationErrors (roomIdValidation roomId) with
      | Respond r => ret (Replied r)
      | Next _ => RoomController_joinRoom user roomId
      end
  end.

(** ** The server as a transition system *)

Inductive ClientEvent :=
  | join_room (roomId : string)
  | leave_room (roomId : string)
  | send_message (data : SendData)
  | typing_start (roomId : string)
  | typing_stop (roomId : string)
  | disconnect.

Inductive Input :=
  | Initialize
  | Connect (sid : string) (auth_token authorization : option string)
  | FromClient (sid : string) (ev : ClientEvent)
  | PostMessages (authHeader : option string) (body : CreateMessageDto)
  | PostRoomsJoin (authHeader : option string) (roomId : string).

(** [SocketService.initialize]: the socket.io server is created. *)
Definition initialize (svc : SocketService) : SocketService :=
  {| io := true; connectedUsers := connectedUsers svc;
     io_sockets := ∅; io_rooms := ∅ |}.

(** A handshake: the middleware, then the connection handler. Socket
    ids are unique, a handshake never reuses the id of a live socket. *)
Definition connect (cfg : Config) (sid : string)
    (auth_token authorization : option string) : M unit :=
  w <- get ;;
  if io (w_svc w) then
    match io_sockets (w_svc w) !! sid with
    | Some _ => ret tt
    | None =>
        match setupMiddleware cfg auth_token authorization with
        | inl message => log (Refuse sid message)
        | inr sock =>
            upd_svc (socket_open sid sock) ;;
            on_connection sid sock
        end
    end
  else ret tt.

(** An event of a connected client, dispatched to its handler; nothing
    is dispatched for a socket that does not exist. *)
Definition dispatch (sid : string) (ev : ClientEvent) : M unit :=
  w <- get ;;
  match io_sockets (w_svc w) !! sid with
  | None => ret tt
  | Some sock =>
      match ev with
      | join_room roomId => on_join_room sid sock roomId
      | leave_room roomId => on_leave_room sid sock roomId
      | send_message data => on_send_message sid sock data
      | typing_start roomId => on_typing sid sock roomId true
      | typing_stop roomId => on_typing sid sock roomId false
      | disconnect => upd_svc (socket_close sid) ;; on_disconnect sock
      end
  end.

Definition handle (cfg : Config) (i : Input) : M unit :=
  match i with
  | Initialize =>
      w <- get ;;
      if io (w_svc w) then ret tt else upd_svc initialize
  | Connect sid auth_token authorization =>
      connect cfg sid auth_token authorization
  | FromClient sid ev => dispatch sid ev
  | PostMessages authHeader body =>
      post_messages cfg authHeader body ;; ret tt
  | PostRoomsJoin authHeader roomId =>
      post_rooms_join cfg authHeader roomId ;; ret tt
  end.

Definition step (cfg : Config) (ok : Oracle) (w : World) (i : Input)
    : World :=
  snd (handle cfg i ok w).

(** The process at start-up: some stored data, no socket.io server. *)
Definition boot (db : Db) : World :=
  {| w_db := db;
     w_svc := {| io := false; connectedUsers := ∅;
                 io_sockets := ∅; io_rooms := ∅ |};
     w_log := [] |}.

Inductive Reachable (cfg : Config) : World -> Prop :=
  | reach_boot db : Reachable cfg (boot db)
  | reach_step w ok i :
      Reachable cfg w -> Reachable cfg (step cfg ok w i).

(** Running a list of inputs, each with its own oracle. *)
Fixpoint run (cfg : Config) (w : World) (script : list (Oracle * Input))
    : World :=
  match script with
  | [] => w
  | (ok, i) :: rest => run cfg (step cfg ok w i) rest
  end.

(** What a computation appends to the log. *)
Definition trace {A} (m : M A) (ok : Oracle) (w : World) : list Effect :=
  drop (length (w_log w)) (w_log (snd (m ok w))).


(** The calls that go to the document store. *)
Definition is_db_call (c : ExtCall) : bool :=
  match c with
  | UserFindById _ | RoomFindById _ | RoomSave _ _ | RoomPopulate _ _
  | MessageSave _ | MessagePopulate _ _ => true
  | RedisSetEx _ _ _ | RedisPublish _ _ | QueuePublish _ _ => false
  end.

(** Emissions to sockets and publishes to Redis or RabbitMQ: the fan-out
    of an event. *)
Definition is_fanout (e : Effect) : bool :=
  match e with
  | Emit _ _ _ => true
  | Call (RedisPublish _ _) _ | Call (QueuePublish _ _) _ => true
  | _ => false
  end.

(** Broadcast-after-persist, as a check on a log: no fan-out effect
    stands before the first message save that resolved. *)
Fixpoint persist_then_fanout (es : list Effect) : bool :=
  match es with
  | [] => true
  | Call (MessageSave _) true :: _ => true
  | e :: rest => negb (is_fanout e) && persist_then_fanout rest
  end.

(** A message save that resolved. *)
Definition is_saved (e : Effect) : bool :=
  match e with
  | Call (MessageSave _) true => true
  | _ => false
  end.

(** The gate validated the identity of a socket: the token of its
    handshake verifies against the configured secret and the socket
    carries the identity decoded from it. *)
Definition authenticated (cfg : Config) (sock : Socket) : Prop :=
  ∃ token decoded,
    handshake_token (sock_auth_token sock) (sock_authorization sock) =
      Some token
    ∧ Js.truthy token = true
    ∧ jwt_verify cfg token (JWT_SECRET cfg) = Decoded decoded
    ∧ sock_userId sock = Some (p_userId decoded)
    ∧ sock_username sock = Some (p_username decoded).

(** The invariant of the socket service: the sockets of every room exist, and every
    socket that exists went through the gate. *)
Definition gate_invariant (cfg : Config) (svc : SocketService) : Prop :=
  (∀ sid room, sid ∈ room_sockets svc room → is_Some (io_sockets svc !! sid))
  ∧ (∀ sid sock, io_sockets svc !! sid = Some sock → authenticated cfg sock).

(** A connection is subscribed to the broadcast group of a room. *)
Definition subscribed (w : World) (sid room : string) : Prop :=
  sid ∈ room_sockets (w_svc w) room.

(** ** A small deployment used in the examples *)

Definition alice : AuthPayload :=
  {| p_userId := "u1"; p_username := "alice";
     p_email := "alice@example.com" |}.

Definition bob : AuthPayload :=
  {| p_userId := "u2"; p_username := "bob"; p_email := "bob@example.com" |}.

(** A verifier that knows three tokens: two valid ones and an expired
    one; anything else is malformed, and nothing verifies without the
    secret. *)
Definition demo_verify (token : string) (secret : option string)
    : Verified :=
  match secret with
  | None => Invalid InvalidSignature
  | Some _ =>
      if String.eqb token "token-alice" then Decoded alice
      else if String.eqb token "token-bob" then Decoded bob
      else if String.eqb token "token-old" then Invalid TokenExpired
      else Invalid Malformed
  end.

Definition demo_cfg : Config :=
  {| JWT_SECRET := Some "secret"; jwt_verify := demo_verify |}.

Definition unconfigured_cfg : Config :=
  {| JWT_SECRET := None; jwt_verify := demo_verify |}.

Definition general : string := "aaaaaaaaaaaaaaaaaaaaaaaa".
Definition staff : string := "bbbbbbbbbbbbbbbbbbbbbbbb".

Definition demo_db : Db :=
  {| db_users :=
       {[ "u1" := {| u_id := "u1"; u_username := "alice";
                     u_email := "alice@example.com" |} ]};
     db_rooms :=
       {[ general := {| r_name := "general"; r_isPrivate := false;
                        r_owner := "u1"; r_members := ["u1"] |};
          staff := {| r_name := "staff"; r_isPrivate := true;
                      r_owner := "u1"; r_members := ["u1"] |} ]};
     db_messages := [] |}.

(** The same deployment once bob has registered. *)
Definition team_db : Db :=
  {| db_users :=
       <[ "u2" := {| u_id := "u2"; u_username := "bob";
                     u_email := "bob@example.com" |} ]> (db_users demo_db);
     db_rooms := db_rooms demo_db;
     db_messages := [] |}.

Definition all_ok : Oracle := fun _ => true.

(** The socket alice's handshake produces. *)
Definition alice_socket : Socket :=
  {| sock_auth_token := Some "token-alice"; sock_authorization := None;
     sock_userId := Some "u1"; sock_username := Some "alice" |}.

(** Alice connects twice; the second socket disconnects first, which
    removes her registry entry while the first socket is still open. *)
Definition displaced_world : World :=
  run demo_cfg (boot demo_db)
    [(all_ok, Initialize);
     (all_ok, Connect "s1" (Some "token-alice") None);
     (all_ok, Connect "s2" (Some "token-alice") None);
     (all_ok, FromClient "s2" disconnect)].

Definition bob_socket : Socket :=
  {| sock_auth_token := Some "token-bob"; sock_authorization := None;
     sock_userId := Some "u2"; sock_username := Some "bob" |}.

(** Alice and bob are connected and both have joined the room general;
    alice is its only stored member and bob has no user record. *)
Definition chat_world : World :=
  run demo_cfg (boot demo_db)
    [(all_ok, Initialize);
     (all_ok, Connect "s1" (Some "token-alice") None);
     (all_ok, Connect "s2" (Some "token-bob") None);
     (all_ok, FromClient "s1" (join_room general));
     (all_ok, FromClient "s2" (join_room general))].

Definition hi : CreateMessageDto :=
  {| dto_content := "hi"; dto_room := general; dto_messageType := None |}.

Definition hi_data : SendData :=
  {| sd_roomId := general; sd_content := "hi"; sd_messageType := None |}.

(** 2001 characters. *)
Definition too_long : string := Js.repeat "a" 2001.

(** U+00A0, the no-break space. *)
Definition nbsp : string :=
  String (Ascii.ascii_of_nat 194) (String (Ascii.ascii_of_nat 160) "").

(** 1001 characters of two bytes each. *)
Definition accented : string := Nat.iter 1001 (String.append "é") "".

(** The store answers, Redis and RabbitMQ are down. *)
Definition brokers_down : Oracle := is_db_call.

Definition too_long_body : CreateMessageDto :=
  {| dto_content := too_long; dto_room := general;
     dto_messageType := None |}.

Definition too_long_data : SendData :=
  {| sd_roomId := general; sd_content := too_long;
     sd_messageType := Some "video" |}.

(** From [chat_world], bob also joins the private room staff. *)
Definition eavesdrop_world : World :=
  step demo_cfg all_ok chat_world (FromClient "s2" (join_room staff)).

(** An effect that is not a call to the document store. *)
Definition not_store_call (e : Effect) : bool :=
  match e with
  | Call c _ => negb (is_db_call c)
  | _ => true
  end.

(** The store rejects every message save and accepts the rest. *)
Definition save_rejected : Oracle :=
  fun c => match c with MessageSave _ => false | _ => true end.

(** RabbitMQ is down, the rest answers. *)
Definition queue_down : Oracle :=
  fun c => match c with QueuePublish _ _ => false | _ => true end.

(** ** Room service, the other operations ([roomService.ts]) *)

(** [CreateRoomDto]: the description is passed on to the store and read
    by no service. *)
Record CreateRoomDto := {
  crd_name : string;
  crd_description : option string;
  crd_isPrivate : option bool }.

(** [createRoom]: [newId] is the id the driver generates for the new
    document; the schema trims the name and defaults the privacy flag;
    the document is returned after the two populates. *)
Definition createRoom (newId : string) (roomData : CreateRoomDto)
    (ownerId : string) : M PopulatedRoom :=
  room <- Room_save newId
            {| r_name := trim (crd_name roomData);
               r_isPrivate := default false (crd_isPrivate roomData);
               r_owner := ownerId;
               r_members := [ownerId] |} ;;
  call (RoomPopulate newId "owner") ;;
  call (RoomPopulate newId "members") ;;
  w <- get ;;
  ret (populate_room (w_db w) room).

(** [members.filter(memberId => memberId.toString() !== userId)]. *)
Definition room_remove_member (r : IRoom) (userId : string) : IRoom :=
  {| r_name := r_name r; r_isPrivate := r_isPrivate r;
     r_owner := r_owner r;
     r_members := filter (fun memberId => memberId ≠ userId) (r_members r) |}.

Definition leaveRoom (roomId userId : string) : M string :=
  room <- Room_findById roomId ;;
  match room with
  | None => throw (Error "Room not found")
  | Some room =>
      if String.eqb (r_owner room) userId
      then throw (Error "Room owner cannot leave the room")
      else if negb (Js.includes userId (r_members room))
      then throw (Error "User is not a member of this room")
      else
        Room_save roomId (room_remove_member room userId) ;;
        ret "Left room successfully"
  end.

Definition RoomController_leaveRoom (user : AuthPayload) (roomId : string)
    : M Outcome :=
  try_catch
    (message <- leaveRoom roomId (p_userId user) ;;
     ret (Replied {| status := 200; res_message := message |}))
    (fun error => ret (NextError error)).

(** [router.post('/:roomId/leave', authenticateToken, roomIdValidation,
    handleValidationErrors, roomController.leaveRoom)]. *)
Definition post_rooms_leave (cfg : Config) (authHeader : option string)
    (roomId : string) : M Outcome :=
  g <- authenticateToken cfg authHeader ;;
  match g with
  | Respond r => ret (Replied r)
  | Next user =>
      match handleValidationErrors (roomIdValidation roomId) with
      | Respond r => ret (Replied r)
      | Next _ => RoomController_leaveRoom user roomId
      end
  end.

(** ** Store queries that [ExtCall] does not list

    The paginated find and the count of [getMessages], the message
    lookup of [updateMessage] and the delete of [deleteRoom]. A separate
    oracle answers them; they are not written to the log of the world. *)

Inductive Query :=
  | MessageFindPage (room : string) (skip limit : nat)
  | MessageCountDocuments (room : string)
  | MessageFindById (id : nat)
  | RoomFindByIdAndDelete (id : string).

(** What a service that issues such queries can throw. *)
Inductive Thrown :=
  | Raised (e : Exn)
  | QueryRejected (q : Query).

Inductive QRes (A : Type) :=
  | Returns (a : A)
  | Throws (t : Thrown).
Arguments Returns {A} a.
Arguments Throws {A} t.

Definition Q (A : Type) : Type :=
  (Query -> bool) -> Oracle -> World -> QRes A * World.

Definition qret {A} (a : A) : Q A := fun _ _ w => (Returns a, w).

Definition qbind {A B} (m : Q A) (k : A -> Q B) : Q B :=
  fun answers ok w =>
    match m answers ok w with
    | (Returns a, w') => k a answers ok w'
    | (Throws t, w') => (Throws t, w')
    end.

Definition qthrow {A} (e : Exn) : Q A := fun _ _ w => (Throws (Raised e), w).

(** A computation of [M] inside [Q]. *)
Definition lift {A} (m : M A) : Q A :=
  fun _ ok w =>
    match m ok w with
    | (Ok a, w') => (Returns a, w')
    | (Throw e, w') => (Throws (Raised e), w')
    end.

(** An awaited query: a rejection is thrown at the [await]. *)
Definition ask (q : Query) : Q unit :=
  fun answers _ w =>
    if answers q then (Returns tt, w) else (Throws (QueryRejected q), w).

Declare Scope q_scope.
Delimit Scope q_scope with Q.
Notation "x <~ m ;; k" := (qbind m (fun x => k))
  (at level 100, m at next level, right associativity) : q_scope.
Notation "m ~~ k" := (qbind m (fun _ => k))
  (at level 100, right associativity) : q_scope.
Local Open Scope q_scope.

(** ** Message service, history and edits ([messageService.ts]) *)

Record Pagination := {
  currentPage : nat;
  totalPages : nat;
  totalMessages : nat;
  hasNext : bool;
  hasPrev : bool }.

Record MessagePage := {
  mp_messages : list IMessage;
  mp_pagination : Pagination }.

(** [Math.ceil(total / limit)] for a positive limit. *)
Definition ceil_div (total limit : nat) : nat :=
  (total + (limit - 1)) / limit.

(** The stored messages of a room, oldest first: [Message_save] appends,
    so the store keeps them in the order of their creation times. *)
Definition room_history (db : Db) (room : string) : list IMessage :=
  filter (fun m => m_room m = room) (db_messages db).

(** [sort({createdAt: -1}).skip(skip).limit(limit)] on that history. *)
Definition find_page (db : Db) (room : string) (skip limit : nat)
    : list IMessage :=
  take limit (drop skip (reverse (room_history db room))).

(** [getMessages]: page and limit are integers from 1 up, which is what
    the route's validation admits and what the controller defaults to
    (page 1, 50 messages). *)
Definition getMessages (room : string) (page limit : positive)
    : Q MessagePage :=
  let page := Pos.to_nat page in
  let limit := Pos.to_nat limit in
  let skip := (page - 1) * limit in
  roomExists <~ lift (Room_findById room) ;;
  match roomExists with
  | None => qthrow (Error "Room not found")
  | Some _ =>
      ask (MessageFindPage room skip limit) ~~
      messages <~ lift (w <- get ;; ret (find_page (w_db w) room skip limit)) ;;
      ask (MessageCountDocuments room) ~~
      total <~ lift (w <- get ;; ret (length (room_history (w_db w) room))) ;;
      qret {| mp_messages := reverse messages;
              mp_pagination :=
                {| currentPage := page;
                   totalPages := ceil_div total limit;
                   totalMessages := total;
                   hasNext := page <? ceil_div total limit;
                   hasPrev := 1 <? page |} |}
  end.

(** [Message.findById]. *)
Definition find_message (db : Db) (id : nat) : option IMessage :=
  head (filter (fun m => m_id m = id) (db_messages db)).

(** The stored document of that id replaced by [m]. *)
Fixpoint replace_message (m : IMessage) (l : list IMessage)
    : list IMessage :=
  match l with
  | [] => []
  | x :: rest =>
      if decide (m_id x = m_id m) then m :: rest
      else x :: replace_message m rest
  end.

(** [message.save()] of a document that is already stored. *)
Definition Message_update (m : IMessage) : M unit :=
  call (MessageSave m) ;;
  w <- get ;;
  put (set_db w {| db_users := db_users (w_db w);
                   db_rooms := db_rooms (w_db w);
                   db_messages := replace_message m (db_messages (w_db w)) |}).

Definition publishMessageEditToRedis (message : IMessage) : M unit :=
  try_catch
    (room <- room_id message ;;
     call (RedisPublish ("room:" +:+ room)
             (BRedisMessage "message_edited" room message)))
    (fun _ => log (ConsoleError "Error publishing message edit to Redis:")).

(** [message.content = updateData.content] under the trimming schema. *)
Definition with_content (m : IMessage) (content : string) : IMessage :=
  {| m_id := m_id m; m_content := trim content; m_sender := m_sender m;
     m_room := m_room m; m_messageType := m_messageType m |}.

(** [updateMessage]. The edit marks the schema keeps ([isEdited],
    [editedAt]) go with the timestamps and are not carried. *)
Definition updateMessage (messageId : nat) (content : string)
    (userId : string) : Q IMessage :=
  ask (MessageFindById messageId) ~~
  message <~ lift (w <- get ;; ret (find_message (w_db w) messageId)) ;;
  match message with
  | None => qthrow (Error "Message not found")
  | Some message =>
      if negb (String.eqb (m_sender message) userId)
      then qthrow (Error "You can only edit your own messages")
      else
        let message := with_content message content in
        lift (Message_update message ;;
              call (MessagePopulate message "sender") ;;
              call (MessagePopulate message "room") ;;
              publishMessageEditToRedis message ;;
              ret message)
  end.

(** ** Room service, deletion ([roomService.ts]) *)

Definition deleteRoom (roomId userId : string) : Q string :=
  room <~ lift (Room_findById roomId) ;;
  match room with
  | None => qthrow (Error "Room not found")
  | Some room =>
      if negb (String.eqb (r_owner room) userId)
      then qthrow (Error "Only room owner can delete the room")
      else
        ask (RoomFindByIdAndDelete roomId) ~~
        lift (w <- get ;;
              put (set_db w {| db_users := db_users (w_db w);
                               db_rooms := delete roomId (db_rooms (w_db w));
                               db_messages := db_messages (w_db w) |})) ~~
        qret "Room deleted successfully"
  end.

(** Every query resolves. *)
Definition all_answered : Query -> bool := fun _ => true.

(** ** The error handler ([middleware/errorHandler.ts]) *)

(** What the handler reads of the error it is given: its name, its
    [code], the keys of its [keyValue], its [status] and its message.
    An error named ValidationError carries its [errors] and one of code
    11000 its [keyValue], as those of mongoose and of the driver do; the
    handler's line on the console is not recorded. *)
Record JsError := {
  err_name : string;
  err_code : option N;
  err_keyValue : list string;
  err_status : option nat;
  err_message : string }.

(** [x || d] on a number: 0 is falsy. *)
Definition status_or (x : option nat) (d : nat) : nat :=
  match x with
  | Some 0 | None => d
  | Some n => n
  end.

(** [Object.keys(error.keyValue)[0]] inside a template string. *)
Definition first_key (keys : list string) : string :=
  match keys with
  | k :: _ => k
  | [] => "undefined"
  end.

Definition errorHandler (error : JsError) : Response :=
  if String.eqb (err_name error) "ValidationError" then
    {| status := 400; res_message := "Validation error" |}
  else if bool_decide (err_code error = Some 11000%N) then
    {| status := 400;
       res_message := first_key (err_keyValue error) +:+ " already exists" |}
  else if String.eqb (err_name error) "CastError" then
    {| status := 400; res_message := "Invalid ID format" |}
  else if String.eqb (err_name error) "JsonWebTokenError" then
    {| status := 401; res_message := "Invalid token" |}
  else if String.eqb (err_name error) "TokenExpiredError" then
    {| status := 401; res_message := "Token expired" |}
  else
    {| status := status_or (err_status error) 500;
       res_message :=
         if Js.truthy (err_message error) then err_message error
         else "Internal server error" |}.

(** The error object behind an exception: [new Error(message)] has the
    name "Error" and neither code nor status; [jsonwebtoken] names its
    errors after their classes; what a collaborator rejects with is the
    collaborator's business, [raised] tells. *)
Definition js_error (raised : ExtCall -> JsError) (e : Exn) : JsError :=
  match e with
  | Error message =>
      {| err_name := "Error"; err_code := None; err_keyValue := [];
         err_status := None; err_message := message |}
  | JsonWebTokenError why =>
      {| err_name :=
           match why with
           | Malformed | InvalidSignature => "JsonWebTokenError"
           | TokenExpired => "TokenExpiredError"
           | NotBefore => "NotBeforeError"
           end;
         err_code := None; err_keyValue := []; err_status := None;
         err_message :=
           match why with
           | Malformed => "jwt malformed"
           | InvalidSignature => "invalid signature"
           | TokenExpired => "jwt expired"
           | NotBefore => "jwt not active"
           end |}
  | Rejected c => raised c
  | TypeError message =>
      {| err_name := "TypeError"; err_code := None; err_keyValue := [];
         err_status := None; err_message := message |}
  end.

(** What the client is finally sent. *)
Definition answer (raised : ExtCall -> JsError) (o : Outcome) : Response :=
  match o with
  | Replied r => r
  | NextError e => errorHandler (js_error raised e)
  end.

(** The invariant of the session registry: while there is no server
    there is no socket and no entry, and every entry is for a non-empty
    user id and leads to a live socket of that user. *)
Definition registry_invariant (svc : SocketService) : Prop :=
  (io svc = false → connectedUsers svc = ∅ ∧ io_sockets svc = ∅)
  ∧ ∀ userId sid, connectedUsers svc !! userId = Some sid →
      Js.truthy userId = true
      ∧ ∃ sock, io_sockets svc !! sid = Some sock
                ∧ sock_userId sock = Some userId.

(** The sockets an effect addresses. *)
Definition recipients_of (e : Effect) : gset string :=
  match e with
  | Emit recipients _ _ => recipients
  | _ => ∅
  end.

Definition is_emit (e : Effect) : bool :=
  match e with
  | Emit _ _ _ => true
  | _ => false
  end.

(** ** Predicates of the further properties *)

(** The owner of every stored room is among its members. *)
Definition rooms_have_owner (db : Db) : Prop :=
  ∀ id r, db_rooms db !! id = Some r → r_owner r ∈ r_members r.

(** A computation only appends to the log, and what it appends
    satisfies [P]. *)
Definition appends {A} (m : M A) (ok : Oracle) (w : World)
    (P : Effect → Prop) : Prop :=
  ∃ es, w_log (snd (m ok w)) = w_log w ++ es ∧ Forall P es.

Definition silent (e : Effect) : Prop := is_emit e = false.

(** An effect addresses only sockets that are open in [w]. *)
Definition to_live (w : World) (e : Effect) : Prop :=
  ∀ sid, sid ∈ recipients_of e → is_Some (io_sockets (w_svc w) !! sid).

(** The first byte of a white-space character. *)
Definition isSpaceLead (c : Ascii.ascii) : bool :=
  let n := Ascii.nat_of_ascii c in
  (isSpace c || (n =? 194) || (n =? 225) || (n =? 226) || (n =? 227)
   || (n =? 239))%nat.

(** A string that does not start with a white-space character. *)
Definition no_lead (s : string) : Prop :=
  match s with
  | String c1 r1 =>
      isSpace c1 = false
      ∧ match r1 with
        | String c2 r2 =>
            isSpace2 c1 c2 = false
            ∧ match r2 with
              | String c3 _ => isSpace3 c1 c2 c3 = false
              | EmptyString => True
              end
        | EmptyString => True
        end
  | EmptyString => True
  end.

(** A string without the separator. *)
Definition free_of (sep : Ascii.ascii) (s : string) : Prop :=
  forallb (fun c => negb (Ascii.eqb c sep)) (String.list_ascii_of_string s)
  = true.

(** What a service that issues queries wrote to the log. *)
Definition qtrace {A} (m : Q A) (answers : Query -> bool) (ok : Oracle)
    (w : World) : list Effect :=
  drop (length (w_log w)) (w_log (snd (m answers ok w))).

(** The messages of one page of a room, nothing when the call throws. *)
Definition page_messages (room : string) (limit : positive)
    (answers : Query -> bool) (ok : Oracle) (w : World) (page : positive)
    : list IMessage :=
  match fst (getMessages room page limit answers ok w) with
  | Returns r => mp_messages r
  | Throws _ => []
  end.

(** [y] is [x], or [x] is the message [messageId] of [userId] and [y] is
    [x] with the new content. *)
Definition edit_of (messageId : nat) (userId content : string)
    (x y : IMessage) : Prop :=
  y = x ∨
  (m_id x = messageId ∧ m_sender x = userId ∧ y = with_content x content).

Definition is_queue_publish (e : Effect) : bool :=
  match e with
  | Call (QueuePublish _ _) _ => true
  | _ => false
  end.

(** ** Further worlds of the small deployment *)

Definition general_room : IRoom :=
  {| r_name := "general"; r_isPrivate := false;
     r_owner := "u1"; r_members := ["u1"] |}.

(** Bob has joined the room general through the room service. *)
Definition joined_world : World :=
  snd (joinRoom general "u2" all_ok (boot demo_db)).

(** Alice is connected twice. *)
Definition doubly_connected_world : World :=
  run demo_cfg (boot demo_db)
    [(all_ok, Initialize);
     (all_ok, Connect "s1" (Some "token-alice") None);
     (all_ok, Connect "s2" (Some "token-alice") None)].


(** The store rejects every populate of a message. *)
Definition populate_rejected : Oracle :=
  fun c => match c with MessagePopulate _ _ => false | _ => true end.

Definition said (content : string) : CreateMessageDto :=
  {| dto_content := content; dto_room := general; dto_messageType := None |}.

(** From [chat_world], alice has sent three messages to general. *)
Definition history_world : World :=
  snd (sendMessage (said "three") "u1" all_ok
         (snd (sendMessage (said "two") "u1" all_ok
                 (snd (sendMessage (said "one") "u1" all_ok chat_world))))).

(** The id of a room that does not exist yet. *)
Definition lobby : string := "cccccccccccccccccccccccc".

(** The store rejects with a validation error of mongoose. *)
Definition validation_error : ExtCall -> JsError :=
  fun _ => {| err_name := "ValidationError"; err_code := None;
              err_keyValue := []; err_status := None;
              err_message := "Message validation failed" |}.

(** * Properties *)

(** ** The model on concrete inputs *)

Example split_bearer :
  Js.split " " "Bearer abc" = ["Bearer"; "abc"]
  ∧ Js.split " " "a  b" = ["a"; ""; "b"]
  ∧ Js.split " " "" = [""].
Proof. by vm_compute. Qed.

Example bearer_token_cases :
  bearer_token (Some "Bearer abc") = Some "abc"
  ∧ bearer_token (Some "abc") = None
  ∧ bearer_token (Some "") = Some ""
  ∧ bearer_token None = None.
Proof. by vm_compute. Qed.

Example handshake_token_cases :
  handshake_token (Some "t1") (Some "Bearer t2") = Some "t1"
  ∧ handshake_token None (Some "Bearer t2") = Some "t2"
  ∧ handshake_token (Some "") (Some "Bearer t2") = Some "t2"
  ∧ handshake_token None (Some "t2") = None
  ∧ handshake_token None None = None.
Proof. by vm_compute. Qed.

Example trim_cases :
  trim "  a b  " = "a b" ∧ trim "   " = "" ∧ trim "hi" = "hi"
  ∧ trim (nbsp +:+ " hi" +:+ nbsp +:+ nbsp) = "hi"
  ∧ trim (nbsp +:+ " " +:+ nbsp) = ""
  ∧ trim "é " = "é".
Proof. by vm_compute. Qed.

(** The validator counts characters, not bytes and not UTF-16 units, and
    leaves the variation selectors out. *)
Example charCount_cases :
  charCount "hello" = 5
  ∧ charCount "é" = 1 ∧ String.length "é" = 2
  ∧ charCount "日本語" = 3
  ∧ charCount "😀" = 1
  ∧ charCount "✔️" = 1
  ∧ String.length accented = 2002
  ∧ isLength 1 2000 accented = true.
Proof. by vm_compute. Qed.

Example validation_cases :
  isMongoId general = true
  ∧ isMongoId "general" = false
  ∧ fst (sendMessageValidation hi) = []
  ∧ fst (sendMessageValidation too_long_body) =
    [{| fe_field := "content";
        fe_message :=
          "Message content must be between 1 and 2000 characters" |}]
  ∧ isLength 1 2000 (Js.repeat "a" 2000) = true
  ∧ isLength 1 2000 "" = false.
Proof. by vm_compute. Qed.

(** Scenario A: alice and bob have joined general, alice sends "hi" on
    her socket; the one emission goes to bob's socket alone. *)
Example scenario_realtime_send :
  trace (dispatch "s1" (send_message hi_data)) all_ok chat_world =
  [Call (QueuePublish "message_processing"
           (BSocketMessage general "hi" "text" (Some "u1"))) true;
   Emit {["s2"]} "new_message"
     (PSocketMessage general "hi" "text" (Some "u1") (Some "alice"))].
Proof. by vm_compute. Qed.

(** The same send while RabbitMQ is down: no broadcast, an [error] event
    to alice's socket. *)
Example scenario_realtime_send_queue_down :
  trace (dispatch "s1" (send_message hi_data)) queue_down chat_world =
  [Call (QueuePublish "message_processing"
           (BSocketMessage general "hi" "text" (Some "u1"))) false;
   ConsoleError "Error handling send_message:";
   Emit {["s1"]} "error" (PError "Failed to send message")].
Proof. by vm_compute. Qed.

(** Scenario B: alice posts 2001 characters over HTTP. *)
Example scenario_too_long :
  post_messages demo_cfg (Some "Bearer token-alice") too_long_body all_ok
    chat_world =
  (Ok (Replied validation_failed),
   add_log chat_world (Call (UserFindById "u1") true)).
Proof. by vm_compute. Qed.

(** Scenario C: alice disconnects; bob's next message in general is
    emitted to nobody, and alice's socket is in no room. *)
Example scenario_disconnect :
  let w := step demo_cfg all_ok chat_world (FromClient "s1" disconnect) in
  io_sockets (w_svc w) !! "s1" = None
  ∧ room_sockets (w_svc w) general = {["s2"]}
  ∧ room_sockets (w_svc w) "s1" = ∅
  ∧ Registry.lookup (w_svc w) "u1" = None
  ∧ trace (dispatch "s2" (send_message hi_data)) all_ok w =
    [Call (QueuePublish "message_processing"
             (BSocketMessage general "hi" "text" (Some "u2"))) true;
     Emit ∅ "new_message"
       (PSocketMessage general "hi" "text" (Some "u2") (Some "bob"))].
Proof. by vm_compute. Qed.

(** Scenario D: a handshake without a token is refused, and a
    [join_room] sent under that socket id changes nothing. *)
Example scenario_no_token :
  let w := step demo_cfg all_ok chat_world (Connect "s3" None None) in
  w_log w =
    w_log chat_world ++ [Refuse "s3" "Authentication token required"]
  ∧ w_svc w = w_svc chat_world
  ∧ step demo_cfg all_ok w (FromClient "s3" (join_room general)) = w.
Proof. by vm_compute. Qed.

(** A send over HTTP whose save is rejected. *)
Example scenario_save_rejected :
  sendMessage hi "u1" save_rejected chat_world =
  (Throw (Rejected (MessageSave (new_message chat_world hi "u1"))),
   add_log
     (add_log chat_world (Call (RoomFindById general) true))
     (Call (MessageSave (new_message chat_world hi "u1")) false)).
Proof. by vm_compute. Qed.

(** ** Log and frame lemmas *)

Ltac unfold_m :=
  unfold bind, ret, throw, try_catch, get, put, log, call, upd_svc in *.

(** Case analysis on every oracle answer and every match in sight. *)
Ltac m_cases :=
  unfold_m; simpl in *;
  repeat (case_match; simpl in *; simplify_eq); simpl in *.

(** Case analysis on the next condition a computation is stuck on. *)
Ltac m_branch :=
  match goal with
  | |- context [if ?b then _ else _] => destruct b eqn:?; simpl
  | |- context [match ?m !! ?k with _ => _ end] =>
      destruct (m !! k) eqn:?; simpl
  end.

(** Closing a goal about the trace of a computation that has run. *)
Ltac trace_done :=
  rewrite <- ?app_assoc; simpl;
  rewrite ?drop_app_length, ?app_nil_r, ?drop_all; simpl; try done.

(** Case analysis on membership in an explicit list. *)
Ltac list_cases H :=
  repeat (apply elem_of_cons in H as [H|H]; [simplify_eq|]);
  try (by apply elem_of_nil in H).

(** Running a computation when the oracle answers it meets are known
    from the context. *)
Ltac m_run :=
  unfold_m; simpl;
  repeat (progress
            (repeat match goal with
                    | H : ?ok ?c = _ |- context [?ok ?c] => rewrite H
                    end; simpl)).

Lemma trace_app {A} (m : M A) ok w es :
  w_log (snd (m ok w)) = w_log w ++ es → trace m ok w = es.
Proof. intros H. unfold trace. rewrite H. apply drop_app_length. Qed.

Section Presence.

Context (userId : string) (isOnline : bool) (ok : Oracle) (w : World).

Lemma updateUserOnlineStatus_returns :
  fst (updateUserOnlineStatus userId isOnline ok w) = Ok tt.
Proof. unfold updateUserOnlineStatus. by m_cases. Qed.

Lemma updateUserOnlineStatus_svc :
  w_svc (snd (updateUserOnlineStatus userId isOnline ok w)) = w_svc w.
Proof. unfold updateUserOnlineStatus. by m_cases. Qed.

Lemma updateUserOnlineStatus_db :
  w_db (snd (updateUserOnlineStatus userId isOnline ok w)) = w_db w.
Proof. unfold updateUserOnlineStatus. by m_cases. Qed.

(** The three ways the presence update can go. *)
Lemma updateUserOnlineStatus_log :
  let setex := RedisSetEx ("user:" +:+ userId +:+ ":online") 300
                 (if isOnline then "1" else "0") in
  let publish := RedisPublish "user_status_change"
                   (BStatus userId isOnline) in
  w_log (snd (updateUserOnlineStatus userId isOnline ok w)) =
  w_log w ++
    (if ok setex then
       if ok publish then [Call setex true; Call publish true]
       else [Call setex true; Call publish false;
             ConsoleError "Error updating user online status:"]
     else [Call setex false;
           ConsoleError "Error updating user online status:"]).
Proof.
  unfold updateUserOnlineStatus. m_cases; by rewrite <- ?app_assoc.
Qed.

End Presence.

Lemma on_connection_svc sid sock ok w userId :
  sock_userId sock = Some userId → Js.truthy userId = true →
  w_svc (snd (on_connection sid sock ok w)) =
  Registry.register userId sid (w_svc w).
Proof.
  intros Hu Ht. unfold on_connection, joinUserRooms. rewrite Hu, Ht.
  unfold bind, ret, upd_svc. simpl.
  pose proof (updateUserOnlineStatus_svc userId true ok
                (set_svc w (Registry.register userId sid (w_svc w)))) as H.
  by destruct (updateUserOnlineStatus userId true ok _) as [[[]|e] w'].
Qed.

Lemma on_disconnect_svc sock ok w userId :
  sock_userId sock = Some userId → Js.truthy userId = true →
  w_svc (snd (on_disconnect sock ok w)) =
  Registry.unregister userId (w_svc w).
Proof.
  intros Hu Ht. unfold on_disconnect. rewrite Hu, Ht.
  unfold bind at 1, upd_svc. simpl.
  by rewrite updateUserOnlineStatus_svc.
Qed.

Lemma on_disconnect_returns sock ok w :
  fst (on_disconnect sock ok w) = Ok tt.
Proof.
  unfold on_disconnect. repeat case_match; try done.
  unfold bind at 1, upd_svc. simpl.
  by rewrite updateUserOnlineStatus_returns.
Qed.

(** ** The session registry *)

Module RegistryFacts.
Import Registry.

Lemma lookup_register svc userId sid :
  lookup (register userId sid svc) userId = Some sid.
Proof. unfold lookup, register. simpl. apply lookup_insert_eq. Qed.

Lemma lookup_register_ne svc userId other sid :
  other ≠ userId →
  lookup (register userId sid svc) other = lookup svc other.
Proof.
  intros Hne. unfold lookup, register. simpl.
  by rewrite lookup_insert_ne.
Qed.

Lemma lookup_unregister svc userId :
  lookup (unregister userId svc) userId = None.
Proof. unfold lookup, unregister. simpl. apply lookup_delete_eq. Qed.

Lemma unregister_absent svc userId :
  lookup svc userId = None → unregister userId svc = svc.
Proof.
  unfold lookup, unregister. intros H. destruct svc as [i c s r].
  simpl in *. f_equal. by apply delete_id.
Qed.

Lemma isUserOnline_lookup svc userId :
  isUserOnline svc userId = true ↔ is_Some (lookup svc userId).
Proof. unfold isUserOnline, lookup. apply bool_decide_eq_true. Qed.

End RegistryFacts.

(** C6. Two connections of the same identity, first on socket [h1] and
    then on socket [h2], leave the registry pointing at [h2]
    (the last writer wins); a disconnect of that identity after either
    connection leaves no entry; and the entry of every other identity is
    what it was before. *)
Theorem registry_last_writer_wins
    (ok1 ok2 ok3 : Oracle) (w : World) (id h1 h2 : string)
    (c1 c2 c3 : Socket) :
  sock_userId c1 = Some id → sock_userId c2 = Some id →
  sock_userId c3 = Some id → Js.truthy id = true →
  let w1 := snd (on_connection h1 c1 ok1 w) in
  let w2 := snd (on_connection h2 c2 ok2 w1) in
  Registry.lookup (w_svc w2) id = Some h2
  ∧ Registry.lookup (w_svc (snd (on_disconnect c3 ok3 w2))) id = None
  ∧ Registry.lookup (w_svc (snd (on_disconnect c3 ok3 w1))) id = None
  ∧ ∀ other, other ≠ id →
      Registry.lookup (w_svc w1) other = Registry.lookup (w_svc w) other
      ∧ Registry.lookup (w_svc w2) other = Registry.lookup (w_svc w) other.
Proof.
  intros H1 H2 H3 Ht w1 w2. subst w1 w2.
  rewrite !(on_disconnect_svc _ _ _ id), !(on_connection_svc _ _ _ _ id)
    by done.
  split; [apply RegistryFacts.lookup_register|].
  split; [apply RegistryFacts.lookup_unregister|].
  split; [apply RegistryFacts.lookup_unregister|].
  intros other Hne.
  by rewrite !RegistryFacts.lookup_register_ne.
Qed.

Lemma registry_last_writer_wins_witness :
  Js.truthy "u1" = true
  ∧ Registry.lookup
      (w_svc (snd (on_connection "s2" alice_socket all_ok
                     (snd (on_connection "s1" alice_socket all_ok
                             (boot demo_db)))))) "u1" = Some "s2".
Proof.
  split; [reflexivity|].
  exact (proj1 (registry_last_writer_wins all_ok all_ok all_ok
                  (boot demo_db) "u1" "s1" "s2"
                  alice_socket alice_socket alice_socket
                  eq_refl eq_refl eq_refl eq_refl)).
Defined.

(** C7, as stated, fails: alice's first socket disconnects when her
    registry entry is already gone, and the handler still sets her
    online key to "0" and publishes the offline status change. *)
Lemma unregister_absent_still_publishes :
  Registry.lookup (w_svc displaced_world) "u1" = None
  ∧ io_sockets (w_svc displaced_world) !! "s1" = Some alice_socket
  ∧ trace (dispatch "s1" disconnect) all_ok displaced_world =
    [Call (RedisSetEx "user:u1:online" 300 "0") true;
     Call (RedisPublish "user_status_change" (BStatus "u1" false)) true].
Proof. by vm_compute. Qed.

(** C7, amended. A disconnect of an identity that has no registry entry
    raises no error and leaves the registry (and the rest of the socket
    service and the stored data) unchanged; the presence update is still
    attempted: the online key is set to "0" and, when that resolves, the
    offline status change is published. *)
Theorem unregister_absent_keeps_registry
    (ok : Oracle) (w : World) (sock : Socket) (id : string) :
  sock_userId sock = Some id → Js.truthy id = true →
  Registry.lookup (w_svc w) id = None →
  let setex := RedisSetEx ("user:" +:+ id +:+ ":online") 300 "0" in
  let publish := RedisPublish "user_status_change" (BStatus id false) in
  fst (on_disconnect sock ok w) = Ok tt
  ∧ w_svc (snd (on_disconnect sock ok w)) = w_svc w
  ∧ w_db (snd (on_disconnect sock ok w)) = w_db w
  ∧ trace (on_disconnect sock) ok w =
    if ok setex then
      if ok publish then [Call setex true; Call publish true]
      else [Call setex true; Call publish false;
            ConsoleError "Error updating user online status:"]
    else [Call setex false;
          ConsoleError "Error updating user online status:"].
Proof.
  intros Hu Ht Habs setex publish.
  split; [apply on_disconnect_returns|].
  split.
  { rewrite (on_disconnect_svc _ _ _ id) by done.
    by apply RegistryFacts.unregister_absent. }
  unfold on_disconnect. rewrite Hu, Ht.
  split.
  - unfold bind at 1, upd_svc. simpl.
    by rewrite updateUserOnlineStatus_db.
  - apply trace_app. unfold bind at 1, upd_svc. simpl.
    by rewrite updateUserOnlineStatus_log.
Qed.

Lemma unregister_absent_keeps_registry_witness :
  Registry.lookup (w_svc displaced_world) "u1" = None
  ∧ w_svc (snd (on_disconnect alice_socket all_ok displaced_world)) =
    w_svc displaced_world.
Proof.
  split; [reflexivity|].
  exact (proj1 (proj2 (unregister_absent_keeps_registry all_ok
                         displaced_world alice_socket "u1"
                         eq_refl eq_refl eq_refl))).
Defined.

(** ** The HTTP message-send path *)

Ltac unfold_send :=
  unfold sendMessage, Room_findById, Message_new, new_message, Message_save,
    emitToRoom, publishMessageToRedis, publishMessageToRabbitMQ, sender_id,
    room_id, null_id.

(** C10. [sendMessage] throws 'Room not found' when the room id resolves
    to no room and 'User is not a member of this room' when the sender
    is not in the member list of the room; in both cases the stored data
    are unchanged and the room lookup is the only thing the call did: no
    save, no [new_message] emission, no publish to Redis or RabbitMQ. *)
Theorem sendMessage_rejects_before_saving
    (ok : Oracle) (w : World) (messageData : CreateMessageDto)
    (senderId : string) :
  ok (RoomFindById (dto_room messageData)) = true →
  match db_rooms (w_db w) !! dto_room messageData with
  | None =>
      fst (sendMessage messageData senderId ok w) =
      Throw (Error "Room not found")
      ∧ w_db (snd (sendMessage messageData senderId ok w)) = w_db w
      ∧ trace (sendMessage messageData senderId) ok w =
        [Call (RoomFindById (dto_room messageData)) true]
  | Some room =>
      Js.includes senderId (r_members room) = false →
      fst (sendMessage messageData senderId ok w) =
      Throw (Error "User is not a member of this room")
      ∧ w_db (snd (sendMessage messageData senderId ok w)) = w_db w
      ∧ trace (sendMessage messageData senderId) ok w =
        [Call (RoomFindById (dto_room messageData)) true]
  end.
Proof.
  intros Hfind.
  destruct (db_rooms (w_db w) !! dto_room messageData) as [room|] eqn:Hroom.
  - intros Hmem. unfold trace. unfold_send. unfold_m. simpl.
    rewrite Hfind. simpl. rewrite Hroom, Hmem. simpl.
    by rewrite drop_app_length.
  - unfold trace. unfold_send. unfold_m. simpl.
    rewrite Hfind. simpl. rewrite Hroom. simpl.
    by rewrite drop_app_length.
Qed.

Lemma sendMessage_rejects_before_saving_witness :
  fst (sendMessage
         {| dto_content := "hi"; dto_room := staff;
            dto_messageType := None |} "u2" all_ok (boot demo_db)) =
  Throw (Error "User is not a member of this room").
Proof.
  exact (proj1 (sendMessage_rejects_before_saving all_ok (boot demo_db)
                  {| dto_content := "hi"; dto_room := staff;
                     dto_messageType := None |} "u2" eq_refl eq_refl)).
Defined.

(** C9, as stated, fails where the socket.io server has not been
    initialised: the store answers, both brokers are down, the send
    returns the persisted message, and nothing is emitted to any
    socket. *)
Lemma publish_failure_without_server_broadcasts_nothing :
  let message := {| m_id := 0; m_content := "hi"; m_sender := "u1";
                    m_room := general; m_messageType := "text" |} in
  io (w_svc (boot demo_db)) = false
  ∧ fst (sendMessage hi "u1" brokers_down (boot demo_db)) = Ok message
  ∧ trace (sendMessage hi "u1") brokers_down (boot demo_db) =
    [Call (RoomFindById general) true;
     Call (MessageSave message) true;
     Call (MessagePopulate message "sender") true;
     Call (MessagePopulate message "room") true;
     Call (RedisPublish ("room:" +:+ general)
             (BRedisMessage "new_message" general message)) false;
     ConsoleError "Error publishing message to Redis:";
     Call (QueuePublish "message_processing" (BMessageSent message)) false;
     ConsoleError "Error publishing message to RabbitMQ:"].
Proof. by vm_compute. Qed.

(** C9, amended. When the store accepts every call of a send (the room
    is found, the sender is a member, the save and the two populates
    resolve), [sendMessage] returns the saved message whatever Redis and
    RabbitMQ answer and whether or not the socket.io server exists: the
    message is stored, the [new_message] emission to the room happens
    exactly when the server exists and then before any publish, and a
    rejected publish only leaves a console line. For a sender without a
    user document the read of the populated sender throws inside the
    same [try], which leaves the same console line and no queue
    publish. *)
Theorem sendMessage_swallows_publish_errors
    (ok : Oracle) (w : World) (messageData : CreateMessageDto)
    (senderId : string) (room : IRoom) :
  (∀ c, is_db_call c = true → ok c = true) →
  db_rooms (w_db w) !! dto_room messageData = Some room →
  Js.includes senderId (r_members room) = true →
  let message := new_message w messageData senderId in
  let redis := RedisPublish ("room:" +:+ m_room message)
                 (BRedisMessage "new_message" (m_room message) message) in
  let processing := QueuePublish "message_processing"
                      (BMessageSent message) in
  let logging := QueuePublish "message_logging" (BLogMessage message) in
  fst (sendMessage messageData senderId ok w) = Ok message
  ∧ db_messages (w_db (snd (sendMessage messageData senderId ok w))) =
    db_messages (w_db w) ++ [message]
  ∧ trace (sendMessage messageData senderId) ok w =
    [Call (RoomFindById (dto_room messageData)) true;
     Call (MessageSave message) true;
     Call (MessagePopulate message "sender") true;
     Call (MessagePopulate message "room") true]
    ++ (if io (w_svc w) then
          [Emit (room_sockets (w_svc w) (dto_room messageData)) "new_message"
             (PMessage message)]
        else [])
    ++ (if ok redis then [Call redis true]
        else [Call redis false;
              ConsoleError "Error publishing message to Redis:"])
    ++ (match db_users (w_db w) !! senderId with
        | None => [ConsoleError "Error publishing message to RabbitMQ:"]
        | Some _ =>
            if ok processing then
              if ok logging then [Call processing true; Call logging true]
              else [Call processing true; Call logging false;
                    ConsoleError "Error publishing message to RabbitMQ:"]
            else [Call processing false;
                  ConsoleError "Error publishing message to RabbitMQ:"]
        end).
Proof.
  intros Hdb Hroom Hmem message redis processing logging.
  pose proof (Hdb (RoomFindById (dto_room messageData)) eq_refl) as Hfind.
  pose proof (Hdb (MessageSave message) eq_refl) as Hsave.
  pose proof (Hdb (MessagePopulate message "sender") eq_refl) as Hp1.
  pose proof (Hdb (MessagePopulate message "room") eq_refl) as Hp2.
  subst redis processing logging.
  unfold trace, message, new_message in *. simpl in *.
  unfold_send. unfold_m. simpl.
  rewrite Hfind. simpl. rewrite Hroom, Hmem. simpl.
  rewrite Hsave. simpl. rewrite Hp1. simpl. rewrite Hp2. simpl.
  destruct (io (w_svc w)); simpl; rewrite ?Hroom; simpl;
    repeat m_branch; trace_done.
Qed.

Lemma sendMessage_swallows_publish_errors_witness :
  fst (sendMessage hi "u1" brokers_down chat_world) =
  Ok {| m_id := 0; m_content := "hi"; m_sender := "u1";
        m_room := general; m_messageType := "text" |}.
Proof.
  exact (proj1 (sendMessage_swallows_publish_errors brokers_down chat_world
                  hi "u1"
                  {| r_name := "general"; r_isPrivate := false;
                     r_owner := "u1"; r_members := ["u1"] |}
                  (fun c H => H) eq_refl eq_refl)).
Defined.

(** ** Broadcast after persist *)

Lemma is_saved_inv e :
  is_saved e = true → ∃ m, e = Call (MessageSave m) true.
Proof. destruct e as [[] []| | |]; try done. eauto. Qed.

Lemma persist_then_fanout_cons e es :
  persist_then_fanout (e :: es) =
  if is_saved e then true else negb (is_fanout e) && persist_then_fanout es.
Proof. by destruct e as [[] []| | |]. Qed.

(** The check [persist_then_fanout] says what it should: every fan-out
    effect of the log has a resolved message save somewhere before it. *)
Lemma persist_then_fanout_spec (es : list Effect) :
  persist_then_fanout es = true ↔
  ∀ i e, es !! i = Some e → is_fanout e = true →
    ∃ j m, j < i ∧ es !! j = Some (Call (MessageSave m) true).
Proof.
  induction es as [|e es IH].
  { split; [|done]. intros _ i e Hi. by rewrite lookup_nil in Hi. }
  rewrite persist_then_fanout_cons.
  destruct (is_saved e) eqn:Hsaved.
  - apply is_saved_inv in Hsaved as [m ->].
    split; [|done]. intros _ [|i] e' Hi He'.
    + simpl in Hi. by simplify_eq.
    + exists 0, m. split; [lia | done].
  - split.
    + intros [Hne Hrest]%andb_true_iff [|i] e' Hi He'.
      * simpl in Hi. simplify_eq. by rewrite He' in Hne.
      * destruct (proj1 IH Hrest i e' Hi He') as (j & m & Hj & Hm).
        exists (S j), m. split; [lia | done].
    + intros H. apply andb_true_iff. split.
      * destruct (is_fanout e) eqn:He; [|done].
        destruct (H 0 e eq_refl He) as (j & _ & Hj & _). lia.
      * apply IH. intros i e' Hi He'.
        destruct (H (S i) e' Hi He') as ([|j] & m & Hj & Hm).
        -- simpl in Hm. simplify_eq.
        -- exists j, m. split; [lia | done].
Qed.

Lemma sendMessage_persist_then_fanout ok w messageData senderId :
  persist_then_fanout (trace (sendMessage messageData senderId) ok w) = true.
Proof.
  unfold trace. unfold_send. unfold_m. simpl.
  repeat m_branch; trace_done.
Qed.

(** What the real-time [send_message] handler does, for any payload:
    one publish to the processing queue, then the broadcast; when the
    publish is rejected, a console line and an [error] event to the
    sender instead. The store is not involved. *)
Lemma on_send_message_trace sid sock data ok w :
  let queued := QueuePublish "message_processing"
                  (BSocketMessage (sd_roomId data) (sd_content data)
                     (Js.default_to (sd_messageType data) "text")
                     (sock_userId sock)) in
  trace (on_send_message sid sock data) ok w =
  if ok queued then
    [Call queued true;
     Emit (room_sockets (w_svc w) (sd_roomId data) ∖ {[sid]}) "new_message"
       (PSocketMessage (sd_roomId data) (sd_content data)
          (Js.default_to (sd_messageType data) "text")
          (sock_userId sock) (sock_username sock))]
  else
    [Call queued false; ConsoleError "Error handling send_message:";
     Emit {[sid]} "error" (PError "Failed to send message")].
Proof.
  intros queued. subst queued. unfold trace, on_send_message, socket_to_emit,
    socket_emit. unfold_m. simpl.
  repeat m_branch; trace_done.
Qed.

Lemma on_send_message_frame sid sock data ok w :
  fst (on_send_message sid sock data ok w) = Ok tt
  ∧ w_db (snd (on_send_message sid sock data ok w)) = w_db w
  ∧ w_svc (snd (on_send_message sid sock data ok w)) = w_svc w.
Proof.
  unfold on_send_message, socket_to_emit, socket_emit. unfold_m. simpl.
  by repeat m_branch.
Qed.

(** C5, as stated, fails on the real-time path: alice's [send_message]
    is broadcast to bob although nothing was saved, before or after. *)
Lemma realtime_send_broadcasts_unsaved :
  io_sockets (w_svc chat_world) !! "s1" = Some alice_socket
  ∧ trace (dispatch "s1" (send_message hi_data)) all_ok chat_world =
    [Call (QueuePublish "message_processing"
             (BSocketMessage general "hi" "text" (Some "u1"))) true;
     Emit {["s2"]} "new_message"
       (PSocketMessage general "hi" "text" (Some "u1") (Some "alice"))]
  ∧ persist_then_fanout
      (trace (dispatch "s1" (send_message hi_data)) all_ok chat_world) =
    false
  ∧ db_messages
      (w_db (snd (dispatch "s1" (send_message hi_data) all_ok chat_world))) =
    [].
Proof. by vm_compute. Qed.

(** C5, amended. On the HTTP path the save comes first: every emission
    and every publish of a [sendMessage] call has a resolved save of the
    message before it, and when the save is rejected the call throws
    that rejection, stores nothing and neither emits nor publishes. The
    real-time [send_message] handler never writes to the store: it
    publishes to the processing queue and broadcasts only after that
    publish resolved. *)
Theorem sendMessage_saves_before_fanout
    (ok : Oracle) (w : World) (messageData : CreateMessageDto)
    (senderId : string) :
  (∀ i e, trace (sendMessage messageData senderId) ok w !! i = Some e →
     is_fanout e = true →
     ∃ j m, j < i ∧ trace (sendMessage messageData senderId) ok w !! j =
                     Some (Call (MessageSave m) true))
  ∧ (∀ room,
       ok (RoomFindById (dto_room messageData)) = true →
       db_rooms (w_db w) !! dto_room messageData = Some room →
       Js.includes senderId (r_members room) = true →
       ok (MessageSave (new_message w messageData senderId)) = false →
       fst (sendMessage messageData senderId ok w) =
         Throw (Rejected (MessageSave (new_message w messageData senderId)))
       ∧ w_db (snd (sendMessage messageData senderId ok w)) = w_db w
       ∧ trace (sendMessage messageData senderId) ok w =
         [Call (RoomFindById (dto_room messageData)) true;
          Call (MessageSave (new_message w messageData senderId)) false])
  ∧ (∀ sid sock data,
       w_db (snd (on_send_message sid sock data ok w)) = w_db w
       ∧ (∀ e, e ∈ trace (on_send_message sid sock data) ok w →
            match e with Call c _ => is_db_call c = false | _ => True end)
       ∧ (∀ recipients payload,
            Emit recipients "new_message" payload
              ∈ trace (on_send_message sid sock data) ok w →
            ∃ msg, trace (on_send_message sid sock data) ok w !! 0 =
                   Some (Call (QueuePublish "message_processing" msg) true))).
Proof.
  split; [|split].
  - apply persist_then_fanout_spec, sendMessage_persist_then_fanout.
  - intros room Hfind Hroom Hmem Hsave. unfold trace, new_message in *.
    unfold_send. m_run. by trace_done.
  - intros sid sock data.
    split; [apply on_send_message_frame|].
    rewrite on_send_message_trace. simpl.
    destruct (ok _) eqn:Hq.
    + split.
      * intros e He. by list_cases He.
      * intros recipients payload _. eauto.
    + split.
      * intros e He. by list_cases He.
      * intros recipients payload He. by list_cases He.
Qed.

(** ** Joining a room over HTTP *)

Lemma room_pre_save_members r :
  r_members r `prefix_of` r_members (room_pre_save r)
  ∧ r_owner r ∈ r_members (room_pre_save r).
Proof.
  unfold room_pre_save, Js.includes. case_bool_decide; simpl.
  - split; [done | done].
  - split; [by apply prefix_app_r | set_solver].
Qed.

(** C8, as stated, fails: the room staff is private and bob, who is
    registered, is not one of its members, yet his POST to the join
    route is answered 200 and he is stored as a member. *)
Lemma joinRoom_ignores_privacy :
  (r_isPrivate <$> db_rooms team_db !! staff) = Some true
  ∧ (Js.includes "u2" <$> (r_members <$> db_rooms team_db !! staff))
    = Some false
  ∧ fst (post_rooms_join demo_cfg (Some "Bearer token-bob") staff all_ok
           (boot team_db)) =
    Ok (Replied {| status := 200;
                   res_message := "Joined room successfully" |})
  ∧ db_rooms (w_db (snd (post_rooms_join demo_cfg (Some "Bearer token-bob")
                           staff all_ok (boot team_db)))) !! staff =
    Some {| r_name := "staff"; r_isPrivate := true; r_owner := "u1";
            r_members := ["u1"; "u2"] |}.
Proof. by vm_compute. Qed.

(** C8, amended. A join fails with 'Room not found' when the room does
    not exist and with 'User is already a member of this room' when the
    caller is in its member list, and stores nothing in either case;
    otherwise, whatever the privacy flag of the room, the caller is
    appended to the member list, the room is saved under its id, and
    what is returned is the saved room with its owner and its members
    populated from the user documents of the store. *)
Theorem joinRoom_appends_any_non_member
    (ok : Oracle) (w : World) (roomId userId : string) :
  (∀ c, is_db_call c = true → ok c = true) →
  match db_rooms (w_db w) !! roomId with
  | None =>
      fst (joinRoom roomId userId ok w) = Throw (Error "Room not found")
      ∧ w_db (snd (joinRoom roomId userId ok w)) = w_db w
  | Some room =>
      if Js.includes userId (r_members room) then
        fst (joinRoom roomId userId ok w) =
          Throw (Error "User is already a member of this room")
        ∧ w_db (snd (joinRoom roomId userId ok w)) = w_db w
      else
        ∃ saved,
          fst (joinRoom roomId userId ok w) =
            Ok (populate_room (w_db w) saved)
          ∧ db_rooms (w_db (snd (joinRoom roomId userId ok w))) !! roomId =
            Some saved
          ∧ db_users (w_db (snd (joinRoom roomId userId ok w))) =
            db_users (w_db w)
          ∧ (r_members room ++ [userId]) `prefix_of` r_members saved
          ∧ r_isPrivate saved = r_isPrivate room
          ∧ r_owner saved = r_owner room
  end.
Proof.
  intros Hdb.
  pose proof (Hdb (RoomFindById roomId) eq_refl) as Hfind.
  pose proof (Hdb (RoomPopulate roomId "owner") eq_refl) as Hp1.
  pose proof (Hdb (RoomPopulate roomId "members") eq_refl) as Hp2.
  destruct (db_rooms (w_db w) !! roomId) as [room|] eqn:Hroom.
  - destruct (Js.includes userId (r_members room)) eqn:Hmem.
    + unfold joinRoom, Room_findById. unfold_m. simpl.
      rewrite Hfind. simpl. by rewrite Hroom, Hmem.
    + exists (room_pre_save (room_push_member room userId)).
      pose proof (Hdb (RoomSave roomId
                         (room_pre_save (room_push_member room userId)))
                    eq_refl) as Hsave.
      unfold joinRoom, Room_findById, Room_save. unfold_m. simpl.
      rewrite Hfind. simpl. rewrite Hroom, Hmem. simpl.
      rewrite Hsave. simpl. rewrite Hp1. simpl. rewrite Hp2. simpl.
      split; [done|]. split; [apply lookup_insert_eq|]. split; [done|].
      split; [apply (room_pre_save_members (room_push_member room userId))|].
      unfold room_pre_save. by case_match.
  - unfold joinRoom, Room_findById. unfold_m. simpl.
    rewrite Hfind. simpl. by rewrite Hroom.
Qed.

Lemma joinRoom_appends_any_non_member_witness :
  ∃ saved,
    fst (joinRoom staff "u2" all_ok (boot team_db)) =
      Ok (populate_room (w_db (boot team_db)) saved)
    ∧ db_rooms (w_db (snd (joinRoom staff "u2" all_ok (boot team_db))))
        !! staff = Some saved
    ∧ db_users (w_db (snd (joinRoom staff "u2" all_ok (boot team_db)))) =
      db_users (w_db (boot team_db))
    ∧ (["u1"] ++ ["u2"]) `prefix_of` r_members saved
    ∧ r_isPrivate saved = true
    ∧ r_owner saved = "u1".
Proof.
  exact (joinRoom_appends_any_non_member all_ok (boot team_db) staff "u2"
           (fun _ _ => eq_refl)).
Defined.

(** ** The authentication gate *)

Ltac gate_branch :=
  match goal with
  | |- context [bearer_token ?h] => destruct (bearer_token h) eqn:?; simpl
  | |- context [jwt_verify ?c ?t ?s] =>
      destruct (jwt_verify c t s) eqn:?; simpl
  | _ => m_branch
  end.

(** The gate always answers or passes, never touches the stored data or
    the socket service, and its only call is the user lookup. *)
Lemma authenticateToken_frame cfg authHeader ok w :
  (∃ g, fst (authenticateToken cfg authHeader ok w) = Ok g)
  ∧ w_db (snd (authenticateToken cfg authHeader ok w)) = w_db w
  ∧ w_svc (snd (authenticateToken cfg authHeader ok w)) = w_svc w
  ∧ ∃ es, w_log (snd (authenticateToken cfg authHeader ok w)) = w_log w ++ es
          ∧ ∀ e, e ∈ es → ∃ id b, e = Call (UserFindById id) b.
Proof.
  unfold authenticateToken, User_findById. unfold_m. simpl.
  repeat gate_branch;
    (split; [eauto|]; split; [done|]; split; [done|]);
    first [ exists []; split; [by rewrite app_nil_r|];
            intros e He; by list_cases He
          | eexists [_]; split; [done|];
            intros e He; list_cases He; eauto ].
Qed.

(** ** Validation of a message body *)

Lemma sendMessageValidation_invalid body :
  isLength 1 2000 (dto_content body) = false
  ∨ (∃ t, dto_messageType body = Some t
          ∧ isIn ["text"; "image"; "file"] t = false) →
  handleValidationErrors (fst (sendMessageValidation body)) =
  Respond validation_failed.
Proof.
  unfold sendMessageValidation, check. simpl.
  intros [-> | (t & -> & ->)]; [done|].
  by repeat case_match.
Qed.

(** A body that fails validation: the request does what the gate does
    and nothing more. *)
Lemma post_messages_invalid_run cfg authHeader body ok w :
  handleValidationErrors (fst (sendMessageValidation body)) =
    Respond validation_failed →
  snd (post_messages cfg authHeader body ok w) =
    snd (authenticateToken cfg authHeader ok w)
  ∧ fst (post_messages cfg authHeader body ok w) =
    match fst (authenticateToken cfg authHeader ok w) with
    | Ok (Next _) => Ok (Replied validation_failed)
    | Ok (Respond r) => Ok (Replied r)
    | Throw e => Throw e
    end.
Proof.
  intros Hv. unfold post_messages. rewrite Hv. unfold bind, ret.
  by destruct (authenticateToken cfg authHeader ok w) as [[[user|r]|e] w'].
Qed.

(** C4, as stated, fails in two places. On the real-time path a
    [send_message] with 2001 characters of content and the message type
    "video" is queued and broadcast to bob like any other. Over HTTP the
    2001-character request is refused, but not before the gate has
    looked the user up in the store. *)
Lemma oversized_send_relayed_and_user_looked_up :
  charCount (sd_content too_long_data) = 2001
  ∧ isIn ["text"; "image"; "file"] "video" = false
  ∧ trace (dispatch "s1" (send_message too_long_data)) all_ok chat_world =
    [Call (QueuePublish "message_processing"
             (BSocketMessage general too_long "video" (Some "u1"))) true;
     Emit {["s2"]} "new_message"
       (PSocketMessage general too_long "video" (Some "u1") (Some "alice"))]
  ∧ trace (post_messages demo_cfg (Some "Bearer token-alice") too_long_body)
      all_ok chat_world =
    [Call (UserFindById "u1") true].
Proof. by vm_compute. Qed.

(** C4, amended. For a POST /messages request whose content is not 1 to
    2000 characters long, or whose message type is given and is not one
    of text, image, file: once the gate has let it through, the answer
    is 400 'Validation failed'; nothing is stored, the socket service is
    untouched and the only effects are the user lookups of the gate, so
    no room lookup, no save, no emission and no publish takes place. *)
Theorem post_messages_rejects_invalid_body
    (cfg : Config) (ok : Oracle) (w : World) (authHeader : option string)
    (body : CreateMessageDto) :
  isLength 1 2000 (dto_content body) = false
  ∨ (∃ t, dto_messageType body = Some t
          ∧ isIn ["text"; "image"; "file"] t = false) →
  (∀ user, fst (authenticateToken cfg authHeader ok w) = Ok (Next user) →
     fst (post_messages cfg authHeader body ok w) =
     Ok (Replied {| status := 400; res_message := "Validation failed" |}))
  ∧ w_db (snd (post_messages cfg authHeader body ok w)) = w_db w
  ∧ w_svc (snd (post_messages cfg authHeader body ok w)) = w_svc w
  ∧ ∀ e, e ∈ trace (post_messages cfg authHeader body) ok w →
         ∃ id b, e = Call (UserFindById id) b.
Proof.
  intros Hbad.
  destruct (post_messages_invalid_run cfg authHeader body ok w
              (sendMessageValidation_invalid body Hbad)) as [Hsnd Hfst].
  destruct (authenticateToken_frame cfg authHeader ok w)
    as (_ & Hdb & Hsvc & es & Hlog & Hes).
  split; [|split; [|split]].
  - intros user Hgate. by rewrite Hfst, Hgate.
  - by rewrite Hsnd.
  - by rewrite Hsnd.
  - intros e He. apply Hes.
    rewrite (trace_app _ _ _ es) in He; [done|]. by rewrite Hsnd.
Qed.

Lemma post_messages_rejects_invalid_body_witness :
  isLength 1 2000 (dto_content too_long_body) = false
  ∧ fst (post_messages demo_cfg (Some "Bearer token-alice") too_long_body
           all_ok chat_world) =
    Ok (Replied {| status := 400; res_message := "Validation failed" |}).
Proof.
  split; [by vm_compute|].
  refine (proj1 (post_messages_rejects_invalid_body demo_cfg all_ok
                   chat_world (Some "Bearer token-alice") too_long_body
                   (or_introl _))
            {| p_userId := "u1"; p_username := "alice";
               p_email := "alice@example.com" |} _);
    by vm_compute.
Defined.

Lemma connect_refused cfg sid auth_token authorization message ok w :
  setupMiddleware cfg auth_token authorization = inl message →
  w_svc (snd (connect cfg sid auth_token authorization ok w)) = w_svc w
  ∧ w_db (snd (connect cfg sid auth_token authorization ok w)) = w_db w.
Proof.
  intros Hmw. unfold connect. rewrite Hmw. unfold_m. simpl.
  by repeat m_branch.
Qed.

(** C3, as stated, fails in two places. Over HTTP a malformed token is
    answered with status 500, not 401, when no signing secret is
    configured. At the handshake bob's token verifies and the connection
    is accepted although the store has no user "u2". *)
Lemma gate_answers_500_and_admits_unknown_user :
  fst (authenticateToken unconfigured_cfg (Some "Bearer garbage") all_ok
         (boot demo_db)) =
    Ok (Respond {| status := 500;
                   res_message := "JWT secret not configured" |})
  ∧ db_users demo_db !! "u2" = None
  ∧ setupMiddleware demo_cfg (Some "token-bob") None = inr bob_socket
  ∧ io_sockets (w_svc chat_world) !! "s2" = Some bob_socket.
Proof. by vm_compute. Qed.

(** C3, amended. With a signing secret configured, the HTTP middleware
    answers 401 when no token is presented, when the token does not
    verify (malformed, bad signature, expired, not yet valid), and when
    it verifies but the user lookup finds nobody; when the lookup finds
    the user, the identity read from the store is attached to the
    request. The handshake middleware refuses the connection when no
    token is presented or when the token does not verify, a refused
    handshake creates no socket, and an accepted one carries the
    identity decoded from the token. *)
Theorem gate_rejects_bad_tokens
    (cfg : Config) (ok : Oracle) (w : World) :
  Js.truthy_opt (JWT_SECRET cfg) = true →
  (∀ authHeader,
     Js.truthy_opt (bearer_token authHeader) = false →
     fst (authenticateToken cfg authHeader ok w) =
     Ok (Respond {| status := 401;
                    res_message := "Access token required" |}))
  ∧ (∀ authHeader token why,
       bearer_token authHeader = Some token → Js.truthy token = true →
       jwt_verify cfg token (JWT_SECRET cfg) = Invalid why →
       fst (authenticateToken cfg authHeader ok w) =
       Ok (Respond {| status := 401; res_message := "Invalid token" |}))
  ∧ (∀ authHeader token decoded,
       bearer_token authHeader = Some token → Js.truthy token = true →
       jwt_verify cfg token (JWT_SECRET cfg) = Decoded decoded →
       ok (UserFindById (p_userId decoded)) = true →
       fst (authenticateToken cfg authHeader ok w) =
       match db_users (w_db w) !! p_userId decoded with
       | None =>
           Ok (Respond {| status := 401; res_message := "User not found" |})
       | Some user =>
           Ok (Next {| p_userId := u_id user; p_username := u_username user;
                       p_email := u_email user |})
       end)
  ∧ (∀ auth_token authorization,
       Js.truthy_opt (handshake_token auth_token authorization) = false →
       setupMiddleware cfg auth_token authorization =
       inl "Authentication token required")
  ∧ (∀ auth_token authorization token why,
       handshake_token auth_token authorization = Some token →
       Js.truthy token = true →
       jwt_verify cfg token (JWT_SECRET cfg) = Invalid why →
       setupMiddleware cfg auth_token authorization =
       inl "Invalid authentication token")
  ∧ (∀ auth_token authorization token decoded,
       handshake_token auth_token authorization = Some token →
       Js.truthy token = true →
       jwt_verify cfg token (JWT_SECRET cfg) = Decoded decoded →
       setupMiddleware cfg auth_token authorization =
       inr {| sock_auth_token := auth_token;
              sock_authorization := authorization;
              sock_userId := Some (p_userId decoded);
              sock_username := Some (p_username decoded) |})
  ∧ (∀ sid auth_token authorization message,
       setupMiddleware cfg auth_token authorization = inl message →
       io_sockets (w_svc (snd (connect cfg sid auth_token authorization
                                 ok w))) =
       io_sockets (w_svc w)).
Proof.
  intros Hsecret. repeat split.
  - intros authHeader Hmissing. unfold authenticateToken. unfold_m.
    destruct (bearer_token authHeader) as [token|]; [|done].
    simpl in Hmissing. by rewrite Hmissing.
  - intros authHeader token why Htok Ht Hv. unfold authenticateToken.
    unfold_m. by rewrite Htok, Ht, Hsecret, Hv.
  - intros authHeader token decoded Htok Ht Hv Hfind.
    unfold authenticateToken, User_findById. unfold_m.
    rewrite Htok, Ht, Hsecret, Hv. simpl. rewrite Hfind. simpl.
    by destruct (db_users (w_db w) !! p_userId decoded).
  - intros auth_token authorization Hmissing. unfold setupMiddleware.
    destruct (handshake_token auth_token authorization) as [token|]; [|done].
    simpl in Hmissing. by rewrite Hmissing.
  - intros auth_token authorization token why Htok Ht Hv.
    unfold setupMiddleware. by rewrite Htok, Ht, Hv.
  - intros auth_token authorization token decoded Htok Ht Hv.
    unfold setupMiddleware. by rewrite Htok, Ht, Hv.
  - intros sid auth_token authorization message Hmw.
    by rewrite (proj1 (connect_refused cfg sid auth_token authorization
                         message ok w Hmw)).
Qed.

Lemma gate_rejects_bad_tokens_witness :
  Js.truthy_opt (JWT_SECRET demo_cfg) = true
  ∧ fst (authenticateToken demo_cfg (Some "Bearer token-old") all_ok
           (boot demo_db)) =
    Ok (Respond {| status := 401; res_message := "Invalid token" |})
  ∧ fst (authenticateToken demo_cfg (Some "Bearer token-bob") all_ok
           (boot demo_db)) =
    Ok (Respond {| status := 401; res_message := "User not found" |}).
Proof.
  split; [reflexivity|]. split.
  - exact (proj1 (proj2 (gate_rejects_bad_tokens demo_cfg all_ok
                           (boot demo_db) eq_refl))
             (Some "Bearer token-old") "token-old" TokenExpired
             eq_refl eq_refl eq_refl).
  - exact (proj1 (proj2 (proj2 (gate_rejects_bad_tokens demo_cfg all_ok
                                  (boot demo_db) eq_refl)))
             (Some "Bearer token-bob") "token-bob" bob
             eq_refl eq_refl eq_refl eq_refl).
Defined.

(** ** Who receives [new_message] *)




(** ** Subscriptions and the gate *)

Lemma elem_of_room_sockets_join svc sid room s r :
  s ∈ room_sockets (socket_join sid room svc) r ↔
  (s = sid ∧ r = room) ∨ s ∈ room_sockets svc r.
Proof.
  unfold room_sockets at 1, socket_join. simpl.
  destruct (decide (room = r)) as [->|Hne].
  - rewrite lookup_insert_eq. simpl. rewrite elem_of_union, elem_of_singleton.
    split; [intros [->|Hin]; auto | intros [[-> _]|Hin]; auto].
  - rewrite lookup_insert_ne by done. fold (room_sockets svc r).
    split; [auto | by intros [[_ ->]|Hin]].
Qed.

Lemma elem_of_room_sockets_leave svc sid room s r :
  s ∈ room_sockets (socket_leave sid room svc) r →
  s ∈ room_sockets svc r.
Proof.
  unfold room_sockets at 1, socket_leave. simpl.
  destruct (decide (room = r)) as [->|Hne].
  - rewrite lookup_insert_eq. simpl. rewrite elem_of_difference.
    by intros [? _].
  - by rewrite lookup_insert_ne.
Qed.

Lemma elem_of_room_sockets_close svc sid s r :
  s ∈ room_sockets (socket_close sid svc) r →
  s ∈ room_sockets svc r ∧ s ≠ sid.
Proof.
  unfold room_sockets, socket_close. simpl. rewrite lookup_fmap.
  destruct (io_rooms svc !! r) as [g|]; simpl.
  - by rewrite elem_of_difference, elem_of_singleton.
  - by intros ?%elem_of_empty.
Qed.

Section GateInvariant.

Context (cfg : Config).

Lemma inv_same_sockets svc svc' :
  io_sockets svc' = io_sockets svc → io_rooms svc' = io_rooms svc →
  gate_invariant cfg svc → gate_invariant cfg svc'.
Proof.
  intros Hs Hr [Hrooms Hauth]. unfold gate_invariant, room_sockets.
  rewrite Hs, Hr. by split.
Qed.

Lemma inv_empty svc :
  io_sockets svc = ∅ → io_rooms svc = ∅ → gate_invariant cfg svc.
Proof.
  intros Hs Hr. unfold gate_invariant, room_sockets. rewrite Hs, Hr.
  split.
  - intros sid room. rewrite lookup_empty. simpl.
    by intros ?%elem_of_empty.
  - intros sid sock. by rewrite lookup_empty.
Qed.

Lemma inv_join svc sid room :
  is_Some (io_sockets svc !! sid) →
  gate_invariant cfg svc → gate_invariant cfg (socket_join sid room svc).
Proof.
  intros Hsid [Hrooms Hauth]. split; [|done].
  intros s r [[-> ->] | Hin]%elem_of_room_sockets_join; [done|].
  by apply (Hrooms s r).
Qed.

Lemma inv_leave svc sid room :
  gate_invariant cfg svc → gate_invariant cfg (socket_leave sid room svc).
Proof.
  intros [Hrooms Hauth]. split; [|done].
  intros s r Hin%elem_of_room_sockets_leave. by apply (Hrooms s r).
Qed.

Lemma inv_close svc sid :
  gate_invariant cfg svc → gate_invariant cfg (socket_close sid svc).
Proof.
  intros [Hrooms Hauth]. split.
  - intros s r [Hin Hne]%elem_of_room_sockets_close. simpl.
    rewrite lookup_delete_ne by done. by apply (Hrooms s r).
  - intros s sock. simpl. intros [_ Hs]%lookup_delete_Some.
    by apply (Hauth s).
Qed.

Lemma inv_open svc sid sock :
  authenticated cfg sock →
  gate_invariant cfg svc → gate_invariant cfg (socket_open sid sock svc).
Proof.
  intros Hsock [Hrooms Hauth]. unfold socket_open. apply inv_join.
  - simpl. rewrite lookup_insert_eq. eauto.
  - split; simpl.
    + intros s r Hin. destruct (decide (sid = s)) as [->|Hne].
      * rewrite lookup_insert_eq. eauto.
      * rewrite lookup_insert_ne by done. by apply (Hrooms s r).
    + intros s sock'. destruct (decide (sid = s)) as [->|Hne].
      * rewrite lookup_insert_eq. by intros [= <-].
      * rewrite lookup_insert_ne by done. apply Hauth.
Qed.

(** What the middleware accepts is authenticated. *)
Lemma setupMiddleware_accepts auth_token authorization sock :
  setupMiddleware cfg auth_token authorization = inr sock →
  authenticated cfg sock.
Proof.
  unfold setupMiddleware, authenticated.
  destruct (handshake_token auth_token authorization) as [token|] eqn:Htok;
    [|done].
  destruct (Js.truthy token) eqn:Ht; [|done].
  destruct (jwt_verify cfg token (JWT_SECRET cfg)) as [decoded|] eqn:Hv;
    [|done].
  intros [= <-]. simpl. exists token, decoded. by rewrite Htok.
Qed.

End GateInvariant.

(** The HTTP routes leave the socket service as it is. *)
Lemma sendMessage_svc messageData senderId ok w :
  w_svc (snd (sendMessage messageData senderId ok w)) = w_svc w.
Proof. unfold_send. unfold_m. simpl. by repeat m_branch. Qed.

Lemma joinRoom_svc roomId userId ok w :
  w_svc (snd (joinRoom roomId userId ok w)) = w_svc w.
Proof.
  unfold joinRoom, Room_findById, Room_save. unfold_m. simpl.
  by repeat m_branch.
Qed.

Lemma post_messages_svc cfg authHeader body ok w :
  w_svc (snd (post_messages cfg authHeader body ok w)) = w_svc w.
Proof.
  unfold post_messages, MessageController_sendMessage. unfold bind at 1.
  destruct (authenticateToken_frame cfg authHeader ok w)
    as (_ & _ & Hsvc & _).
  destruct (authenticateToken cfg authHeader ok w) as [[[user|r]|e] w1];
    simpl in *; [|done..].
  destruct (handleValidationErrors _); [|done].
  unfold try_catch, bind, ret.
  pose proof (sendMessage_svc (snd (sendMessageValidation body))
                (p_userId user) ok w1) as Hsend.
  destruct (sendMessage _ _ ok w1) as [[m|e] w2]; simpl in *; congruence.
Qed.

Lemma post_rooms_join_svc cfg authHeader roomId ok w :
  w_svc (snd (post_rooms_join cfg authHeader roomId ok w)) = w_svc w.
Proof.
  unfold post_rooms_join, RoomController_joinRoom. unfold bind at 1.
  destruct (authenticateToken_frame cfg authHeader ok w)
    as (_ & _ & Hsvc & _).
  destruct (authenticateToken cfg authHeader ok w) as [[[user|r]|e] w1];
    simpl in *; [|done..].
  destruct (handleValidationErrors _); [|done].
  unfold try_catch, bind, ret.
  pose proof (joinRoom_svc roomId (p_userId user) ok w1) as Hjoin.
  destruct (joinRoom _ _ ok w1) as [[m|e] w2]; simpl in *; congruence.
Qed.

(** The connection and disconnection handlers only touch the registry. *)
Lemma on_connection_sockets sid sock ok w :
  io_sockets (w_svc (snd (on_connection sid sock ok w))) =
    io_sockets (w_svc w)
  ∧ io_rooms (w_svc (snd (on_connection sid sock ok w))) =
    io_rooms (w_svc w).
Proof.
  unfold on_connection, joinUserRooms.
  destruct (sock_userId sock) as [userId|]; [|done].
  destruct (Js.truthy userId); [|done].
  unfold bind, ret, upd_svc. simpl.
  pose proof (updateUserOnlineStatus_svc userId true ok
                (set_svc w (Registry.register userId sid (w_svc w)))) as H.
  destruct (updateUserOnlineStatus userId true ok _) as [[[]|e] w'];
    simpl in *; by rewrite H.
Qed.

Lemma on_disconnect_sockets sock ok w :
  io_sockets (w_svc (snd (on_disconnect sock ok w))) = io_sockets (w_svc w)
  ∧ io_rooms (w_svc (snd (on_disconnect sock ok w))) = io_rooms (w_svc w).
Proof.
  unfold on_disconnect. destruct (sock_userId sock) as [userId|]; [|done].
  destruct (Js.truthy userId); [|done].
  split; unfold bind at 1, upd_svc; simpl;
    by rewrite updateUserOnlineStatus_svc.
Qed.

Lemma step_preserves_gate_invariant cfg ok w i :
  gate_invariant cfg (w_svc w) →
  gate_invariant cfg (w_svc (step cfg ok w i)).
Proof.
  intros Hinv. unfold step. destruct i as [|sid tok hdr|sid ev|hdr body|hdr r].
  - unfold handle. unfold_m. simpl.
    destruct (io (w_svc w)); simpl; [done|]. by apply inv_empty.
  - unfold handle, connect. unfold bind at 1, get. simpl.
    destruct (io (w_svc w)); [|done].
    destruct (io_sockets (w_svc w) !! sid); [done|].
    destruct (setupMiddleware cfg tok hdr) as [msg|sock] eqn:Hmw; [done|].
    unfold bind, upd_svc. simpl.
    destruct (on_connection_sockets sid sock ok
                (set_svc w (socket_open sid sock (w_svc w)))) as [Hs Hr].
    eapply inv_same_sockets; [exact Hs | exact Hr |]. simpl.
    apply inv_open; [|done]. by eapply setupMiddleware_accepts.
  - unfold handle, dispatch. unfold bind at 1, get. simpl.
    destruct (io_sockets (w_svc w) !! sid) as [sock|] eqn:Hsock; [|done].
    destruct ev as [r|r|data|r|r|].
    + unfold on_join_room, socket_to_emit. unfold_m. simpl.
      apply inv_join; [eauto | done].
    + unfold on_leave_room, socket_to_emit. unfold_m. simpl.
      by apply inv_leave.
    + by rewrite (proj2 (proj2 (on_send_message_frame sid sock data ok w))).
    + done.
    + done.
    + unfold bind at 1, upd_svc. simpl.
      destruct (on_disconnect_sockets sock ok
                  (set_svc w (socket_close sid (w_svc w)))) as [Hs Hr].
      eapply inv_same_sockets; [exact Hs | exact Hr |]. simpl.
      by apply inv_close.
  - unfold handle. unfold bind at 1.
    pose proof (post_messages_svc cfg hdr body ok w) as Hsvc.
    destruct (post_messages cfg hdr body ok w) as [[o|e] w1];
      simpl in *; by rewrite Hsvc.
  - unfold handle. unfold bind at 1.
    pose proof (post_rooms_join_svc cfg hdr r ok w) as Hsvc.
    destruct (post_rooms_join cfg hdr r ok w) as [[o|e] w1];
      simpl in *; by rewrite Hsvc.
Qed.

Lemma reachable_gate_invariant cfg w :
  Reachable cfg w → gate_invariant cfg (w_svc w).
Proof.
  induction 1 as [db|w ok i Hreach IH].
  - by apply inv_empty.
  - by apply step_preserves_gate_invariant.
Qed.

Lemma run_reachable cfg w script :
  Reachable cfg w → Reachable cfg (run cfg w script).
Proof.
  revert w. induction script as [|[ok i] rest IH]; intros w Hw; [done|].
  simpl. apply IH. by constructor.
Qed.

(** C1, as stated, fails: in a reachable world bob's socket is
    subscribed to the private room staff, whose only stored member is
    "u1", its owner, and the store was never asked anything. *)
Lemma subscribed_without_membership_check :
  Reachable demo_cfg eavesdrop_world
  ∧ subscribed eavesdrop_world "s2" staff
  ∧ io_sockets (w_svc eavesdrop_world) !! "s2" = Some bob_socket
  ∧ db_rooms (w_db eavesdrop_world) !! staff =
    Some {| r_name := "staff"; r_isPrivate := true; r_owner := "u1";
            r_members := ["u1"] |}
  ∧ forallb not_store_call (w_log eavesdrop_world) = true.
Proof.
  split.
  { apply reach_step. apply run_reachable. apply reach_boot. }
  split.
  { unfold subscribed.
    replace (room_sockets (w_svc eavesdrop_world) staff)
      with ({["s2"]} : gset string) by (by vm_compute).
    by apply elem_of_singleton. }
  by vm_compute.
Qed.

(** C1, amended. In every reachable world, a socket subscribed to the
    broadcast group of a room is a live socket that the gate validated
    at its handshake: the token it presented verifies against the
    configured secret and the socket carries the identity decoded from
    that token. *)
Theorem subscribed_sockets_passed_the_gate
    (cfg : Config) (w : World) (sid room : string) :
  Reachable cfg w → subscribed w sid room →
  ∃ sock, io_sockets (w_svc w) !! sid = Some sock ∧ authenticated cfg sock.
Proof.
  intros Hreach Hsub.
  destruct (reachable_gate_invariant cfg w Hreach) as [Hrooms Hauth].
  destruct (Hrooms sid room Hsub) as [sock Hsock].
  exists sock. split; [done|]. by apply (Hauth sid).
Qed.

Lemma subscribed_sockets_passed_the_gate_witness :
  subscribed chat_world "s2" general
  ∧ ∃ sock, io_sockets (w_svc chat_world) !! "s2" = Some sock
            ∧ authenticated demo_cfg sock.
Proof.
  assert (subscribed chat_world "s2" general) as Hsub.
  { unfold subscribed.
    replace (room_sockets (w_svc chat_world) general)
      with ({["s1"; "s2"]} : gset string) by (by vm_compute).
    apply elem_of_union_r. by apply elem_of_singleton. }
  split; [exact Hsub|].
  apply (subscribed_sockets_passed_the_gate demo_cfg chat_world "s2" general);
    [|exact Hsub].
  apply run_reachable, reach_boot.
Defined.

(** * Further properties of the code *)

(** ** Leaving and creating rooms *)

Ltac unfold_rooms :=
  unfold createRoom, joinRoom, leaveRoom, Room_findById, Room_save.

Lemma room_pre_save_owner r : r_owner (room_pre_save r) = r_owner r.
Proof. unfold room_pre_save. by case_match. Qed.

Lemma room_pre_save_has_owner r :
  r_owner (room_pre_save r) ∈ r_members (room_pre_save r).
Proof.
  unfold room_pre_save, Js.includes. case_bool_decide; simpl; [done|].
  apply elem_of_app. right. by apply list_elem_of_singleton.
Qed.

Lemma room_pre_save_id r :
  r_owner r ∈ r_members r → room_pre_save r = r.
Proof.
  intros H. unfold room_pre_save, Js.includes. by rewrite bool_decide_eq_true_2.
Qed.

Lemma filter_other_app_singleton (l : list string) (x : string) :
  x ∉ l → filter (λ y, y ≠ x) (l ++ [x]) = l.
Proof.
  induction l as [|y l IH]; intros Hx; simpl.
  - by rewrite filter_cons_False, filter_nil by (by intros H).
  - apply not_elem_of_cons in Hx as [Hne Hx].
    rewrite filter_cons_True by done. by rewrite IH.
Qed.

(** X1. When the store answers, [leaveRoom] throws 'Room not found' for an
    unknown room, 'Room owner cannot leave the room' for the owner and
    'User is not a member of this room' for a non-member, each time
    leaving the stored data unchanged; otherwise it returns 'Left room
    successfully' and saves the room without that user: the owner is
    kept and is still a member, and the membership of every other user
    is unchanged. *)
Theorem leaveRoom_removes_that_member
    (ok : Oracle) (w : World) (roomId userId : string) :
  (∀ c, is_db_call c = true → ok c = true) →
  match db_rooms (w_db w) !! roomId with
  | None =>
      fst (leaveRoom roomId userId ok w) = Throw (Error "Room not found")
      ∧ w_db (snd (leaveRoom roomId userId ok w)) = w_db w
  | Some room =>
      if String.eqb (r_owner room) userId then
        fst (leaveRoom roomId userId ok w) =
          Throw (Error "Room owner cannot leave the room")
        ∧ w_db (snd (leaveRoom roomId userId ok w)) = w_db w
      else if Js.includes userId (r_members room) then
        fst (leaveRoom roomId userId ok w) = Ok "Left room successfully"
        ∧ ∃ saved,
            db_rooms (w_db (snd (leaveRoom roomId userId ok w))) =
              <[roomId := saved]> (db_rooms (w_db w))
            ∧ (userId ∉ r_members saved)
            ∧ r_owner saved = r_owner room
            ∧ r_owner saved ∈ r_members saved
            ∧ ∀ other, other ≠ userId → other ≠ r_owner room →
                (other ∈ r_members saved ↔ other ∈ r_members room)
      else
        fst (leaveRoom roomId userId ok w) =
          Throw (Error "User is not a member of this room")
        ∧ w_db (snd (leaveRoom roomId userId ok w)) = w_db w
  end.
Proof.
  intros Hdb.
  pose proof (Hdb (RoomFindById roomId) eq_refl) as Hfind.
  destruct (db_rooms (w_db w) !! roomId) as [room|] eqn:Hroom.
  - destruct (String.eqb (r_owner room) userId) eqn:Howner.
    { unfold_rooms. unfold_m. simpl. rewrite Hfind. simpl.
      by rewrite Hroom, Howner. }
    destruct (Js.includes userId (r_members room)) eqn:Hmem.
    + pose proof (Hdb (RoomSave roomId
                         (room_pre_save (room_remove_member room userId)))
                    eq_refl) as Hsave.
      unfold_rooms. unfold_m. simpl. rewrite Hfind. simpl.
      rewrite Hroom, Howner, Hmem. simpl. rewrite Hsave. simpl.
      split; [done|].
      exists (room_pre_save (room_remove_member room userId)).
      apply String.eqb_neq in Howner.
      split; [done|]. split; [|split; [|split]].
      * unfold room_pre_save, Js.includes. case_bool_decide; simpl.
        -- rewrite list_elem_of_filter. by intros [? _].
        -- rewrite elem_of_app, list_elem_of_filter, list_elem_of_singleton.
           intros [[? _] | ?]; congruence.
      * by rewrite room_pre_save_owner.
      * apply room_pre_save_has_owner.
      * intros other Hne Hno.
        unfold room_pre_save, Js.includes. case_bool_decide; simpl.
        -- rewrite list_elem_of_filter. tauto.
        -- rewrite elem_of_app, list_elem_of_filter, list_elem_of_singleton.
           simpl. tauto.
    + unfold_rooms. unfold_m. simpl. rewrite Hfind. simpl.
      by rewrite Hroom, Howner, Hmem.
  - unfold_rooms. unfold_m. simpl. rewrite Hfind. simpl. by rewrite Hroom.
Qed.

Lemma leaveRoom_removes_that_member_witness :
  fst (leaveRoom general "u2" all_ok joined_world) = Ok "Left room successfully".
Proof.
  exact (proj1 (leaveRoom_removes_that_member all_ok joined_world general "u2"
                  (fun _ _ => eq_refl))).
Defined.

(** X2. In a room whose owner is among its members, a user who is not a
    member joins and then leaves: the join stores the room with the
    user appended to the member list and returns that room populated,
    the leave succeeds, and the stored data are those before the
    join. *)
Theorem leaveRoom_undoes_joinRoom
    (ok1 ok2 : Oracle) (w : World) (roomId userId : string) (room : IRoom) :
  (∀ c, is_db_call c = true → ok1 c = true) →
  (∀ c, is_db_call c = true → ok2 c = true) →
  db_rooms (w_db w) !! roomId = Some room →
  r_owner room ∈ r_members room →
  userId ∉ r_members room →
  let w1 := snd (joinRoom roomId userId ok1 w) in
  let w2 := snd (leaveRoom roomId userId ok2 w1) in
  fst (joinRoom roomId userId ok1 w) =
    Ok (populate_room (w_db w) (room_push_member room userId))
  ∧ db_rooms (w_db w1) !! roomId = Some (room_push_member room userId)
  ∧ fst (leaveRoom roomId userId ok2 w1) = Ok "Left room successfully"
  ∧ w_db w2 = w_db w.
Proof.
  intros Hdb1 Hdb2 Hroom Howner Huser w1 w2.
  assert (r_owner room ≠ userId) as Hne by (by intros <-).
  assert (Js.includes userId (r_members room) = false) as Hmem
    by (by apply bool_decide_eq_false_2).
  assert (room_pre_save (room_push_member room userId) =
          room_push_member room userId) as Hpre1.
  { apply room_pre_save_id. simpl. apply elem_of_app. by left. }
  assert (room_remove_member (room_push_member room userId) userId = room)
    as Hrem.
  { unfold room_remove_member, room_push_member. simpl.
    rewrite filter_other_app_singleton by done. by destruct room. }
  pose proof (Hdb1 (RoomFindById roomId) eq_refl) as Hf1.
  pose proof (Hdb1 (RoomSave roomId (room_push_member room userId)) eq_refl)
    as Hs1.
  pose proof (Hdb1 (RoomPopulate roomId "owner") eq_refl) as Hp1.
  pose proof (Hdb1 (RoomPopulate roomId "members") eq_refl) as Hp2.
  pose proof (Hdb2 (RoomFindById roomId) eq_refl) as Hf2.
  pose proof (Hdb2 (RoomSave roomId room) eq_refl) as Hs2.
  assert (joinRoom roomId userId ok1 w =
          (Ok (populate_room (w_db w) (room_push_member room userId)),
           add_log
             (add_log
                (set_db
                   (add_log
                      (add_log w (Call (RoomFindById roomId) true))
                      (Call (RoomSave roomId (room_push_member room userId))
                         true))
                   {| db_users := db_users (w_db w);
                      db_rooms :=
                        <[roomId := room_push_member room userId]>
                          (db_rooms (w_db w));
                      db_messages := db_messages (w_db w) |})
                (Call (RoomPopulate roomId "owner") true))
             (Call (RoomPopulate roomId "members") true))) as Hjoin.
  { unfold_rooms. unfold_m. simpl. rewrite Hf1. simpl.
    rewrite Hroom, Hmem. simpl. rewrite Hpre1, Hs1. simpl.
    rewrite Hp1. simpl. by rewrite Hp2. }
  subst w2 w1. rewrite Hjoin. simpl.
  split; [done|]. split; [apply lookup_insert_eq|].
  unfold_rooms. unfold_m. simpl. rewrite Hf2. simpl.
  rewrite lookup_insert_eq. simpl.
  apply String.eqb_neq in Hne. rewrite Hne.
  replace (Js.includes userId (r_members room ++ [userId])) with true.
  2:{ symmetry. apply bool_decide_eq_true_2, elem_of_app. right.
      by apply list_elem_of_singleton. }
  simpl. rewrite Hrem, (room_pre_save_id room Howner), Hs2. simpl.
  split; [done|].
  rewrite insert_insert_eq, (insert_id _ _ _ Hroom). by destruct (w_db w).
Qed.

Lemma leaveRoom_undoes_joinRoom_witness :
  fst (joinRoom general "u2" all_ok (boot team_db)) =
    Ok {| pr_name := "general"; pr_isPrivate := false;
          pr_owner := Some {| ur_id := "u1"; ur_username := "alice" |};
          pr_members := [{| ur_id := "u1"; ur_username := "alice" |};
                         {| ur_id := "u2"; ur_username := "bob" |}] |}
  ∧ w_db (snd (leaveRoom general "u2" all_ok
                 (snd (joinRoom general "u2" all_ok (boot team_db))))) =
    w_db (boot team_db).
Proof.
  assert (r_owner general_room ∈ r_members general_room) as Hin.
  { apply elem_of_cons. by left. }
  assert ("u2" ∉ r_members general_room) as Hout.
  { intros H. by list_cases H. }
  pose proof (leaveRoom_undoes_joinRoom all_ok all_ok (boot team_db)
                general "u2" general_room
                (fun _ _ => eq_refl) (fun _ _ => eq_refl)
                eq_refl Hin Hout) as H.
  split.
  - etrans; [exact (proj1 H) | by vm_compute].
  - exact (proj2 (proj2 (proj2 H))).
Defined.

(** X3. When the store answers, [createRoom] stores under the new id a
    room with the trimmed name, the given privacy flag (public by
    default), the creator as owner and as only member, and returns that
    room populated; the creator can then neither join the room ('User
    is already a member of this room') nor leave it ('Room owner cannot
    leave the room'), and a message the creator sends to it is
    accepted. *)
Theorem createRoom_owner_is_bound
    (ok : Oracle) (w : World) (newId : string) (roomData : CreateRoomDto)
    (ownerId : string) (messageData : CreateMessageDto) :
  (∀ c, is_db_call c = true → ok c = true) →
  dto_room messageData = newId →
  let created := {| r_name := trim (crd_name roomData);
                    r_isPrivate := default false (crd_isPrivate roomData);
                    r_owner := ownerId; r_members := [ownerId] |} in
  let w1 := snd (createRoom newId roomData ownerId ok w) in
  fst (createRoom newId roomData ownerId ok w) =
    Ok (populate_room (w_db w) created)
  ∧ db_rooms (w_db w1) = <[newId := created]> (db_rooms (w_db w))
  ∧ fst (joinRoom newId ownerId ok w1) =
    Throw (Error "User is already a member of this room")
  ∧ fst (leaveRoom newId ownerId ok w1) =
    Throw (Error "Room owner cannot leave the room")
  ∧ fst (sendMessage messageData ownerId ok w1) =
    Ok (new_message w1 messageData ownerId).
Proof.
  intros Hdb Hdto created w1.
  assert (room_pre_save created = created) as Hpre.
  { apply room_pre_save_id. simpl. by apply list_elem_of_singleton. }
  pose proof (Hdb (RoomSave newId created) eq_refl) as Hs.
  pose proof (Hdb (RoomPopulate newId "owner") eq_refl) as Hp1.
  pose proof (Hdb (RoomPopulate newId "members") eq_refl) as Hp2.
  pose proof (Hdb (RoomFindById newId) eq_refl) as Hf.
  assert (createRoom newId roomData ownerId ok w =
          (Ok (populate_room (w_db w) created),
           add_log
             (add_log
                (set_db (add_log w (Call (RoomSave newId created) true))
                   {| db_users := db_users (w_db w);
                      db_rooms := <[newId := created]> (db_rooms (w_db w));
                      db_messages := db_messages (w_db w) |})
                (Call (RoomPopulate newId "owner") true))
             (Call (RoomPopulate newId "members") true))) as Hcreate.
  { unfold_rooms. unfold_m. simpl. fold created. rewrite Hpre, Hs. simpl.
    rewrite Hp1. simpl. by rewrite Hp2. }
  subst w1. rewrite Hcreate. simpl.
  split; [done|]. split; [done|].
  assert (Js.includes ownerId [ownerId] = true) as Hmem.
  { apply bool_decide_eq_true_2. by apply list_elem_of_singleton. }
  split; [|split].
  - unfold_rooms. unfold_m. simpl. rewrite Hf. simpl.
    rewrite lookup_insert_eq. simpl. by rewrite Hmem.
  - unfold_rooms. unfold_m. simpl. rewrite Hf. simpl.
    rewrite lookup_insert_eq. simpl. by rewrite String.eqb_refl.
  - pose proof (Hdb (MessageSave (new_message w messageData ownerId)) eq_refl)
      as Hsave.
    pose proof (Hdb (MessagePopulate (new_message w messageData ownerId)
                       "sender") eq_refl) as Hq1.
    pose proof (Hdb (MessagePopulate (new_message w messageData ownerId)
                       "room") eq_refl) as Hq2.
    unfold new_message in *. simpl in *.
    unfold_send. unfold_m. simpl. rewrite Hdto, Hf. simpl.
    rewrite lookup_insert_eq. simpl. rewrite Hmem. simpl.
    rewrite Hdto in Hsave, Hq1, Hq2.
    rewrite Hsave. simpl. rewrite Hq1. simpl. rewrite Hq2. simpl.
    by repeat m_branch.
Qed.

Lemma createRoom_owner_is_bound_witness :
  fst (createRoom lobby
         {| crd_name := " lobby "; crd_description := None;
            crd_isPrivate := None |} "u1" all_ok (boot demo_db)) =
    Ok {| pr_name := "lobby"; pr_isPrivate := false;
          pr_owner := Some {| ur_id := "u1"; ur_username := "alice" |};
          pr_members := [{| ur_id := "u1"; ur_username := "alice" |}] |}
  ∧ fst (leaveRoom lobby "u1" all_ok
           (snd (createRoom lobby
                   {| crd_name := " lobby "; crd_description := None;
                      crd_isPrivate := None |} "u1" all_ok
                   (boot demo_db)))) =
    Throw (Error "Room owner cannot leave the room").
Proof.
  pose proof (createRoom_owner_is_bound all_ok (boot demo_db) lobby
                {| crd_name := " lobby "; crd_description := None;
                   crd_isPrivate := None |} "u1"
                {| dto_content := "hi"; dto_room := lobby;
                   dto_messageType := None |}
                (fun _ _ => eq_refl) eq_refl) as H.
  split.
  - etrans; [exact (proj1 H) | by vm_compute].
  - exact (proj1 (proj2 (proj2 (proj2 H)))).
Defined.

Lemma rooms_have_owner_insert db users msgs id r :
  rooms_have_owner db →
  rooms_have_owner {| db_users := users;
                      db_rooms := <[id := room_pre_save r]> (db_rooms db);
                      db_messages := msgs |}.
Proof.
  intros Hinv id' r'. simpl. destruct (decide (id = id')) as [->|Hne].
  - rewrite lookup_insert_eq. intros [= <-]. apply room_pre_save_has_owner.
  - rewrite lookup_insert_ne by done. apply Hinv.
Qed.

Lemma rooms_have_owner_same_rooms db db' :
  db_rooms db' = db_rooms db → rooms_have_owner db → rooms_have_owner db'.
Proof. intros Heq Hinv id r. rewrite Heq. apply Hinv. Qed.

(** X4. If the owner of every stored room is among its members, this still
    holds after [createRoom], [joinRoom], [leaveRoom] and [sendMessage],
    whatever the collaborators answer. *)
Theorem services_keep_owner_among_members
    (ok : Oracle) (w : World) :
  rooms_have_owner (w_db w) →
  (∀ newId roomData ownerId,
     rooms_have_owner (w_db (snd (createRoom newId roomData ownerId ok w))))
  ∧ (∀ roomId userId,
       rooms_have_owner (w_db (snd (joinRoom roomId userId ok w))))
  ∧ (∀ roomId userId,
       rooms_have_owner (w_db (snd (leaveRoom roomId userId ok w))))
  ∧ (∀ messageData senderId,
       rooms_have_owner (w_db (snd (sendMessage messageData senderId ok w)))).
Proof.
  intros Hinv. repeat split.
  - intros newId roomData ownerId. unfold_rooms. unfold_m. simpl.
    repeat m_branch; try done; by apply rooms_have_owner_insert.
  - intros roomId userId. unfold_rooms. unfold_m. simpl.
    repeat m_branch; try done; by apply rooms_have_owner_insert.
  - intros roomId userId. unfold_rooms. unfold_m. simpl.
    repeat m_branch; try done; by apply rooms_have_owner_insert.
  - intros messageData senderId.
    unfold_send. unfold_m. simpl.
    repeat m_branch; try done;
      by apply (rooms_have_owner_same_rooms (w_db w)).
Qed.

Lemma demo_db_rooms_have_owner : rooms_have_owner demo_db.
Proof.
  intros id r. unfold demo_db. simpl.
  rewrite lookup_insert_Some, lookup_singleton_Some.
  intros [[_ <-]|[_ [_ <-]]]; simpl; apply elem_of_cons; by left.
Qed.

Lemma services_keep_owner_among_members_witness :
  rooms_have_owner (w_db (snd (joinRoom staff "u2" all_ok (boot demo_db)))).
Proof.
  exact (proj1 (proj2 (services_keep_owner_among_members all_ok (boot demo_db)
                         demo_db_rooms_have_owner)) staff "u2").
Defined.

(** ** The registry over the life of the server *)

Lemma on_connection_registry sid sock ok w :
  w_svc (snd (on_connection sid sock ok w)) =
  match sock_userId sock with
  | Some userId =>
      if Js.truthy userId then Registry.register userId sid (w_svc w)
      else w_svc w
  | None => w_svc w
  end.
Proof.
  destruct (sock_userId sock) as [userId|] eqn:Hu.
  - destruct (Js.truthy userId) eqn:Ht.
    + by apply on_connection_svc.
    + unfold on_connection. by rewrite Hu, Ht.
  - unfold on_connection. by rewrite Hu.
Qed.

Lemma on_disconnect_registry sock ok w :
  w_svc (snd (on_disconnect sock ok w)) =
  match sock_userId sock with
  | Some userId =>
      if Js.truthy userId then Registry.unregister userId (w_svc w)
      else w_svc w
  | None => w_svc w
  end.
Proof.
  destruct (sock_userId sock) as [userId|] eqn:Hu.
  - destruct (Js.truthy userId) eqn:Ht.
    + by apply on_disconnect_svc.
    + unfold on_disconnect. by rewrite Hu, Ht.
  - unfold on_disconnect. by rewrite Hu.
Qed.

(** What each input does to the socket service. *)
Lemma step_svc cfg ok w i :
  w_svc (step cfg ok w i) =
  match i with
  | Initialize => if io (w_svc w) then w_svc w else initialize (w_svc w)
  | Connect sid auth_token authorization =>
      if io (w_svc w) then
        match io_sockets (w_svc w) !! sid with
        | Some _ => w_svc w
        | None =>
            match setupMiddleware cfg auth_token authorization with
            | inl _ => w_svc w
            | inr sock =>
                match sock_userId sock with
                | Some userId =>
                    if Js.truthy userId
                    then Registry.register userId sid
                           (socket_open sid sock (w_svc w))
                    else socket_open sid sock (w_svc w)
                | None => socket_open sid sock (w_svc w)
                end
            end
        end
      else w_svc w
  | FromClient sid ev =>
      match io_sockets (w_svc w) !! sid with
      | None => w_svc w
      | Some sock =>
          match ev with
          | join_room roomId => socket_join sid roomId (w_svc w)
          | leave_room roomId => socket_leave sid roomId (w_svc w)
          | disconnect =>
              match sock_userId sock with
              | Some userId =>
                  if Js.truthy userId
                  then Registry.unregister userId
                         (socket_close sid (w_svc w))
                  else socket_close sid (w_svc w)
              | None => socket_close sid (w_svc w)
              end
          | _ => w_svc w
          end
      end
  | PostMessages _ _ | PostRoomsJoin _ _ => w_svc w
  end.
Proof.
  unfold step. destruct i as [|sid tok hdr|sid ev|hdr body|hdr r].
  - unfold handle. unfold_m. simpl. by destruct (io (w_svc w)).
  - unfold handle, connect. unfold bind at 1, get. simpl.
    destruct (io (w_svc w)); [|done].
    destruct (io_sockets (w_svc w) !! sid); [done|].
    destruct (setupMiddleware cfg tok hdr) as [msg|sock]; [done|].
    unfold bind at 1, upd_svc. simpl.
    by rewrite on_connection_registry.
  - unfold handle, dispatch. unfold bind at 1, get. simpl.
    destruct (io_sockets (w_svc w) !! sid) as [sock|]; [|done].
    destruct ev as [r|r|data|r|r|]; try done.
    + by rewrite (proj2 (proj2 (on_send_message_frame sid sock data ok w))).
    + unfold bind at 1, upd_svc. simpl. by rewrite on_disconnect_registry.
  - unfold handle. unfold bind at 1.
    pose proof (post_messages_svc cfg hdr body ok w) as Hsvc.
    by destruct (post_messages cfg hdr body ok w) as [[o|e] w1].
  - unfold handle. unfold bind at 1.
    pose proof (post_rooms_join_svc cfg hdr r ok w) as Hsvc.
    by destruct (post_rooms_join cfg hdr r ok w) as [[o|e] w1].
Qed.

Lemma step_preserves_registry_invariant cfg ok w i :
  registry_invariant (w_svc w) → registry_invariant (w_svc (step cfg ok w i)).
Proof.
  intros Hinv. pose proof Hinv as [Hoff Hreg]. rewrite step_svc.
  destruct i as [|sid tok hdr|sid ev|hdr body|hdr r]; try done.
  - destruct (io (w_svc w)) eqn:Hio; [done|].
    destruct (Hoff eq_refl) as [Hc Hs]. split; [done|].
    intros userId sid. simpl. by rewrite Hc, lookup_empty.
  - destruct (io (w_svc w)) eqn:Hio; [|done].
    destruct (io_sockets (w_svc w) !! sid) eqn:Hfresh; [done|].
    destruct (setupMiddleware cfg tok hdr) as [msg|sock]; [done|].
    assert (registry_invariant (socket_open sid sock (w_svc w))) as Hopen.
    { split; [simpl; by rewrite Hio|].
      intros userId s Hu. simpl in Hu.
      destruct (Hreg userId s Hu) as (Ht & k & Hk & Hku).
      split; [done|]. exists k. simpl. split; [|done].
      rewrite lookup_insert_ne; [done|]. intros ->. congruence. }
    destruct (sock_userId sock) as [userId|] eqn:Hu; [|done].
    destruct (Js.truthy userId) eqn:Ht; [|done].
    destruct Hopen as [Hoff' Hreg']. split; [simpl; by rewrite Hio|].
    intros u s. simpl. destruct (decide (userId = u)) as [->|Hne].
    + rewrite lookup_insert_eq. intros [= <-]. split; [done|]. exists sock.
      by rewrite lookup_insert_eq.
    + rewrite lookup_insert_ne by done. apply Hreg'.
  - destruct (io_sockets (w_svc w) !! sid) as [sock|] eqn:Hsock; [|done].
    destruct ev as [r|r|data|r|r|]; try done.
    assert (∀ u s, connectedUsers (w_svc w) !! u = Some s →
                   sock_userId sock ≠ Some u →
                   Js.truthy u = true
                   ∧ ∃ k, delete sid (io_sockets (w_svc w)) !! s = Some k
                          ∧ sock_userId k = Some u) as Hkeep.
    { intros u s Hu Hnot. destruct (Hreg u s Hu) as (Ht & k & Hk & Hku).
      split; [done|]. exists k. split; [|done].
      rewrite lookup_delete_ne; [done|]. intros ->. congruence. }
    assert (io (w_svc w) = false → False) as Hon.
    { intros Hio. destruct (Hoff Hio) as [_ Hs]. by rewrite Hs in Hsock. }
    destruct (sock_userId sock) as [userId|] eqn:Hu.
    + destruct (Js.truthy userId) eqn:Ht.
      * split; [by intros ?%Hon|]. intros u s. simpl.
        intros [Hne Hus]%lookup_delete_Some. apply Hkeep; [done|].
        congruence.
      * split; [by intros ?%Hon|]. intros u s. simpl. intros Hus.
        apply Hkeep; [done|]. intros [= ->].
        destruct (Hreg u s Hus) as (Hu' & _). congruence.
    + split; [by intros ?%Hon|]. intros u s. simpl. intros Hus.
      by apply Hkeep.
Qed.

Lemma reachable_registry_invariant cfg w :
  Reachable cfg w → registry_invariant (w_svc w).
Proof.
  induction 1 as [db|w ok i Hreach IH].
  - split; [done|]. intros userId sid. simpl. by rewrite lookup_empty.
  - by apply step_preserves_registry_invariant.
Qed.

(** X5. In every reachable world, a user that [isUserOnline] reports
    online has a registry entry that leads to an open socket of that
    user, and that socket went through the gate. *)
Theorem online_user_has_live_socket
    (cfg : Config) (w : World) (userId : string) :
  Reachable cfg w →
  Registry.isUserOnline (w_svc w) userId = true →
  ∃ sid sock,
    Registry.lookup (w_svc w) userId = Some sid
    ∧ io_sockets (w_svc w) !! sid = Some sock
    ∧ sock_userId sock = Some userId
    ∧ authenticated cfg sock.
Proof.
  intros Hreach Honline.
  apply bool_decide_eq_true in Honline as [sid Hsid].
  destruct (reachable_registry_invariant cfg w Hreach) as [_ Hreg].
  destruct (Hreg userId sid Hsid) as (_ & sock & Hsock & Hu).
  destruct (reachable_gate_invariant cfg w Hreach) as [_ Hauth].
  exists sid, sock. repeat split; try done. by apply (Hauth sid).
Qed.

Lemma online_user_has_live_socket_witness :
  ∃ sid sock,
    Registry.lookup (w_svc chat_world) "u1" = Some sid
    ∧ io_sockets (w_svc chat_world) !! sid = Some sock
    ∧ sock_userId sock = Some "u1"
    ∧ authenticated demo_cfg sock.
Proof.
  apply (online_user_has_live_socket demo_cfg chat_world "u1").
  - apply run_reachable, reach_boot.
  - by vm_compute.
Defined.

Lemma elem_of_room_sockets_close_iff svc sid s r :
  s ∈ room_sockets (socket_close sid svc) r ↔
  s ∈ room_sockets svc r ∧ s ≠ sid.
Proof.
  unfold room_sockets, socket_close. simpl. rewrite lookup_fmap.
  destruct (io_rooms svc !! r) as [g|]; simpl.
  - by rewrite elem_of_difference, elem_of_singleton.
  - split; [by intros ?%elem_of_empty | by intros [?%elem_of_empty _]].
Qed.

Lemma elem_of_room_sockets_leave_iff svc sid room s r :
  s ∈ room_sockets (socket_leave sid room svc) r ↔
  s ∈ room_sockets svc r ∧ ¬ (s = sid ∧ r = room).
Proof.
  unfold room_sockets at 1, socket_leave. simpl.
  destruct (decide (room = r)) as [->|Hne].
  - rewrite lookup_insert_eq. simpl.
    rewrite elem_of_difference, elem_of_singleton. tauto.
  - rewrite lookup_insert_ne by done. fold (room_sockets svc r).
    split; [|tauto]. intros Hin. split; [done|]. by intros [_ ->].
Qed.

(** X6. When two open sockets belong to the same user, the disconnect of
    one of them removes the registry entry of the user: the user is
    reported offline and [emitToUser] to that user emits nothing, while
    the other socket stays open and in the rooms it had joined. *)
Theorem disconnect_of_one_socket_puts_user_offline
    (cfg : Config) (ok ok' : Oracle) (w : World) (s1 s2 userId : string)
    (c1 c2 : Socket) (event : string) (data : Payload) :
  io_sockets (w_svc w) !! s1 = Some c1 →
  io_sockets (w_svc w) !! s2 = Some c2 →
  s1 ≠ s2 →
  sock_userId c1 = Some userId → sock_userId c2 = Some userId →
  Js.truthy userId = true →
  let w' := step cfg ok w (FromClient s1 disconnect) in
  Registry.isUserOnline (w_svc w') userId = false
  ∧ io_sockets (w_svc w') !! s2 = Some c2
  ∧ (∀ room, s2 ∈ room_sockets (w_svc w') room ↔
             s2 ∈ room_sockets (w_svc w) room)
  ∧ trace (emitToUser userId event data) ok' w' = [].
Proof.
  intros H1 H2 Hne Hu1 Hu2 Ht w'.
  assert (w_svc w' =
          Registry.unregister userId (socket_close s1 (w_svc w))) as Hsvc.
  { subst w'. rewrite step_svc. by rewrite H1, Hu1, Ht. }
  assert (Registry.lookup (w_svc w') userId = None) as Hoff.
  { rewrite Hsvc. apply RegistryFacts.lookup_unregister. }
  split.
  { apply bool_decide_eq_false_2. unfold Registry.lookup in Hoff.
    rewrite Hoff. by intros [? ?]. }
  split.
  { rewrite Hsvc. simpl. by rewrite lookup_delete_ne. }
  split.
  { intros room. rewrite Hsvc.
    change (room_sockets (Registry.unregister userId
                            (socket_close s1 (w_svc w))) room)
      with (room_sockets (socket_close s1 (w_svc w)) room).
    rewrite elem_of_room_sockets_close_iff. split; [tauto|].
    intros Hin. split; [done|]. by intros ->. }
  apply trace_app. unfold emitToUser. unfold_m. simpl.
  by rewrite Hoff, app_nil_r.
Qed.

Lemma disconnect_of_one_socket_puts_user_offline_witness :
  Registry.isUserOnline
    (w_svc (step demo_cfg all_ok doubly_connected_world
              (FromClient "s2" disconnect))) "u1" = false
  ∧ io_sockets
      (w_svc (step demo_cfg all_ok doubly_connected_world
                (FromClient "s2" disconnect))) !! "s1" = Some alice_socket.
Proof.
  pose proof (disconnect_of_one_socket_puts_user_offline demo_cfg all_ok all_ok
                doubly_connected_world "s2" "s1" "u1" alice_socket
                alice_socket "hello" (PError "")
                eq_refl eq_refl) as H.
  destruct H as (H1 & H2 & _); try done.
Defined.



(** X8. For an open socket, [join_room] subscribes it to the room and a
    following [leave_room] unsubscribes it; every other subscription,
    the open sockets, the registry and the stored data are as before the
    two events. *)
Theorem leave_room_undoes_join_room
    (cfg : Config) (ok1 ok2 : Oracle) (w : World) (sid roomId : string)
    (sock : Socket) :
  io_sockets (w_svc w) !! sid = Some sock →
  let w1 := step cfg ok1 w (FromClient sid (join_room roomId)) in
  let w2 := step cfg ok2 w1 (FromClient sid (leave_room roomId)) in
  subscribed w1 sid roomId
  ∧ ¬ subscribed w2 sid roomId
  ∧ (∀ other room, (other ≠ sid ∨ room ≠ roomId) →
       (subscribed w1 other room ↔ subscribed w other room)
       ∧ (subscribed w2 other room ↔ subscribed w other room))
  ∧ io_sockets (w_svc w2) = io_sockets (w_svc w)
  ∧ connectedUsers (w_svc w2) = connectedUsers (w_svc w)
  ∧ w_db w2 = w_db w.
Proof.
  intros Hsock w1 w2.
  assert (w_svc w1 = socket_join sid roomId (w_svc w)) as Hs1.
  { subst w1. rewrite step_svc. by rewrite Hsock. }
  assert (w_svc w2 = socket_leave sid roomId (w_svc w1)) as Hs2.
  { subst w2. rewrite step_svc. rewrite Hs1. simpl. by rewrite Hsock. }
  unfold subscribed. rewrite Hs2, Hs1.
  split; [apply elem_of_room_sockets_join; by left|].
  split; [rewrite elem_of_room_sockets_leave_iff; tauto|].
  split.
  { intros other room Hother.
    rewrite elem_of_room_sockets_leave_iff, !elem_of_room_sockets_join.
    tauto. }
  split; [done|]. split; [done|].
  subst w2 w1. unfold step, handle, dispatch, on_join_room, on_leave_room,
    socket_to_emit. unfold_m. simpl. rewrite Hsock. simpl.
  by rewrite Hsock.
Qed.

Lemma leave_room_undoes_join_room_witness :
  ¬ subscribed
      (step demo_cfg all_ok
         (step demo_cfg all_ok chat_world (FromClient "s2" (join_room staff)))
         (FromClient "s2" (leave_room staff))) "s2" staff.
Proof.
  exact (proj1 (proj2 (leave_room_undoes_join_room demo_cfg all_ok all_ok
                         chat_world "s2" staff bob_socket eq_refl))).
Defined.

(** ** Emissions only reach live sockets *)

Lemma appends_trace {A} (m : M A) ok w P e :
  appends m ok w P → e ∈ trace m ok w → P e.
Proof.
  intros (es & Hlog & HP) He. rewrite (trace_app _ _ _ _ Hlog) in He.
  by apply (proj1 (Forall_forall _ _) HP).
Qed.

Lemma appends_weaken {A} (m : M A) ok w (P Q : Effect → Prop) :
  (∀ e, P e → Q e) → appends m ok w P → appends m ok w Q.
Proof.
  intros HPQ (es & Hlog & HP). exists es. split; [done|].
  by apply (Forall_impl _ _ _ HP).
Qed.

(** Closing a goal [appends] once the computation has run. *)
Ltac appends_done :=
  eexists; split;
  [ first [ symmetry; apply app_nil_r
          | rewrite <- ?app_assoc; simpl; reflexivity ]
  | repeat constructor ].

Lemma updateUserOnlineStatus_appends userId isOnline ok w :
  appends (updateUserOnlineStatus userId isOnline) ok w silent.
Proof.
  unfold appends. rewrite updateUserOnlineStatus_log. simpl.
  repeat case_match; eexists; (split; [reflexivity|]); by repeat constructor.
Qed.

Lemma on_connection_appends sid sock ok w :
  appends (on_connection sid sock) ok w silent.
Proof.
  unfold on_connection, joinUserRooms.
  destruct (sock_userId sock) as [userId|];
    [destruct (Js.truthy userId)|]; try (by exists []; rewrite app_nil_r).
  destruct (updateUserOnlineStatus_appends userId true ok
              (set_svc w (Registry.register userId sid (w_svc w))))
    as (es & Hlog & Hes).
  exists es. split; [|done]. unfold bind, ret, upd_svc. simpl.
  by destruct (updateUserOnlineStatus userId true ok _) as [[[]|e] w'].
Qed.

Lemma on_disconnect_appends sock ok w :
  appends (on_disconnect sock) ok w silent.
Proof.
  unfold on_disconnect.
  destruct (sock_userId sock) as [userId|];
    [destruct (Js.truthy userId)|]; try (by exists []; rewrite app_nil_r).
  destruct (updateUserOnlineStatus_appends userId false ok
              (set_svc w (Registry.unregister userId (w_svc w))))
    as (es & Hlog & Hes).
  exists es. split; [|done]. unfold bind, upd_svc. simpl. exact Hlog.
Qed.

Lemma authenticateToken_appends cfg authHeader ok w :
  appends (authenticateToken cfg authHeader) ok w silent.
Proof.
  destruct (authenticateToken_frame cfg authHeader ok w)
    as (_ & _ & _ & es & Hlog & Hes).
  exists es. split; [done|]. apply Forall_forall. intros e He.
  by destruct (Hes e He) as (id & b & ->).
Qed.

(** The emissions of [sendMessage] go to the sockets of the room. *)
Lemma sendMessage_appends messageData senderId ok w :
  appends (sendMessage messageData senderId) ok w
    (λ e, recipients_of e ⊆ room_sockets (w_svc w) (dto_room messageData)).
Proof.
  unfold appends. unfold_send. unfold_m. simpl.
  repeat m_branch; appends_done; simpl; set_solver.
Qed.

Lemma joinRoom_appends roomId userId ok w :
  appends (joinRoom roomId userId) ok w silent.
Proof.
  unfold appends, joinRoom, Room_findById, Room_save. unfold_m. simpl.
  repeat m_branch; appends_done; done.
Qed.

Lemma appends_bind {A B} (m : M A) (k : A → M B) ok w P :
  appends m ok w P →
  (∀ a, fst (m ok w) = Ok a → appends (k a) ok (snd (m ok w)) P) →
  appends (bind m k) ok w P.
Proof.
  intros (es1 & Hlog1 & H1) Hk. unfold appends, bind.
  destruct (m ok w) as [[a|e] w1]; simpl in *.
  - destruct (Hk a eq_refl) as (es2 & Hlog2 & H2).
    exists (es1 ++ es2). split.
    + by rewrite Hlog2, Hlog1, app_assoc.
    + by apply Forall_app.
  - by exists es1.
Qed.

Lemma appends_ret {A} (a : A) ok w P : appends (ret a) ok w P.
Proof. exists []. split; [by rewrite app_nil_r | constructor]. Qed.

Lemma appends_try_catch_ret {A} (m : M A) (h : Exn → A) ok w P :
  appends m ok w P →
  appends (try_catch m (λ e, ret (h e))) ok w P.
Proof.
  intros (es & Hlog & H). exists es. split; [|done].
  unfold try_catch, ret. by destruct (m ok w) as [[a|e] w1].
Qed.

Lemma silent_to_live w e : silent e → to_live w e.
Proof.
  destruct e; try done; intros _ sid Hsid; by apply elem_of_empty in Hsid.
Qed.

Lemma post_messages_appends cfg authHeader body ok w :
  gate_invariant cfg (w_svc w) →
  appends (post_messages cfg authHeader body) ok w (to_live w).
Proof.
  intros [Hrooms _]. unfold post_messages. apply appends_bind.
  { eapply appends_weaken; [apply silent_to_live|].
    apply authenticateToken_appends. }
  intros [user|r] Hgate; [|apply appends_ret].
  destruct (handleValidationErrors _); [|apply appends_ret].
  destruct (authenticateToken_frame cfg authHeader ok w)
    as (_ & _ & Hsvc & _).
  unfold MessageController_sendMessage.
  apply (appends_try_catch_ret _ NextError).
  apply appends_bind; [|intros; apply appends_ret].
  eapply appends_weaken; [|apply sendMessage_appends].
  intros e He sid Hsid. apply He in Hsid. rewrite Hsvc in Hsid.
  by apply (Hrooms sid (dto_room (snd (sendMessageValidation body)))).
Qed.

Lemma post_rooms_join_appends cfg authHeader roomId ok w :
  appends (post_rooms_join cfg authHeader roomId) ok w (to_live w).
Proof.
  unfold post_rooms_join. apply appends_bind.
  { eapply appends_weaken; [apply silent_to_live|].
    apply authenticateToken_appends. }
  intros [user|r] Hgate; [|apply appends_ret].
  destruct (handleValidationErrors _); [|apply appends_ret].
  unfold RoomController_joinRoom.
  apply (appends_try_catch_ret _ NextError).
  apply appends_bind; [|intros; apply appends_ret].
  eapply appends_weaken; [|apply joinRoom_appends].
  intros e He. by apply silent_to_live.
Qed.

Lemma dispatch_appends cfg sid ev ok w :
  gate_invariant cfg (w_svc w) →
  appends (dispatch sid ev) ok w (to_live w).
Proof.
  intros [Hrooms _]. unfold dispatch. unfold bind at 1, get. unfold appends.
  simpl. destruct (io_sockets (w_svc w) !! sid) as [sock|] eqn:Hsock;
    [|by exists []; rewrite app_nil_r].
  assert (∀ room s, s ∈ room_sockets (w_svc w) room ∖ {[sid]} →
                    is_Some (io_sockets (w_svc w) !! s)) as Hothers.
  { intros room s [Hin _]%elem_of_difference. by apply (Hrooms s room). }
  destruct ev as [r|r|data|r|r|].
  - unfold on_join_room, socket_to_emit. unfold_m. simpl.
    eexists [_]. split; [done|]. constructor; [|constructor].
    intros s [Hin Hne]%elem_of_difference.
    apply elem_of_room_sockets_join in Hin as [[-> _]|Hin].
    + exfalso. by apply Hne, elem_of_singleton.
    + by apply (Hrooms s r).
  - unfold on_leave_room, socket_to_emit. unfold_m. simpl.
    eexists [_]. split; [done|]. constructor; [|constructor].
    intros s [Hin Hne]%elem_of_difference.
    apply elem_of_room_sockets_leave in Hin. by apply (Hrooms s r).
  - pose proof (on_send_message_trace sid sock data ok w) as Htrace.
    simpl in Htrace. unfold trace in Htrace.
    assert (∃ es, w_log (snd (on_send_message sid sock data ok w)) =
                  w_log w ++ es) as [es Hlog].
    { unfold on_send_message, socket_to_emit, socket_emit. unfold_m. simpl.
      repeat m_branch; eexists; rewrite <- ?app_assoc; simpl; reflexivity. }
    exists es. split; [done|]. rewrite Hlog, drop_app_length in Htrace.
    rewrite Htrace. destruct (ok _); repeat constructor;
      try (intros s Hs; by apply elem_of_empty in Hs).
    + intros s Hs. by apply (Hothers (sd_roomId data)).
    + intros s Hs. simpl in Hs. apply elem_of_singleton in Hs as ->. eauto.
  - unfold on_typing, socket_to_emit. unfold_m. simpl.
    eexists [_]. split; [done|]. constructor; [|constructor].
    intros s Hs. by apply (Hothers r).
  - unfold on_typing, socket_to_emit. unfold_m. simpl.
    eexists [_]. split; [done|]. constructor; [|constructor].
    intros s Hs. by apply (Hothers r).
  - unfold bind, upd_svc. simpl.
    destruct (on_disconnect_appends sock ok
                (set_svc w (socket_close sid (w_svc w)))) as (es & Hlog & Hes).
    exists es. split; [exact Hlog|].
    apply (Forall_impl _ _ _ Hes). intros e He. by apply silent_to_live.
Qed.

Lemma connect_appends cfg sid tok hdr ok w :
  appends (connect cfg sid tok hdr) ok w (to_live w).
Proof.
  unfold connect. unfold bind at 1, get. unfold appends. simpl.
  destruct (io (w_svc w)); [|by exists []; rewrite app_nil_r].
  destruct (io_sockets (w_svc w) !! sid);
    [by exists []; rewrite app_nil_r|].
  destruct (setupMiddleware cfg tok hdr) as [msg|sock].
  - unfold log. simpl. eexists [_]. split; [done|].
    repeat constructor. intros s Hs. by apply elem_of_empty in Hs.
  - unfold bind, upd_svc. simpl.
    destruct (on_connection_appends sid sock ok
                (set_svc w (socket_open sid sock (w_svc w))))
      as (es & Hlog & Hes).
    exists es. split; [exact Hlog|].
    apply (Forall_impl _ _ _ Hes). intros e He. by apply silent_to_live.
Qed.

(** X9. In a reachable world, whatever input is handled and whatever the
    collaborators answer, every recipient of every emission is a socket
    that is open when the input arrives. *)
Theorem emissions_reach_live_sockets
    (cfg : Config) (w : World) (ok : Oracle) (i : Input)
    (recipients : gset string) (event : string) (data : Payload)
    (sid : string) :
  Reachable cfg w →
  Emit recipients event data ∈ trace (handle cfg i) ok w →
  sid ∈ recipients →
  is_Some (io_sockets (w_svc w) !! sid).
Proof.
  intros Hreach He Hsid.
  pose proof (reachable_gate_invariant cfg w Hreach) as Hinv.
  assert (appends (handle cfg i) ok w (to_live w)) as Happ.
  { destruct i as [|s tok hdr|s ev|hdr body|hdr r]; unfold handle.
    - unfold appends. unfold_m. simpl.
      destruct (io (w_svc w)); exists []; by rewrite app_nil_r.
    - apply connect_appends.
    - by apply (dispatch_appends cfg).
    - apply appends_bind; [by apply post_messages_appends|].
      intros; apply appends_ret.
    - apply appends_bind; [by apply post_rooms_join_appends|].
      intros; apply appends_ret. }
  by apply (appends_trace _ _ _ _ _ Happ He sid).
Qed.

Lemma emissions_reach_live_sockets_witness :
  is_Some (io_sockets (w_svc chat_world) !! "s2").
Proof.
  apply (emissions_reach_live_sockets demo_cfg chat_world all_ok
           (FromClient "s1" (send_message hi_data))
           (room_sockets (w_svc chat_world) general ∖ {["s1"]})
           "new_message"
           (PSocketMessage general "hi" "text" (Some "u1") (Some "alice"))).
  - apply run_reachable, reach_boot.
  - apply (list_elem_of_lookup_2 _ 1). by vm_compute.
  - replace (room_sockets (w_svc chat_world) general)
      with ({["s1"; "s2"]} : gset string) by (by vm_compute).
    apply elem_of_difference. split.
    + apply elem_of_union_r. by apply elem_of_singleton.
    + by intros ?%elem_of_singleton.
Defined.

(** ** Edges of the HTTP send *)

(** X10. While the socket.io server has not been initialised,
    [sendMessage] emits nothing to any socket; when the room is found,
    the sender is a member and every call resolves, the message is still
    saved, populated, published to Redis and returned, and it is
    published to both queues when the sender has a user document and to
    neither when it has none: the read of the populated sender then
    throws inside the [try] and leaves a console line. *)
Theorem sendMessage_without_server_emits_nothing
    (ok : Oracle) (w : World) (messageData : CreateMessageDto)
    (senderId : string) :
  io (w_svc w) = false →
  (∀ e, e ∈ trace (sendMessage messageData senderId) ok w →
        is_emit e = false)
  ∧ (∀ room,
       (∀ c, ok c = true) →
       db_rooms (w_db w) !! dto_room messageData = Some room →
       Js.includes senderId (r_members room) = true →
       let message := new_message w messageData senderId in
       fst (sendMessage messageData senderId ok w) = Ok message
       ∧ trace (sendMessage messageData senderId) ok w =
         [Call (RoomFindById (dto_room messageData)) true;
          Call (MessageSave message) true;
          Call (MessagePopulate message "sender") true;
          Call (MessagePopulate message "room") true;
          Call (RedisPublish ("room:" +:+ m_room message)
                  (BRedisMessage "new_message" (m_room message) message))
            true]
         ++ match db_users (w_db w) !! senderId with
            | Some _ =>
                [Call (QueuePublish "message_processing"
                         (BMessageSent message)) true;
                 Call (QueuePublish "message_logging" (BLogMessage message))
                   true]
            | None => [ConsoleError "Error publishing message to RabbitMQ:"]
            end).
Proof.
  intros Hio. split.
  - intros e. unfold trace. unfold_send. unfold_m. simpl.
    repeat m_branch; try congruence; trace_done; intros He;
      by list_cases He.
  - intros room Hok Hroom Hmem message. subst message. unfold trace.
    unfold_send. unfold_m. simpl.
    repeat (progress (rewrite ?Hok, ?Hroom, ?Hmem, ?Hio; simpl)).
    destruct (db_users (w_db w) !! senderId); simpl;
      repeat (progress (rewrite ?Hok, ?Hroom; simpl)); by trace_done.
Qed.

Lemma sendMessage_without_server_emits_nothing_witness :
  let message := {| m_id := 0; m_content := "hi"; m_sender := "u2";
                    m_room := general; m_messageType := "text" |} in
  trace (sendMessage hi "u2") all_ok joined_world =
  [Call (RoomFindById general) true;
   Call (MessageSave message) true;
   Call (MessagePopulate message "sender") true;
   Call (MessagePopulate message "room") true;
   Call (RedisPublish ("room:" +:+ general)
           (BRedisMessage "new_message" general message)) true;
   ConsoleError "Error publishing message to RabbitMQ:"].
Proof.
  pose proof (proj2 (sendMessage_without_server_emits_nothing all_ok
                       joined_world hi "u2" eq_refl)
                {| r_name := "general"; r_isPrivate := false;
                   r_owner := "u1"; r_members := ["u1"; "u2"] |}
                (fun _ => eq_refl) eq_refl eq_refl) as H.
  intros message. etrans; [exact (proj2 H) | by vm_compute].
Defined.

(** X11. When the room is found, the sender is a member and the save
    resolves but one of the two populates is rejected, [sendMessage]
    throws that rejection, the message stays stored, and nothing was
    emitted or published. *)
Theorem sendMessage_populate_failure_keeps_the_message
    (ok : Oracle) (w : World) (messageData : CreateMessageDto)
    (senderId : string) (room : IRoom) (path : string) :
  ok (RoomFindById (dto_room messageData)) = true →
  db_rooms (w_db w) !! dto_room messageData = Some room →
  Js.includes senderId (r_members room) = true →
  let message := new_message w messageData senderId in
  ok (MessageSave message) = true →
  (path = "sender" ∨ path = "room") →
  ok (MessagePopulate message path) = false →
  (path = "room" → ok (MessagePopulate message "sender") = true) →
  fst (sendMessage messageData senderId ok w) =
    Throw (Rejected (MessagePopulate message path))
  ∧ db_messages (w_db (snd (sendMessage messageData senderId ok w))) =
    db_messages (w_db w) ++ [message]
  ∧ ∀ e, e ∈ trace (sendMessage messageData senderId) ok w →
         is_fanout e = false.
Proof.
  intros Hfind Hroom Hmem message Hsave Hpath Hrej Hfirst.
  subst message. unfold trace, new_message in *. simpl in *.
  destruct Hpath as [-> | ->].
  - unfold_send. unfold_m. simpl. rewrite Hfind. simpl.
    rewrite Hroom, Hmem. simpl. rewrite Hsave. simpl. rewrite Hrej. simpl.
    split; [done|]. split; [done|]. trace_done.
    intros e He. by list_cases He.
  - specialize (Hfirst eq_refl).
    unfold_send. unfold_m. simpl. rewrite Hfind. simpl.
    rewrite Hroom, Hmem. simpl. rewrite Hsave. simpl. rewrite Hfirst. simpl.
    rewrite Hrej. simpl.
    split; [done|]. split; [done|]. trace_done.
    intros e He. by list_cases He.
Qed.

Lemma sendMessage_populate_failure_keeps_the_message_witness :
  fst (sendMessage hi "u1" populate_rejected chat_world) =
    Throw (Rejected (MessagePopulate (new_message chat_world hi "u1")
                       "sender"))
  ∧ db_messages (w_db (snd (sendMessage hi "u1" populate_rejected
                              chat_world))) =
    db_messages (w_db chat_world) ++ [new_message chat_world hi "u1"].
Proof.
  refine (let H := sendMessage_populate_failure_keeps_the_message
                     populate_rejected chat_world hi "u1" general_room
                     "sender" eq_refl eq_refl eq_refl eq_refl
                     (or_introl eq_refl) eq_refl _ in
          conj (proj1 H) (proj1 (proj2 H))).
  by intros [=].
Defined.

(** ** What POST /messages hands to the service and stores *)

Lemma ltrim_spaces s :
  forallb isSpace (String.list_ascii_of_string s) = true → ltrim s = "".
Proof.
  induction s as [|c s IH]; simpl; [done|].
  intros [Hc Hs]%andb_true_iff. rewrite Hc. by apply IH.
Qed.

Lemma ltrim_cases (P : string → Prop) :
  (∀ s, no_lead s → P s) →
  (∀ c1 r1, isSpace c1 = true → P r1 → P (String c1 r1)) →
  (∀ c1 c2 r2, isSpace c1 = false → isSpace2 c1 c2 = true → P r2 →
     P (String c1 (String c2 r2))) →
  (∀ c1 c2 c3 r3, isSpace c1 = false → isSpace2 c1 c2 = false →
     isSpace3 c1 c2 c3 = true → P r3 →
     P (String c1 (String c2 (String c3 r3)))) →
  ∀ s, P s.
Proof.
  intros Hstuck H1 H2 H3.
  assert (∀ n s, String.length s ≤ n → P s) as Hind.
  { induction n as [|n IH]; intros s Hn.
    { destruct s; [by apply Hstuck | simpl in Hn; lia]. }
    destruct s as [|c1 r1]; [by apply Hstuck|]. simpl in Hn.
    destruct (isSpace c1) eqn:E1; [apply H1; [done|]; apply IH; lia|].
    destruct r1 as [|c2 r2]; [by apply Hstuck|]. simpl in Hn.
    destruct (isSpace2 c1 c2) eqn:E2; [apply H2; [done..|]; apply IH; lia|].
    destruct r2 as [|c3 r3]; [by apply Hstuck|]. simpl in Hn.
    destruct (isSpace3 c1 c2 c3) eqn:E3; [|by apply Hstuck].
    apply H3; [done..|]. apply IH; lia. }
  intros s. by apply (Hind (String.length s)).
Qed.

Lemma ltrim_id s : no_lead s → ltrim s = s.
Proof.
  destruct s as [|c1 [|c2 [|c3 r3]]]; simpl; [done|..].
  - by intros [-> _].
  - by intros (-> & -> & _).
  - by intros (-> & -> & ->).
Qed.

Lemma ltrim_space c1 r1 : isSpace c1 = true → ltrim (String c1 r1) = ltrim r1.
Proof. simpl. by intros ->. Qed.

Lemma ltrim_space2 c1 c2 r2 :
  isSpace c1 = false → isSpace2 c1 c2 = true →
  ltrim (String c1 (String c2 r2)) = ltrim r2.
Proof. simpl. by intros -> ->. Qed.

Lemma ltrim_space3 c1 c2 c3 r3 :
  isSpace c1 = false → isSpace2 c1 c2 = false → isSpace3 c1 c2 c3 = true →
  ltrim (String c1 (String c2 (String c3 r3))) = ltrim r3.
Proof. simpl. by intros -> -> ->. Qed.

Lemma ltrim_no_lead s : no_lead (ltrim s).
Proof.
  induction s as [s Hs|c1 r1 E1 IH|c1 c2 r2 E1 E2 IH|c1 c2 c3 r3 E1 E2 E3 IH]
    using ltrim_cases.
  - by rewrite ltrim_id.
  - by rewrite ltrim_space.
  - by rewrite ltrim_space2.
  - by rewrite ltrim_space3.
Qed.

Lemma ltrim_suffix s : ∃ p, s = p +:+ ltrim s.
Proof.
  induction s as [s Hs|c1 r1 E1 [p IH]|c1 c2 r2 E1 E2 [p IH]
                 |c1 c2 c3 r3 E1 E2 E3 [p IH]] using ltrim_cases.
  - exists "". by rewrite ltrim_id.
  - exists (String c1 p). rewrite ltrim_space by done. by rewrite IH at 1.
  - exists (String c1 (String c2 p)). rewrite ltrim_space2 by done.
    by rewrite IH at 1.
  - exists (String c1 (String c2 (String c3 p))).
    rewrite ltrim_space3 by done. by rewrite IH at 1.
Qed.

Lemma blank_app p w : blank p = true → ltrim (p +:+ w) = ltrim w.
Proof.
  unfold blank.
  induction p as [s Hs|c1 r1 E1 IH|c1 c2 r2 E1 E2 IH|c1 c2 c3 r3 E1 E2 E3 IH]
    using ltrim_cases.
  - rewrite ltrim_id by done. by destruct s.
  - rewrite ltrim_space by done. intros H.
    change (String c1 r1 +:+ w) with (String c1 (r1 +:+ w)).
    rewrite ltrim_space by done. by apply IH.
  - rewrite ltrim_space2 by done. intros H.
    change (String c1 (String c2 r2) +:+ w)
      with (String c1 (String c2 (r2 +:+ w))).
    rewrite ltrim_space2 by done. by apply IH.
  - rewrite ltrim_space3 by done. intros H.
    change (String c1 (String c2 (String c3 r3)) +:+ w)
      with (String c1 (String c2 (String c3 (r3 +:+ w)))).
    rewrite ltrim_space3 by done. by apply IH.
Qed.

Lemma rtrim_cons c rest :
  rtrim (String c rest) =
  if blank (String c rest) then EmptyString else String c (rtrim rest).
Proof. done. Qed.

Lemma rtrim_split s : ∃ w, s = rtrim s +:+ w ∧ blank w = true.
Proof.
  induction s as [|c rest [w [IH Hw]]]; [by exists ""|].
  rewrite rtrim_cons. destruct (blank (String c rest)) eqn:Hb.
  - by exists (String c rest).
  - exists w. split; [|done]. by rewrite IH at 1.
Qed.

Lemma blank_app_blank p w :
  blank p = true → blank w = true → blank (p +:+ w) = true.
Proof. intros Hp Hw. unfold blank. by rewrite blank_app. Qed.

Lemma rtrim_idemp s : rtrim (rtrim s) = rtrim s.
Proof.
  induction s as [|c rest IH]; [done|].
  rewrite rtrim_cons. destruct (blank (String c rest)) eqn:Hb; [done|].
  rewrite rtrim_cons, IH.
  destruct (blank (String c (rtrim rest))) eqn:Hb'; [|done].
  destruct (rtrim_split rest) as (w & Hrest & Hw).
  rewrite Hrest in Hb.
  change (String c (rtrim rest +:+ w)) with (String c (rtrim rest) +:+ w) in Hb.
  by rewrite blank_app_blank in Hb.
Qed.

Lemma no_lead_not_blank c rest :
  no_lead (String c rest) → blank (String c rest) = false.
Proof. intros H. unfold blank. by rewrite ltrim_id. Qed.

Lemma rtrim_no_lead s : no_lead s → no_lead (rtrim s).
Proof.
  intros Hs. destruct s as [|c1 r1]; [done|].
  rewrite rtrim_cons, no_lead_not_blank by done.
  destruct Hs as [E1 Hs]. split; [done|].
  destruct r1 as [|c2 r2]; [done|].
  rewrite rtrim_cons. destruct (blank (String c2 r2)); [done|].
  destruct Hs as [E2 Hs]. split; [done|].
  destruct r2 as [|c3 r3]; [done|].
  rewrite rtrim_cons. by destruct (blank (String c3 r3)).
Qed.

Lemma trim_idemp s : trim (trim s) = trim s.
Proof.
  unfold trim. rewrite (ltrim_id (rtrim (ltrim s))).
  - apply rtrim_idemp.
  - apply rtrim_no_lead, ltrim_no_lead.
Qed.

Lemma charCount_cons c s : charCount s ≤ charCount (String c s).
Proof. simpl. destruct (_ || _); lia. Qed.

Lemma charCount_app_r p s : charCount s ≤ charCount (p +:+ s).
Proof.
  induction p as [|c p IH]; [done|].
  etrans; [exact IH|]. apply charCount_cons.
Qed.

Lemma blank_lead w :
  blank w = true →
  match w with
  | String c _ => isSpaceLead c = true
  | EmptyString => True
  end.
Proof.
  destruct w as [|c1 r1]; [done|]. unfold blank, isSpaceLead. simpl.
  destruct (isSpace c1) eqn:E1; [done|].
  destruct r1 as [|c2 r2]; [done|].
  destruct (isSpace2 c1 c2) eqn:E2.
  { intros _. unfold isSpace2 in E2. apply andb_true_iff in E2 as [-> _].
    simpl. by rewrite ?orb_true_r. }
  destruct r2 as [|c3 r3]; [done|].
  destruct (isSpace3 c1 c2 c3) eqn:E3; [|done].
  intros _. unfold isSpace3 in E3.
  repeat (apply orb_true_iff in E3 as [E3|E3]);
    repeat (apply andb_true_iff in E3 as [E3 ?]);
    rewrite E3; simpl; by rewrite ?orb_true_r.
Qed.

Lemma isSpaceLead_not_selector c :
  isSpaceLead c = true →
  (Ascii.nat_of_ascii c =? 184)%nat = false
  ∧ (Ascii.nat_of_ascii c =? 142)%nat = false
  ∧ (Ascii.nat_of_ascii c =? 143)%nat = false.
Proof.
  unfold isSpaceLead, isSpace. intros H.
  rewrite !orb_true_iff, !andb_true_iff, !Nat.eqb_eq, !Nat.leb_le in H.
  rewrite !Nat.eqb_neq. lia.
Qed.

Lemma charCount_app_blank u w :
  blank w = true → charCount u ≤ charCount (u +:+ w).
Proof.
  intros Hw. apply blank_lead in Hw.
  induction u as [|c1 u IH]; [simpl; lia|].
  change (String c1 u +:+ w) with (String c1 (u +:+ w)).
  cbn [charCount].
  assert (isVariationSelector (String c1 (u +:+ w)) =
          isVariationSelector (String c1 u)) as ->.
  { destruct u as [|c2 [|c3 u]]; [| |done].
    - destruct w as [|d1 [|d2 w]]; [done..|].
      apply isSpaceLead_not_selector in Hw as (Hw & _ & _).
      simpl. by rewrite Hw, ?andb_false_r.
    - destruct w as [|d1 w]; [done|].
      apply isSpaceLead_not_selector in Hw as (_ & Hw1 & Hw2).
      simpl. by rewrite Hw1, Hw2, ?andb_false_r. }
  destruct (_ || _); lia.
Qed.

Lemma charCount_trim s : charCount (trim s) ≤ charCount s.
Proof.
  unfold trim. destruct (ltrim_suffix s) as [p Hp].
  destruct (rtrim_split (ltrim s)) as (w & Hsplit & Hw).
  etrans; [apply (charCount_app_blank _ w Hw)|].
  rewrite <- Hsplit. rewrite Hp at 2. apply charCount_app_r.
Qed.

Lemma sendMessageValidation_passes body :
  handleValidationErrors (fst (sendMessageValidation body)) = Next tt →
  isLength 1 2000 (dto_content body) = true
  ∧ isMongoId (dto_room body) = true
  ∧ match dto_messageType body with
    | Some t => isIn ["text"; "image"; "file"] t = true
    | None => True
    end.
Proof.
  unfold sendMessageValidation, check. simpl.
  destruct (isLength 1 2000 (dto_content body)); [|done].
  destruct (isMongoId (dto_room body)); [|done].
  destruct (dto_messageType body) as [t|]; [|done].
  by destruct (isIn _ t).
Qed.

Lemma sendMessageValidation_passes_iff body :
  handleValidationErrors (fst (sendMessageValidation body)) = Next tt ↔
  isLength 1 2000 (dto_content body) = true
  ∧ isMongoId (dto_room body) = true
  ∧ match dto_messageType body with
    | Some t => isIn ["text"; "image"; "file"] t = true
    | None => True
    end.
Proof.
  split; [apply sendMessageValidation_passes|].
  unfold sendMessageValidation, check. simpl.
  intros (-> & -> & Ht). destruct (dto_messageType body); [|done].
  by rewrite Ht.
Qed.

(** A request the gate and the validators let through. *)
Lemma post_messages_valid_run cfg authHeader body ok w user :
  fst (authenticateToken cfg authHeader ok w) = Ok (Next user) →
  handleValidationErrors (fst (sendMessageValidation body)) = Next tt →
  post_messages cfg authHeader body ok w =
  MessageController_sendMessage user (snd (sendMessageValidation body)) ok
    (snd (authenticateToken cfg authHeader ok w)).
Proof.
  intros Hgate Hv. unfold post_messages. rewrite Hv. unfold bind at 1.
  destruct (authenticateToken cfg authHeader ok w) as [[g|e] w1];
    simpl in *; by simplify_eq.
Qed.

(** Where the gate lets a request through, it found the user. *)
Lemma authenticateToken_next cfg authHeader ok w user :
  fst (authenticateToken cfg authHeader ok w) = Ok (Next user) →
  ∃ decoded stored,
    db_users (w_db w) !! p_userId decoded = Some stored
    ∧ p_userId user = u_id stored.
Proof.
  unfold authenticateToken, User_findById. unfold_m. simpl.
  repeat gate_branch; intros H; simplify_eq; eauto.
Qed.

(** What [sendMessage] does to the stored data. *)
Lemma sendMessage_db messageData senderId ok w :
  db_users (w_db (snd (sendMessage messageData senderId ok w))) =
    db_users (w_db w)
  ∧ db_rooms (w_db (snd (sendMessage messageData senderId ok w))) =
    db_rooms (w_db w)
  ∧ (db_messages (w_db (snd (sendMessage messageData senderId ok w))) =
       db_messages (w_db w)
     ∨ db_messages (w_db (snd (sendMessage messageData senderId ok w))) =
         db_messages (w_db w) ++ [new_message w messageData senderId]
       ∧ ∃ room, db_rooms (w_db w) !! dto_room messageData = Some room
                 ∧ senderId ∈ r_members room).
Proof.
  unfold_send. unfold_m. simpl.
  repeat m_branch; (split; [done|]; split; [done|]).
  all: try (by left).
  all: right; split; [done|]; simplify_eq; eexists; split; [done|].
  all: match goal with
       | H : negb (Js.includes _ _) = false |- _ =>
           apply negb_false_iff in H; unfold Js.includes in H;
           by apply bool_decide_eq_true in H
       end.
Qed.

Lemma MessageController_sendMessage_db user body ok w :
  w_db (snd (MessageController_sendMessage user body ok w)) =
  w_db (snd (sendMessage body (p_userId user) ok w)).
Proof.
  unfold MessageController_sendMessage, try_catch, bind, ret.
  by destruct (sendMessage body (p_userId user) ok w) as [[m|e] w2].
Qed.

Lemma post_messages_db cfg authHeader body ok w :
  w_db (snd (post_messages cfg authHeader body ok w)) = w_db w
  ∨ ∃ user,
      fst (authenticateToken cfg authHeader ok w) = Ok (Next user)
      ∧ handleValidationErrors (fst (sendMessageValidation body)) = Next tt
      ∧ w_db (snd (post_messages cfg authHeader body ok w)) =
        w_db (snd (sendMessage (snd (sendMessageValidation body))
                     (p_userId user) ok
                     (snd (authenticateToken cfg authHeader ok w)))).
Proof.
  destruct (authenticateToken_frame cfg authHeader ok w)
    as ([g Hg] & Hdb & _ & _).
  destruct g as [user|r].
  - destruct (handleValidationErrors (fst (sendMessageValidation body)))
      as [[]|r] eqn:Hv.
    + right. exists user. split; [done|]. split; [done|].
      rewrite (post_messages_valid_run _ _ _ _ _ user) by done.
      apply MessageController_sendMessage_db.
    + left. unfold post_messages, bind. rewrite Hv.
      destruct (authenticateToken cfg authHeader ok w) as [[x|e] w1];
        simpl in *; by simplify_eq.
  - left. unfold post_messages, bind.
    destruct (authenticateToken cfg authHeader ok w) as [[x|e] w1];
      simpl in *; by simplify_eq.
Qed.

(** X12. POST /messages never changes users or rooms, and stores either
    nothing or exactly one message: its content is the content of the
    body without the JavaScript white space around it and at most 2000
    characters long in the count of the validator, its type is text,
    image or file, its room is the room of the body, a well-formed id of
    a stored room, and its sender is a member of that room and the id of
    a stored user. *)
Theorem post_messages_stores_bounded_messages
    (cfg : Config) (ok : Oracle) (w : World) (authHeader : option string)
    (body : CreateMessageDto) :
  let w' := snd (post_messages cfg authHeader body ok w) in
  db_users (w_db w') = db_users (w_db w)
  ∧ db_rooms (w_db w') = db_rooms (w_db w)
  ∧ (db_messages (w_db w') = db_messages (w_db w)
     ∨ ∃ m room,
         db_messages (w_db w') = db_messages (w_db w) ++ [m]
         ∧ m_content m = trim (dto_content body)
         ∧ charCount (m_content m) ≤ 2000
         ∧ m_messageType m ∈ ["text"; "image"; "file"]
         ∧ m_room m = dto_room body
         ∧ isMongoId (m_room m) = true
         ∧ db_rooms (w_db w) !! m_room m = Some room
         ∧ m_sender m ∈ r_members room
         ∧ ∃ stored, stored ∈ map_to_list (db_users (w_db w))
                     ∧ m_sender m = u_id stored.2).
Proof.
  intros w'. subst w'.
  destruct (post_messages_db cfg authHeader body ok w)
    as [Hsame | (user & Hnext & Hv & Hsend)].
  { rewrite Hsame. split; [done|]. split; [done|]. by left. }
  destruct (authenticateToken_frame cfg authHeader ok w)
    as (_ & Hdb & _ & _).
  apply sendMessageValidation_passes in Hv as (Hlen & Hid & Hty).
  destruct (authenticateToken_next _ _ _ _ _ Hnext)
    as (decoded & stored & Hstored & Huser).
  pose proof (sendMessage_db (snd (sendMessageValidation body))
                (p_userId user) ok
                (snd (authenticateToken cfg authHeader ok w)))
    as (Hu & Hr & Hm).
  rewrite Hsend, Hu, Hr, Hdb.
  split; [done|]. split; [done|].
  destruct Hm as [Hm | (Hm & room & Hroom & Hmem)];
    [left; by rewrite Hm, Hdb|].
  right.
  exists (new_message (snd (authenticateToken cfg authHeader ok w))
            (snd (sendMessageValidation body)) (p_userId user)), room.
  rewrite Hm, Hdb. simpl in *. rewrite Hdb in Hroom.
  split; [done|]. split; [apply trim_idemp|].
  split.
  { rewrite trim_idemp. etrans; [apply charCount_trim|].
    unfold isLength in Hlen. apply andb_true_iff in Hlen as [_ Hmax].
    by apply Nat.leb_le in Hmax. }
  split.
  { destruct (dto_messageType body) as [t|].
    - unfold isIn in Hty. by apply bool_decide_eq_true in Hty.
    - apply elem_of_cons. by left. }
  split; [done|]. split; [done|]. split; [done|]. split; [done|].
  exists (p_userId decoded, stored). split; [|done].
  by apply elem_of_map_to_list.
Qed.

(** X13. A body whose content is 1 to 2000 characters of white space only
    passes the validation of POST /messages, which checks the length
    before it trims, and the controller is called with the empty
    content. *)
Theorem blank_content_passes_validation
    (cfg : Config) (ok : Oracle) (w : World) (authHeader : option string)
    (body : CreateMessageDto) (user : AuthPayload) :
  forallb isSpace (String.list_ascii_of_string (dto_content body)) = true →
  isLength 1 2000 (dto_content body) = true →
  isMongoId (dto_room body) = true →
  match dto_messageType body with
  | Some t => isIn ["text"; "image"; "file"] t = true
  | None => True
  end →
  fst (authenticateToken cfg authHeader ok w) = Ok (Next user) →
  fst (sendMessageValidation body) = []
  ∧ post_messages cfg authHeader body ok w =
    MessageController_sendMessage user
      {| dto_content := ""; dto_room := dto_room body;
         dto_messageType := dto_messageType body |} ok
      (snd (authenticateToken cfg authHeader ok w)).
Proof.
  intros Hblank Hlen Hid Hty Hgate.
  assert (fst (sendMessageValidation body) = []) as Hnone.
  { unfold sendMessageValidation, check. simpl. rewrite Hlen, Hid.
    destruct (dto_messageType body); [|done]. by rewrite Hty. }
  split; [done|].
  rewrite (post_messages_valid_run _ _ _ _ _ user) by (by rewrite ?Hnone).
  unfold sendMessageValidation. simpl. unfold trim.
  by rewrite (ltrim_spaces _ Hblank).
Qed.

Lemma blank_content_passes_validation_witness :
  fst (sendMessageValidation (said "   ")) = []
  ∧ post_messages demo_cfg (Some "Bearer token-alice") (said "   ") all_ok
      chat_world =
    MessageController_sendMessage alice (said "") all_ok
      (snd (authenticateToken demo_cfg (Some "Bearer token-alice") all_ok
              chat_world)).
Proof.
  apply (blank_content_passes_validation demo_cfg all_ok chat_world
           (Some "Bearer token-alice") (said "   ") alice);
    by vm_compute.
Defined.

(** ** The error handler behind the routes *)

Lemma answer_Error raised message :
  Js.truthy message = true →
  answer raised (NextError (Error message)) =
  {| status := 500; res_message := message |}.
Proof.
  intros Ht. unfold answer, js_error, errorHandler. simpl. by rewrite Ht.
Qed.

Lemma post_rooms_join_valid_run cfg authHeader roomId ok w user :
  fst (authenticateToken cfg authHeader ok w) = Ok (Next user) →
  isMongoId roomId = true →
  post_rooms_join cfg authHeader roomId ok w =
  RoomController_joinRoom user roomId ok
    (snd (authenticateToken cfg authHeader ok w)).
Proof.
  intros Hgate Hv. unfold post_rooms_join, roomIdValidation, check.
  rewrite Hv. simpl. unfold bind at 1.
  destruct (authenticateToken cfg authHeader ok w) as [[g|e] w1];
    simpl in *; by simplify_eq.
Qed.

Lemma post_rooms_leave_valid_run cfg authHeader roomId ok w user :
  fst (authenticateToken cfg authHeader ok w) = Ok (Next user) →
  isMongoId roomId = true →
  post_rooms_leave cfg authHeader roomId ok w =
  RoomController_leaveRoom user roomId ok
    (snd (authenticateToken cfg authHeader ok w)).
Proof.
  intros Hgate Hv. unfold post_rooms_leave, roomIdValidation, check.
  rewrite Hv. simpl. unfold bind at 1.
  destruct (authenticateToken cfg authHeader ok w) as [[g|e] w1];
    simpl in *; by simplify_eq.
Qed.

(** X14. For an authenticated caller and an answering store, the errors
    the services throw go through the error handler and are answered
    with status 500 and the message of the error: POST /messages for an
    unknown room or a non-member, the join route for an unknown room or
    a member, the leave route for an unknown room, the owner or a
    non-member. *)
Theorem service_errors_are_answered_500
    (cfg : Config) (ok : Oracle) (raised : ExtCall → JsError) (w : World)
    (authHeader : option string) (user : AuthPayload) :
  fst (authenticateToken cfg authHeader ok w) = Ok (Next user) →
  (∀ c, is_db_call c = true → ok c = true) →
  let answered (r : Res Outcome * World) (message : string) :=
    ∃ o, fst r = Ok o
         ∧ answer raised o = {| status := 500; res_message := message |} in
  (∀ body,
     handleValidationErrors (fst (sendMessageValidation body)) = Next tt →
     match db_rooms (w_db w) !! dto_room body with
     | None =>
         answered (post_messages cfg authHeader body ok w) "Room not found"
     | Some room =>
         Js.includes (p_userId user) (r_members room) = false →
         answered (post_messages cfg authHeader body ok w)
           "User is not a member of this room"
     end)
  ∧ (∀ roomId,
       isMongoId roomId = true →
       match db_rooms (w_db w) !! roomId with
       | None =>
           answered (post_rooms_join cfg authHeader roomId ok w)
             "Room not found"
           ∧ answered (post_rooms_leave cfg authHeader roomId ok w)
               "Room not found"
       | Some room =>
           (Js.includes (p_userId user) (r_members room) = true →
            answered (post_rooms_join cfg authHeader roomId ok w)
              "User is already a member of this room")
           ∧ (r_owner room = p_userId user →
              answered (post_rooms_leave cfg authHeader roomId ok w)
                "Room owner cannot leave the room")
           ∧ (r_owner room ≠ p_userId user →
              Js.includes (p_userId user) (r_members room) = false →
              answered (post_rooms_leave cfg authHeader roomId ok w)
                "User is not a member of this room")
       end).
Proof.
  intros Hgate Hdb answered.
  destruct (authenticateToken_frame cfg authHeader ok w)
    as (_ & Hsame & _ & _).
  set (w1 := snd (authenticateToken cfg authHeader ok w)) in *.
  split.
  - intros body Hv.
    rewrite (post_messages_valid_run _ _ _ _ _ user) by done. fold w1.
    pose proof (Hdb (RoomFindById (dto_room body)) eq_refl) as Hfind.
    destruct (db_rooms (w_db w) !! dto_room body) as [room|] eqn:Hroom.
    + intros Hmem. eexists. split; [|by apply answer_Error].
      unfold MessageController_sendMessage. unfold_send. unfold_m. simpl.
      rewrite Hfind. simpl. by rewrite Hsame, Hroom, Hmem.
    + eexists. split; [|by apply answer_Error].
      unfold MessageController_sendMessage. unfold_send. unfold_m. simpl.
      rewrite Hfind. simpl. by rewrite Hsame, Hroom.
  - intros roomId Hid.
    rewrite (post_rooms_join_valid_run _ _ _ _ _ user),
      (post_rooms_leave_valid_run _ _ _ _ _ user) by done. fold w1.
    pose proof (Hdb (RoomFindById roomId) eq_refl) as Hfind.
    destruct (db_rooms (w_db w) !! roomId) as [room|] eqn:Hroom.
    + split; [|split].
      * intros Hmem. eexists. split; [|by apply answer_Error].
        unfold RoomController_joinRoom, joinRoom, Room_findById. unfold_m.
        simpl. rewrite Hfind. simpl. by rewrite Hsame, Hroom, Hmem.
      * intros Howner. eexists. split; [|by apply answer_Error].
        unfold RoomController_leaveRoom, leaveRoom, Room_findById. unfold_m.
        simpl. rewrite Hfind. simpl. rewrite Hsame, Hroom. simpl.
        by rewrite Howner, String.eqb_refl.
      * intros Howner Hmem. eexists. split; [|by apply answer_Error].
        unfold RoomController_leaveRoom, leaveRoom, Room_findById. unfold_m.
        simpl. rewrite Hfind. simpl. rewrite Hsame, Hroom. simpl.
        apply String.eqb_neq in Howner. by rewrite Howner, Hmem.
    + split.
      * eexists. split; [|by apply answer_Error].
        unfold RoomController_joinRoom, joinRoom, Room_findById. unfold_m.
        simpl. rewrite Hfind. simpl. by rewrite Hsame, Hroom.
      * eexists. split; [|by apply answer_Error].
        unfold RoomController_leaveRoom, leaveRoom, Room_findById. unfold_m.
        simpl. rewrite Hfind. simpl. by rewrite Hsame, Hroom.
Qed.

Lemma service_errors_are_answered_500_witness :
  ∃ o, fst (post_rooms_leave demo_cfg (Some "Bearer token-alice") general
              all_ok chat_world) = Ok o
       ∧ answer validation_error o =
         {| status := 500;
            res_message := "Room owner cannot leave the room" |}.
Proof.
  assert (fst (authenticateToken demo_cfg (Some "Bearer token-alice") all_ok
                 chat_world) = Ok (Next alice)) as Hgate by (by vm_compute).
  exact (proj1 (proj2 (proj2 (service_errors_are_answered_500 demo_cfg all_ok
                                validation_error chat_world
                                (Some "Bearer token-alice") alice Hgate
                                (fun _ _ => eq_refl))
                         general eq_refl))
           eq_refl).
Defined.

(** X15. When the store rejects the save of a valid message of a member,
    POST /messages hands the rejection to the error handler and stores
    nothing; if the rejection is a ValidationError the answer is 400
    'Validation error'. *)
Theorem rejected_save_is_answered_by_its_error
    (cfg : Config) (ok : Oracle) (raised : ExtCall → JsError) (w : World)
    (authHeader : option string) (user : AuthPayload)
    (body : CreateMessageDto) (room : IRoom) :
  fst (authenticateToken cfg authHeader ok w) = Ok (Next user) →
  handleValidationErrors (fst (sendMessageValidation body)) = Next tt →
  ok (RoomFindById (dto_room body)) = true →
  db_rooms (w_db w) !! dto_room body = Some room →
  Js.includes (p_userId user) (r_members room) = true →
  let w1 := snd (authenticateToken cfg authHeader ok w) in
  let save := MessageSave (new_message w1 (snd (sendMessageValidation body))
                             (p_userId user)) in
  ok save = false →
  fst (post_messages cfg authHeader body ok w) = Ok (NextError (Rejected save))
  ∧ db_messages (w_db (snd (post_messages cfg authHeader body ok w))) =
    db_messages (w_db w)
  ∧ (err_name (raised save) = "ValidationError" →
     answer raised (NextError (Rejected save)) =
     {| status := 400; res_message := "Validation error" |}).
Proof.
  intros Hgate Hv Hfind Hroom Hmem w1 save Hrej.
  destruct (authenticateToken_frame cfg authHeader ok w)
    as (_ & Hsame & _ & _).
  rewrite (post_messages_valid_run _ _ _ _ _ user) by done. fold w1.
  subst save. unfold new_message in *. simpl in *.
  split; [|split].
  - unfold MessageController_sendMessage. unfold_send. unfold_m. simpl.
    rewrite Hfind. simpl. fold w1 in Hsame. rewrite Hsame, Hroom, Hmem. simpl.
    rewrite ?Hsame. rewrite Hsame in Hrej. rewrite Hrej. simpl.
    by rewrite ?Hsame.
  - unfold MessageController_sendMessage. unfold_send. unfold_m. simpl.
    rewrite Hfind. simpl. fold w1 in Hsame. rewrite Hsame, Hroom, Hmem. simpl.
    rewrite ?Hsame. rewrite Hsame in Hrej. rewrite Hrej. simpl.
    by rewrite ?Hsame.
  - intros Hname. unfold answer, js_error, errorHandler. by rewrite Hname.
Qed.

Lemma rejected_save_is_answered_by_its_error_witness :
  answer validation_error
    (NextError
       (Rejected
          (MessageSave
             (new_message
                (snd (authenticateToken demo_cfg (Some "Bearer token-alice")
                        save_rejected chat_world))
                (snd (sendMessageValidation hi)) "u1")))) =
  {| status := 400; res_message := "Validation error" |}.
Proof.
  assert (fst (authenticateToken demo_cfg (Some "Bearer token-alice")
                 save_rejected chat_world) = Ok (Next alice)) as Hgate
    by (by vm_compute).
  exact (proj2 (proj2 (rejected_save_is_answered_by_its_error demo_cfg
                         save_rejected validation_error chat_world
                         (Some "Bearer token-alice") alice hi general_room
                         Hgate eq_refl eq_refl eq_refl eq_refl eq_refl))
           eq_refl).
Defined.

(** ** The authorization header *)

Lemma split_free sep s : free_of sep s → Js.split sep s = [s].
Proof.
  unfold free_of. induction s as [|c s IH]; simpl; [done|].
  intros [Hc Hs]%andb_true_iff. apply negb_true_iff in Hc. rewrite Hc.
  by rewrite (IH Hs).
Qed.

Lemma split_app sep a b :
  free_of sep a →
  Js.split sep (a +:+ String sep b) = a :: Js.split sep b.
Proof.
  unfold free_of. induction a as [|c a IH]; simpl.
  - intros _. by rewrite Ascii.eqb_refl.
  - intros [Hc Hs]%andb_true_iff. apply negb_true_iff in Hc. rewrite Hc.
    by rewrite (IH Hs).
Qed.

Lemma truthy_app_sep a sep b : Js.truthy (a +:+ String sep b) = true.
Proof. by destruct a. Qed.

(** X16. The gate reads the token as the second space-separated field of
    the authorization header and checks neither the scheme before it nor
    what follows it: such a header is treated exactly like the header
    'Bearer ' followed by the token. *)
Theorem authorization_scheme_is_not_checked
    (cfg : Config) (ok : Oracle) (w : World) (scheme token : string)
    (rest : option string) :
  free_of " " scheme → free_of " " token →
  let header :=
    scheme +:+ " " +:+
    match rest with Some r => token +:+ " " +:+ r | None => token end in
  bearer_token (Some header) = Some token
  ∧ authenticateToken cfg (Some header) ok w =
    authenticateToken cfg (Some ("Bearer " +:+ token)) ok w.
Proof.
  intros Hscheme Htoken header.
  assert (∀ s r, free_of " " s →
            bearer_token
              (Some (s +:+ " " +:+
                     match r with
                     | Some r => token +:+ " " +:+ r
                     | None => token
                     end)) = Some token) as Hbt.
  { intros s r Hs. unfold bearer_token.
    change (s +:+ " " +:+ ?x) with (s +:+ String " " x).
    rewrite truthy_app_sep, split_app by done. simpl. f_equal.
    destruct r as [r|].
    - change (token +:+ " " +:+ r) with (token +:+ String " " r).
      by rewrite split_app.
    - by rewrite split_free. }
  split; [by apply Hbt|].
  unfold authenticateToken. subst header.
  rewrite (Hbt scheme rest Hscheme).
  change ("Bearer " +:+ token) with ("Bearer" +:+ " " +:+ token).
  by rewrite (Hbt "Bearer" None eq_refl).
Qed.

Lemma authorization_scheme_is_not_checked_witness :
  authenticateToken demo_cfg (Some "Basic token-alice") all_ok chat_world =
  authenticateToken demo_cfg (Some "Bearer token-alice") all_ok chat_world.
Proof.
  exact (proj2 (authorization_scheme_is_not_checked demo_cfg all_ok chat_world
                  "Basic" "token-alice" None eq_refl eq_refl)).
Defined.

(** X17. [authenticateToken] never throws: it answers or passes on; it
    leaves the stored data and the socket service unchanged and makes at
    most one external call; a rejected user lookup is answered 500
    'Authentication error'. *)
Theorem gate_answers_or_passes
    (cfg : Config) (ok : Oracle) (w : World) (authHeader : option string) :
  (∃ g, fst (authenticateToken cfg authHeader ok w) = Ok g)
  ∧ w_db (snd (authenticateToken cfg authHeader ok w)) = w_db w
  ∧ w_svc (snd (authenticateToken cfg authHeader ok w)) = w_svc w
  ∧ length (trace (authenticateToken cfg authHeader) ok w) ≤ 1
  ∧ (∀ token decoded,
       bearer_token authHeader = Some token → Js.truthy token = true →
       Js.truthy_opt (JWT_SECRET cfg) = true →
       jwt_verify cfg token (JWT_SECRET cfg) = Decoded decoded →
       ok (UserFindById (p_userId decoded)) = false →
       authenticateToken cfg authHeader ok w =
       (Ok (Respond {| status := 500;
                       res_message := "Authentication error" |}),
        add_log w (Call (UserFindById (p_userId decoded)) false))).
Proof.
  destruct (authenticateToken_frame cfg authHeader ok w)
    as (Hg & Hdb & Hsvc & _).
  split; [done|]. split; [done|]. split; [done|]. split.
  - unfold trace, authenticateToken, User_findById. unfold_m. simpl.
    repeat gate_branch; trace_done; simpl; lia.
  - intros token decoded Htok Ht Hsecret Hv Hrej.
    unfold authenticateToken, User_findById. unfold_m.
    rewrite Htok, Ht, Hsecret, Hv. simpl. by rewrite Hrej.
Qed.

(** ** Pages of the message history *)

Ltac unfold_q := unfold qbind, qret, qthrow, lift, ask in *.

Lemma ceil_div_gt total limit page :
  0 < limit -> (page < ceil_div total limit <-> page * limit < total).
Proof.
  intros Hl. unfold ceil_div. split.
  - intros H.
    assert (page + 1 <= (total + (limit - 1)) / limit) as H1 by lia.
    assert ((page + 1) * limit <= total + (limit - 1)).
    { etrans; [apply Nat.mul_le_mono_r, H1|].
      rewrite Nat.mul_comm. apply Nat.Div0.mul_div_le. }
    nia.
  - intros H.
    assert ((page + 1) * limit <= total + (limit - 1)) as H1 by nia.
    apply (Nat.Div0.div_le_mono _ _ limit) in H1.
    rewrite Nat.div_mul in H1 by lia. lia.
Qed.

Lemma ceil_div_covers total limit :
  0 < limit -> total <= ceil_div total limit * limit.
Proof.
  intros Hl. destruct (decide (total <= ceil_div total limit * limit)); [done|].
  assert (ceil_div total limit < ceil_div total limit) as ?; [|lia].
  apply ceil_div_gt; lia.
Qed.

Lemma getMessages_run room page limit answers ok w r :
  db_rooms (w_db w) !! room = Some r ->
  ok (RoomFindById room) = true ->
  answers (MessageFindPage room ((Pos.to_nat page - 1) * Pos.to_nat limit)
             (Pos.to_nat limit)) = true ->
  answers (MessageCountDocuments room) = true ->
  getMessages room page limit answers ok w =
    (Returns
       {| mp_messages :=
            reverse (find_page (w_db w) room
                       ((Pos.to_nat page - 1) * Pos.to_nat limit)
                       (Pos.to_nat limit));
          mp_pagination :=
            {| currentPage := Pos.to_nat page;
               totalPages :=
                 ceil_div (length (room_history (w_db w) room))
                   (Pos.to_nat limit);
               totalMessages := length (room_history (w_db w) room);
               hasNext :=
                 Pos.to_nat page <?
                   ceil_div (length (room_history (w_db w) room))
                     (Pos.to_nat limit);
               hasPrev := 1 <? Pos.to_nat page |} |},
     add_log w (Call (RoomFindById room) true)).
Proof.
  intros Hr Hok Hp Hc. unfold getMessages, Room_findById.
  unfold_q. unfold_m. simpl. rewrite Hok. simpl. rewrite Hr. simpl.
  rewrite Hp. simpl. rewrite Hc. done.
Qed.

Lemma history_window (h : list IMessage) s l :
  h = reverse (drop (s + l) (reverse h))
      ++ reverse (take l (drop s (reverse h)))
      ++ reverse (take s (reverse h)).
Proof.
  rewrite <- !reverse_app, <- (drop_drop (reverse h) l s), <- app_assoc.
  by rewrite (take_drop l), (take_drop s), reverse_involutive.
Qed.

(** X18. When [getMessages] returns, the room exists, nothing stored has
    changed, the total is the number of stored messages of the room, and
    the page is a run of consecutive messages of the history of the room
    in stored order, at most [limit] long, followed by min(skip, total)
    newer messages; [hasNext] holds exactly when older messages remain
    before the page, and then the page is full. *)
Theorem getMessages_returns_a_window room page limit answers ok w r w' :
  getMessages room page limit answers ok w = (Returns r, w') ->
  let history := room_history (w_db w) room in
  let skip := (Pos.to_nat page - 1) * Pos.to_nat limit in
  is_Some (db_rooms (w_db w) !! room) /\
  w_db w' = w_db w /\ w_svc w' = w_svc w /\
  totalMessages (mp_pagination r) = length history /\
  exists older newer,
    history = older ++ mp_messages r ++ newer /\
    length newer = skip `min` length history /\
    length (mp_messages r) <= Pos.to_nat limit /\
    (hasNext (mp_pagination r) = true <-> older <> []) /\
    (older <> [] -> length (mp_messages r) = Pos.to_nat limit).
Proof.
  intros Hrun history skip.
  unfold getMessages, Room_findById in Hrun. unfold_q. unfold_m.
  simpl in Hrun.
  destruct (ok (RoomFindById room)); simpl in Hrun; [|done].
  destruct (db_rooms (w_db w) !! room) as [room0|] eqn:Hroom;
    simpl in Hrun; [|done].
  destruct (answers (MessageFindPage _ _ _)); simpl in Hrun; [|done].
  destruct (answers (MessageCountDocuments _)); simpl in Hrun; [|done].
  injection Hrun as <- <-. simpl.
  split; [by eexists|]. do 3 (split; [done|]).
  fold history. fold skip. unfold find_page. fold history.
  exists (reverse (drop (skip + Pos.to_nat limit) (reverse history))),
    (reverse (take skip (reverse history))).
  split; [by apply history_window|].
  assert (0 < Pos.to_nat limit) as Hl by lia.
  assert (skip + Pos.to_nat limit = Pos.to_nat page * Pos.to_nat limit)
    as Hnext by (unfold skip; nia).
  rewrite !length_reverse, !length_take, !length_drop, !length_reverse.
  split; [lia|]. split; [lia|].
  assert (reverse (drop (skip + Pos.to_nat limit) (reverse history)) <> []
          <-> Pos.to_nat page * Pos.to_nat limit < length history) as Hold.
  { rewrite <- Hnext.
    split.
    - intros H. destruct (decide (skip + Pos.to_nat limit < length history));
        [done|].
      destruct H. rewrite drop_ge; [done|]. rewrite length_reverse. lia.
    - intros H Hnil. apply (f_equal length) in Hnil.
      rewrite length_reverse, length_drop, length_reverse in Hnil.
      simpl in Hnil. lia. }
  split.
  - rewrite Hold, Nat.ltb_lt. by apply ceil_div_gt.
  - rewrite Hold. lia.
Qed.

Lemma getMessages_returns_a_window_witness :
  ∃ older newer,
    room_history (w_db history_world) general =
      older ++ reverse (find_page (w_db history_world) general 2 2) ++ newer
    ∧ length newer = 2 `min` length (room_history (w_db history_world) general).
Proof.
  destruct (getMessages_returns_a_window general 2 2 all_answered all_ok
              history_world _ _
              (getMessages_run general 2 2 all_answered all_ok history_world
                 general_room eq_refl eq_refl eq_refl eq_refl))
    as (_ & _ & _ & _ & older & newer & H1 & H2 & _).
  by exists older, newer.
Defined.

(** X19. For an existing room and an answering store, the pages from
    [totalPages] down to 1, one after the other, are exactly the stored
    history of the room: no message is missed and none is repeated. *)
Theorem getMessages_pages_tile_the_history room limit answers ok w :
  is_Some (db_rooms (w_db w) !! room) ->
  ok (RoomFindById room) = true ->
  (forall q, answers q = true) ->
  exists r w',
    getMessages room 1 limit answers ok w = (Returns r, w') /\
    concat (map (page_messages room limit answers ok w)
              (reverse (map Pos.of_nat
                          (seq 1 (totalPages (mp_pagination r))))))
    = room_history (w_db w) room.
Proof.
  intros [room0 Hroom] Hok Hans.
  eexists _, _. split.
  { by apply (getMessages_run _ _ _ _ _ _ room0). }
  simpl.
  set (h := room_history (w_db w) room).
  set (l := Pos.to_nat limit).
  assert (0 < l) as Hl by (unfold l; lia).
  assert (forall n,
    concat (map (page_messages room limit answers ok w)
              (reverse (map Pos.of_nat (seq 1 n))))
    = reverse (take (n * l) (reverse h))) as Htile.
  { induction n as [|n IH]; [done|].
    rewrite seq_S, map_app, reverse_app. simpl.
    rewrite IH. unfold page_messages at 1.
    rewrite (getMessages_run _ _ _ _ _ _ room0) by done. simpl.
    rewrite Nat2Pos.id by lia. unfold find_page. fold h. fold l.
    rewrite <- reverse_app.
    replace (S n - 1) with n by lia.
    replace (l + n * l) with (n * l + l) by lia.
    by rewrite take_take_drop. }
  rewrite Htile, take_ge, reverse_involutive; [done|].
  rewrite length_reverse. by apply ceil_div_covers.
Qed.

Lemma getMessages_pages_tile_the_history_witness :
  ∃ r w',
    getMessages general 1 2 all_answered all_ok history_world =
      (Returns r, w')
    ∧ concat (map (page_messages general 2 all_answered all_ok history_world)
                (reverse (map Pos.of_nat
                            (seq 1 (totalPages (mp_pagination r))))))
      = room_history (w_db history_world) general.
Proof.
  apply (getMessages_pages_tile_the_history general 2 all_answered all_ok
           history_world); [by eexists | done | done].
Defined.

(** ** Edits of messages and deletion of rooms *)

Lemma find_message_Some db id m :
  find_message db id = Some m -> m_id m = id /\ m ∈ db_messages db.
Proof.
  unfold find_message. intros H. apply head_Some in H as [l H].
  assert (m ∈ filter (fun m => m_id m = id) (db_messages db)) as Hin.
  { rewrite H. apply elem_of_cons. by left. }
  apply list_elem_of_filter in Hin. tauto.
Qed.

Lemma replace_message_found l m content :
  head (filter (fun x => m_id x = m_id m) l) = Some m ->
  Forall2 (fun x y => y = x \/ (x = m /\ y = with_content m content))
    l (replace_message (with_content m content) l)
  /\ with_content m content ∈ replace_message (with_content m content) l.
Proof.
  induction l as [|x l IH]; [done|].
  simpl. destruct (decide (m_id x = m_id m)) as [Hx|Hx].
  - rewrite filter_cons_True by done. simpl. intros [= ->]. split.
    + constructor; [by right|]. apply Forall2_same_length_lookup_2; [done|].
      intros i a b Ha Hb. left. congruence.
    + apply elem_of_cons. by left.
  - rewrite filter_cons_False by done. intros H.
    destruct (IH H) as [H1 H2]. split.
    + constructor; [by left|done].
    + apply elem_of_cons. by right.
Qed.

(** X20. Whatever the collaborators answer, [updateMessage] leaves users,
    rooms and the socket service unchanged and changes the stored
    messages at most in messages of the given id whose sender is the
    caller, to the same message with the trimmed new content; it emits
    nothing to any socket and publishes nothing to RabbitMQ; the message
    it returns has the given id, the caller as sender and the trimmed
    content, and is stored. *)
Theorem updateMessage_edits_only_the_senders_message
    (messageId : nat) (content userId : string)
    (answers : Query -> bool) (ok : Oracle) (w : World) :
  let out := updateMessage messageId content userId answers ok w in
  db_users (w_db (snd out)) = db_users (w_db w) /\
  db_rooms (w_db (snd out)) = db_rooms (w_db w) /\
  w_svc (snd out) = w_svc w /\
  Forall2 (edit_of messageId userId content)
    (db_messages (w_db w)) (db_messages (w_db (snd out))) /\
  (forall e, e ∈ qtrace (updateMessage messageId content userId) answers ok w ->
     is_emit e = false /\ is_queue_publish e = false) /\
  (forall m, fst out = Returns m ->
     m_id m = messageId /\ m_sender m = userId /\
     m_content m = trim content /\ m ∈ db_messages (w_db (snd out))).
Proof.
  assert (forall l : list IMessage,
    Forall2 (edit_of messageId userId content) l l) as Hsame.
  { intros l. apply Forall2_same_length_lookup_2; [done|].
    intros i a b Ha Hb. left. congruence. }
  unfold qtrace, updateMessage, Message_update, publishMessageEditToRedis,
    room_id, null_id.
  unfold_q. unfold_m. simpl.
  destruct (answers (MessageFindById messageId)); simpl.
  2:{ rewrite drop_all. split_and!; try done. by intros e ?%elem_of_nil. }
  destruct (find_message (w_db w) messageId) as [m|] eqn:Hfind; simpl.
  2:{ rewrite drop_all. split_and!; try done. by intros e ?%elem_of_nil. }
  destruct (find_message_Some _ _ _ Hfind) as [Hid Hin].
  destruct (String.eqb (m_sender m) userId) eqn:Hsender; simpl.
  2:{ rewrite drop_all. split_and!; try done. by intros e ?%elem_of_nil. }
  apply String.eqb_eq in Hsender.
  assert (head (filter (fun x => m_id x = m_id m) (db_messages (w_db w)))
          = Some m) as Hhead by (by rewrite Hid).
  destruct (replace_message_found _ _ content Hhead) as [Hrep Hnew].
  assert (Forall2 (edit_of messageId userId content) (db_messages (w_db w))
            (replace_message (with_content m content) (db_messages (w_db w))))
    as Hedit.
  { eapply Forall2_impl; [exact Hrep|]. intros x y [->|[-> ->]]; [by left|].
    by right. }
  destruct (ok (MessageSave _)); simpl.
  2:{ trace_done. split_and!; try done.
      intros e He. list_cases He. done. }
  destruct (ok (MessagePopulate _ "sender")); simpl.
  2:{ trace_done. split_and!; try done.
      intros e He. list_cases He; done. }
  destruct (ok (MessagePopulate _ "room")); simpl.
  2:{ trace_done. split_and!; try done.
      intros e He. list_cases He; done. }
  destruct (db_rooms (w_db w) !! m_room m); simpl;
    [destruct (ok (RedisPublish _ _)); simpl|].
  all: trace_done; split_and!; try done;
    [ intros e He; list_cases He; done | by intros m0 [= <-] ].
Qed.

Lemma deleteRoom_frame
    (roomId userId : string) (answers : Query -> bool) (ok : Oracle)
    (w : World) :
  let out := deleteRoom roomId userId answers ok w in
  db_users (w_db (snd out)) = db_users (w_db w) /\
  db_messages (w_db (snd out)) = db_messages (w_db w) /\
  w_svc (snd out) = w_svc w /\
  ((exists t, fst out = Throws t) /\
   db_rooms (w_db (snd out)) = db_rooms (w_db w)
   \/
   (exists room, db_rooms (w_db w) !! roomId = Some room /\
                 r_owner room = userId) /\
   fst out = Returns "Room deleted successfully" /\
   db_rooms (w_db (snd out)) = delete roomId (db_rooms (w_db w))).
Proof.
  unfold deleteRoom, Room_findById. unfold_q. unfold_m. simpl.
  destruct (ok (RoomFindById roomId)); simpl.
  2:{ split_and!; try done. left. split; [by eexists|done]. }
  destruct (db_rooms (w_db w) !! roomId) as [room|] eqn:Hroom; simpl.
  2:{ split_and!; try done. left. split; [by eexists|done]. }
  destruct (String.eqb (r_owner room) userId) eqn:Howner; simpl.
  2:{ split_and!; try done. left. split; [by eexists|done]. }
  apply String.eqb_eq in Howner.
  destruct (answers (RoomFindByIdAndDelete roomId)); simpl.
  2:{ split_and!; try done. left. split; [by eexists|done]. }
  split_and!; try done. right. split_and!; try done. by exists room.
Qed.

(** X21. Whatever the collaborators answer, [deleteRoom] leaves users,
    messages and the socket service unchanged; either it throws and the
    rooms are unchanged, or the caller is the owner of the room, it
    returns 'Room deleted successfully' and exactly that room is removed
    from the store. *)
Theorem deleteRoom_only_by_owner
    (roomId userId : string) (answers : Query -> bool) (ok : Oracle)
    (w : World) :
  let out := deleteRoom roomId userId answers ok w in
  db_users (w_db (snd out)) = db_users (w_db w) /\
  db_messages (w_db (snd out)) = db_messages (w_db w) /\
  w_svc (snd out) = w_svc w /\
  ((exists t, fst out = Throws t) /\
   db_rooms (w_db (snd out)) = db_rooms (w_db w)
   \/
   (exists room, db_rooms (w_db w) !! roomId = Some room /\
                 r_owner room = userId) /\
   fst out = Returns "Room deleted successfully" /\
   db_rooms (w_db (snd out)) = delete roomId (db_rooms (w_db w))).
Proof.
  apply deleteRoom_frame.
Qed.



